(** * mongodb-agent-app-rag: the agent loop, its tools and the schema retrieval

    A shallow embedding of [agent.py], [app.py], [tools/query_tools.py],
    [tools/schema_tools.py], [rag/embeddings.py], [rag/retrieval.py],
    [rag/schema_index.py] and [rag/query_examples_index.py].

    Python values are a tagged tree ([pyval]); a dict is an association list
    in insertion order (Python dicts keep it, and the tools print in it).
    A str is held as the bytes of its UTF-8 encoding; [len], slices and
    [strip] work on its characters.
    Calls that leave the process (MongoDB, the Voyage embedding service, the
    chat model) are fields of environment records: each one takes the state
    of the outside world and gives back a result or an exception, together
    with the next state.  Only exceptions below Python's [Exception] class
    are modelled; the signals that sit beside it ([KeyboardInterrupt],
    [SystemExit]) are not. *)

From Stdlib Require Import String Ascii List ZArith Lia Bool Arith PeanoNat.
From Stdlib Require Import Floats DecimalString.
Import ListNotations.
Local Open Scope list_scope.
Local Open Scope string_scope.

Set Implicit Arguments.

(* ------------------------------------------------------------------------ *)
(** ** Exceptions, results and the effect monad *)

Module Py.

(** The exception classes the sources tell apart. *)
Inductive exn_class : Type :=
| JSONDecodeError
| GraphRecursionError
| OtherException (name : string).

(** An exception with the text [str(e)] gives. *)
Record exn : Type := mkExn { exn_cls : exn_class; exn_str : string }.

Definition is_JSONDecodeError (e : exn) : bool :=
  match exn_cls e with JSONDecodeError => true | _ => false end.

Inductive Res (A : Type) : Type :=
| Return (a : A)
| Raise (e : exn).
Arguments Return {A} a.
Arguments Raise {A} e.

(** A computation over the outside world [W]: the world is kept when the
    computation raises. *)
Definition M (W A : Type) : Type := W -> Res A * W.

Definition ret {W A} (a : A) : M W A := fun w => (Return a, w).
Definition raise {W A} (e : exn) : M W A := fun w => (Raise e, w).
Definition lift {W A} (r : Res A) : M W A := fun w => (r, w).

Definition bind {W A B} (m : M W A) (k : A -> M W B) : M W B :=
  fun w => match m w with
           | (Return a, w') => k a w'
           | (Raise e, w') => (Raise e, w')
           end.

(** [try: body except Exception as e: handler e]. *)
Definition try_except {W A} (body : M W A) (handler : exn -> M W A) : M W A :=
  fun w => match body w with
           | (Return a, w') => (Return a, w')
           | (Raise e, w') => handler e w'
           end.

Definition returns {W A} (m : M W A) (w : W) : Prop :=
  exists a w', m w = (Return a, w').

Definition raises {W A} (m : M W A) (w : W) : Prop :=
  exists e w', m w = (Raise e, w').

(* ---------------------------------------------------------------------- *)
(** ** Python values *)

#[local] Unset Elimination Schemes.
Inductive pyval : Type :=
| PNone
| PBool (b : bool)
| PInt (z : Z)
| PFloat (f : float)
| PStr (s : string)
| PObjectId (hex : string)            (* bson.ObjectId; [hex] is what str() gives *)
| PList (l : list pyval)
| PDict (d : list (string * pyval))
| POther (type_name : string) (text : string).
                                       (* datetime, Decimal128, ...: class name and str() *)
#[local] Set Elimination Schemes.

(** A document as the driver hands it over: a dict with string keys. *)
Definition document : Type := list (string * pyval).

(** Induction through the lists and dicts nested in a value. *)
Section pyval_induction.
Variable P : pyval -> Prop.
Hypothesis HNone : P PNone.
Hypothesis HBool : forall b, P (PBool b).
Hypothesis HInt : forall z, P (PInt z).
Hypothesis HFloat : forall f, P (PFloat f).
Hypothesis HStr : forall s, P (PStr s).
Hypothesis HObjectId : forall h, P (PObjectId h).
Hypothesis HList : forall l, Forall P l -> P (PList l).
Hypothesis HDict : forall d, Forall (fun kv => P (snd kv)) d -> P (PDict d).
Hypothesis HOther : forall n t, P (POther n t).

Fixpoint pyval_ind (v : pyval) : P v :=
  match v with
  | PNone => HNone
  | PBool b => HBool b
  | PInt z => HInt z
  | PFloat f => HFloat f
  | PStr s => HStr s
  | PObjectId h => HObjectId h
  | PList l =>
      HList ((fix go (l : list pyval) : Forall P l :=
                match l with
                | [] => Forall_nil P
                | x :: l' => Forall_cons x (pyval_ind x) (go l')
                end) l)
  | PDict d =>
      HDict ((fix go (d : document) : Forall (fun kv => P (snd kv)) d :=
                match d with
                | [] => Forall_nil _
                | kv :: d' =>
                    Forall_cons (P := fun kv => P (snd kv)) kv
                      (pyval_ind (snd kv)) (go d')
                end) d)
  | POther n t => HOther n t
  end.
End pyval_induction.

(** Truth value of an object, as [if x], [x or y] and [not x] take it. *)
Definition truthy (v : pyval) : bool :=
  match v with
  | PNone => false
  | PBool b => b
  | PInt z => negb (Z.eqb z 0)
  | PFloat f => negb (PrimFloat.eqb f 0%float)
  | PStr s => negb (String.eqb s EmptyString)
  | PObjectId _ => true
  | PList l => match l with [] => false | _ => true end
  | PDict d => match d with [] => false | _ => true end
  | POther _ _ => true
  end.

(** [type(v).__name__] *)
Definition type_name (v : pyval) : string :=
  match v with
  | PNone => "NoneType"
  | PBool _ => "bool"
  | PInt _ => "int"
  | PFloat _ => "float"
  | PStr _ => "str"
  | PObjectId _ => "ObjectId"
  | PList _ => "list"
  | PDict _ => "dict"
  | POther n _ => n
  end.

(** [d.get(k)]: [None] when the key is missing. *)
Fixpoint dict_get (d : document) (k : string) : pyval :=
  match d with
  | [] => PNone
  | (k', v) :: d' => if String.eqb k' k then v else dict_get d' k
  end.

Definition dict_keys (d : document) : list string := map fst d.

Definition is_None (v : pyval) : bool :=
  match v with PNone => true | _ => false end.

Definition nl : string := String (ascii_of_nat 10) EmptyString.

(** [x or y] on values. *)
Definition py_or (x y : pyval) : pyval := if truthy x then x else y.

(** [sep.join(parts)] *)
Definition join (sep : string) (parts : list string) : string :=
  String.concat sep parts.

(** A [str] is held as the bytes of its UTF-8 encoding.  The white space
    [str.strip] removes is the set of [str.isspace]: in one byte U+0009 to
    U+000D, U+001C to U+001F and U+0020; in two bytes U+0085 and U+00A0; in
    three bytes U+1680, U+2000 to U+200A, U+2028, U+2029, U+202F, U+205F and
    U+3000. *)
Definition is_space (c : ascii) : bool :=
  let n := nat_of_ascii c in
  (Nat.leb 9 n && Nat.leb n 13) || (Nat.leb 28 n && Nat.leb n 32).

Definition is_space2 (c c1 : ascii) : bool :=
  Nat.eqb (nat_of_ascii c) 194
  && (Nat.eqb (nat_of_ascii c1) 133 || Nat.eqb (nat_of_ascii c1) 160).

Definition is_space3 (c c1 c2 : ascii) : bool :=
  let n := nat_of_ascii c in
  let n1 := nat_of_ascii c1 in
  let n2 := nat_of_ascii c2 in
  (Nat.eqb n 225 && Nat.eqb n1 154 && Nat.eqb n2 128)
  || (Nat.eqb n 226 && Nat.eqb n1 128
      && ((Nat.leb 128 n2 && Nat.leb n2 138)
          || Nat.eqb n2 168 || Nat.eqb n2 169 || Nat.eqb n2 175))
  || (Nat.eqb n 226 && Nat.eqb n1 129 && Nat.eqb n2 159)
  || (Nat.eqb n 227 && Nat.eqb n1 128 && Nat.eqb n2 128).

Fixpoint lstrip (s : string) : string :=
  match s with
  | String c s1 =>
      if is_space c then lstrip s1
      else
        match s1 with
        | String c1 s2 =>
            if is_space2 c c1 then lstrip s2
            else
              match s2 with
              | String c2 s3 => if is_space3 c c1 c2 then lstrip s3 else s
              | EmptyString => s
              end
        | EmptyString => s
        end
  | EmptyString => EmptyString
  end.

(** From the right: what is left of the tail is dropped with the byte [c]
    before it when the two together are one white-space character. *)
Definition rstrip_step (c : ascii) (r : string) : string :=
  match r with
  | EmptyString => if is_space c then EmptyString else String c EmptyString
  | String c1 r1 =>
      match r1 with
      | EmptyString =>
          if is_space2 c c1 then EmptyString
          else String c (String c1 EmptyString)
      | String c2 r2 =>
          match r2 with
          | EmptyString =>
              if is_space3 c c1 c2 then EmptyString
              else String c (String c1 (String c2 EmptyString))
          | String c3 r3 => String c (String c1 (String c2 (String c3 r3)))
          end
      end
  end.

Fixpoint rstrip (s : string) : string :=
  match s with
  | String c s' => rstrip_step c (rstrip s')
  | EmptyString => EmptyString
  end.

(** [s.strip()] *)
Definition strip (s : string) : string := rstrip (lstrip s).

(** A byte that continues a character of several bytes. *)
Definition is_continuation (c : ascii) : bool :=
  let n := nat_of_ascii c in Nat.leb 128 n && Nat.ltb n 192.

(** [len(s)]: the number of characters (code points), not of bytes. *)
Fixpoint str_len (s : string) : nat :=
  match s with
  | String c s' => if is_continuation c then str_len s' else S (str_len s')
  | EmptyString => 0
  end.

(** [s[:n]]: the first [n] characters, each with all of its bytes. *)
Fixpoint str_slice (n : nat) (s : string) : string :=
  match s with
  | String c s' =>
      if is_continuation c then String c (str_slice n s')
      else match n with
           | S n' => String c (str_slice n' s')
           | O => EmptyString
           end
  | EmptyString => EmptyString
  end.

(** [sub in s] *)
Fixpoint str_in (sub s : string) : bool :=
  String.prefix sub s
  || match s with
     | String _ s' => str_in sub s'
     | EmptyString => false
     end.

(** [s * n] *)
Fixpoint str_repeat (s : string) (n : nat) : string :=
  match n with
  | O => EmptyString
  | S n' => s ++ str_repeat s n'
  end.

Definition str_truthy (s : string) : bool := negb (String.eqb s EmptyString).

(** [str(n)] for a length or an index. *)
Definition str_nat (n : nat) : string := NilZero.string_of_uint (Nat.to_uint n).

End Py.
Export Py.

Declare Scope py_scope.
Delimit Scope py_scope with py.
Notation "x <- m ;; k" := (bind m (fun x => k))
  (at level 61, m at next level, right associativity) : py_scope.
Local Open Scope py_scope.

(* ------------------------------------------------------------------------ *)
(** ** What the tools are given *)

(** The pymongo database handle [db] the tools close over.  Each field is a
    whole driver call as the sources write it; it may raise. *)
Record Database (W : Type) : Type := mkDatabase {
  (* db.list_collection_names() *)
  list_collection_names : M W (list string);
  (* list(db[name].find(filter, projection).limit(n)) *)
  coll_find : string -> option pyval -> option pyval -> Z -> M W (list document);
  (* list(db[name].aggregate(pipeline)) *)
  coll_aggregate : string -> list pyval -> M W (list document)
}.

(** The library functions of the interpreter the tools call. *)
Record Builtins : Type := mkBuiltins {
  (* json.loads(text): the decoded value or the exception *)
  json_loads : string -> Res pyval;
  (* json.dumps(value, indent=2, default=str) *)
  json_dumps : pyval -> Res string;
  (* repr(s) of a str *)
  repr_str : string -> string
}.

(* ------------------------------------------------------------------------ *)
(** ** tools/query_tools.py *)

Module QueryTools.

(** [_serialize]: ObjectId to str, through dicts and lists. *)
Fixpoint _serialize (obj : pyval) : pyval :=
  match obj with
  | PObjectId hex => PStr hex
  | PDict d => PDict (map (fun kv => (fst kv, _serialize (snd kv))) d)
  | PList l => PList (map _serialize l)
  | _ => obj
  end.

(** [s.get("$limit")] on a stage: only a dict has [get]. *)
Definition stage_get_limit (s : pyval) : Res pyval :=
  match s with
  | PDict d => Return (dict_get d "$limit")
  | _ => Raise (mkExn (OtherException "AttributeError")
                  ("'" ++ type_name s ++ "' object has no attribute 'get'"))
  end.

(** [any(s.get("$limit") is not None for s in pipeline)]: stops at the first
    stage that has a limit; a stage without [get] met before that raises. *)
Fixpoint has_limit (pipeline : list pyval) : Res bool :=
  match pipeline with
  | [] => Return false
  | s :: rest =>
      match stage_get_limit s with
      | Return v => if negb (is_None v) then Return true else has_limit rest
      | Raise e => Raise e
      end
  end.

Definition limit_stage (limit_results : Z) : pyval :=
  PDict [("$limit", PInt limit_results)].

(** Lines 62 to 64 of [execute_aggregation]: the pipeline handed to the driver. *)
Definition with_limit (pipeline : list pyval) (limit_results : Z)
  : Res (list pyval) :=
  match has_limit pipeline with
  | Return hl =>
      Return (if negb hl && negb (Z.eqb limit_results 0)
              then app pipeline [limit_stage limit_results]
              else pipeline)
  | Raise e => Raise e
  end.

Section Tools.
Variable W : Type.
Variable B : Builtins.
Variable db : Database W.

(** [json.loads(text) if text.strip() else {}] *)
Definition loads_or_empty (text : string) : Res pyval :=
  if str_truthy (strip text) then json_loads B text else Return (PDict []).

(** [json.dumps(_serialize(docs), indent=2, default=str)] *)
Definition dump_docs (docs : list document) : Res string :=
  json_dumps B (_serialize (PList (map PDict docs))).

(** The two [except] clauses of [execute_find]. *)
Definition find_handler (e : exn) : M W string :=
  if is_JSONDecodeError e
  then ret ("Invalid JSON in filter or projection: " ++ exn_str e)
  else ret ("Error executing find: " ++ exn_str e).

Definition execute_find (collection_name filter_json projection_json : string)
    (limit : Z) : M W string :=
  try_except
    (filt <- lift (loads_or_empty filter_json) ;;
     proj <- lift (loads_or_empty projection_json) ;;
     docs <- coll_find db collection_name (Some filt)
               (if truthy proj then Some proj else None) limit ;;
     lift (dump_docs docs))
    find_handler.

(** The part of [execute_aggregation] after the pipeline is fixed. *)
Definition aggregate_and_dump (collection_name : string) (pipeline : list pyval)
  : M W string :=
  docs <- coll_aggregate db collection_name pipeline ;;
  lift (dump_docs docs).

(** The two [except] clauses of [execute_aggregation]. *)
Definition aggregation_handler (e : exn) : M W string :=
  if is_JSONDecodeError e
  then ret ("Invalid JSON pipeline: " ++ exn_str e)
  else ret ("Error executing aggregation: " ++ exn_str e).

Definition execute_aggregation (collection_name pipeline_json : string)
    (limit_results : Z) : M W string :=
  try_except
    (pipeline <- lift (json_loads B pipeline_json) ;;
     match pipeline with
     | PList stages =>
         pipeline' <- lift (with_limit stages limit_results) ;;
         aggregate_and_dump collection_name pipeline'
     | _ => ret "pipeline_json must be a JSON array of stages."
     end)
    aggregation_handler.
End Tools.

End QueryTools.

(* ------------------------------------------------------------------------ *)
(** ** tools/schema_tools.py *)

Module SchemaTools.

Section Tools.
Variable W : Type.
Variable B : Builtins.
Variable db : Database W.

Definition list_collections : M W string :=
  try_except
    (names <- list_collection_names db ;;
     let joined := join ", " names in
     ret ("Collections in database 'inferyx': "
            ++ (if str_truthy joined then joined else "None")))
    (fun e => ret ("Error listing collections: " ++ exn_str e)).

(** [f"{keys}"] for a list of str: the repr of the list. *)
Definition repr_keys (keys : list string) : string :=
  "[" ++ join ", " (map (repr_str B) keys) ++ "]".

(** The type label [t] of one field (lines 40 to 44). *)
Definition type_label (v : pyval) : string :=
  let t := type_name v in
  match v with
  | PDict d => t ++ " (keys: " ++ repr_keys (firstn 8 (dict_keys d)) ++ ")"
  | PList (PDict d0 :: _) =>
      t ++ " (list of dicts, first keys: "
        ++ repr_keys (firstn 5 (dict_keys d0)) ++ ")"
  | _ => t
  end.

(** The inner loop: one [lines.append] per field of the document. *)
Definition append_fields (lines : list string) (doc : document) : list string :=
  fold_left
    (fun lines kv =>
       app lines ["  " ++ fst kv ++ ": " ++ type_label (snd kv)])
    doc lines.

(** The outer loop over [enumerate(docs)], [i] the index of the first
    document of [docs]. *)
Fixpoint append_docs (lines : list string) (i : nat) (docs : list document)
  : list string :=
  match docs with
  | [] => lines
  | doc :: rest =>
      let lines :=
        app lines ["--- Document " ++ str_nat (i + 1) ++ " ---"] in
      let lines := append_fields lines doc in
      let lines := app lines [EmptyString] in
      append_docs lines (S i) rest
  end.

Definition get_collection_schema (collection_name : string) (sample_size : Z)
  : M W string :=
  try_except
    (docs <- coll_find db collection_name None None sample_size ;;
     match docs with
     | [] => ret ("Collection '" ++ collection_name
                    ++ "' is empty or does not exist.")
     | _ =>
         let lines := ["Collection: " ++ collection_name;
                       "Sample size: " ++ str_nat (length docs);
                       EmptyString] in
         ret (join nl (append_docs lines 0 docs))
     end)
    (fun e => ret ("Error getting schema for '" ++ collection_name ++ "': "
                     ++ exn_str e)).
End Tools.

End SchemaTools.

(* ------------------------------------------------------------------------ *)
(** ** A decoder to run the tools on concrete texts

    The tools take [json.loads] from their environment.  This decoder follows
    the scanner of the [json] module on the JSON texts the examples use:
    objects, arrays, strings with the one-letter escapes, integers and the
    three literals, with the module's error texts and positions.  Numbers
    with a fraction or an exponent and [\u] escapes are left out (they
    are reported as [NotImplementedError]). *)

Module Json.

Definition chars : Type := list ascii.

Fixpoint to_chars (s : string) : chars :=
  match s with
  | EmptyString => []
  | String c s' => c :: to_chars s'
  end.

Fixpoint of_chars (l : chars) : string :=
  match l with
  | [] => EmptyString
  | c :: l' => String c (of_chars l')
  end.

Definition code (c : ascii) : nat := nat_of_ascii c.

(** The white space of the scanner: space, tab, line feed, carriage return. *)
Definition is_ws (c : ascii) : bool :=
  let n := code c in
  Nat.eqb n 32 || Nat.eqb n 9 || Nat.eqb n 10 || Nat.eqb n 13.

Definition is_digit (c : ascii) : bool :=
  let n := code c in Nat.leb 48 n && Nat.leb n 57.

(** Skip white space from position [pos]. *)
Fixpoint skip_ws (l : chars) (pos : nat) : chars * nat :=
  match l with
  | c :: l' => if is_ws c then skip_ws l' (S pos) else (l, pos)
  | [] => (l, pos)
  end.

(** Line and column of position [pos] of the whole text. *)
Fixpoint line_col (text : chars) (pos line col : nat) : nat * nat :=
  match pos, text with
  | S pos', c :: text' =>
      if Nat.eqb (code c) 10 then line_col text' pos' (S line) 1
      else line_col text' pos' line (S col)
  | _, _ => (line, col)
  end.

Definition decode_error (msg : string) (text : chars) (pos : nat) : exn :=
  let lc := line_col text pos 1 1 in
  mkExn JSONDecodeError
    (msg ++ ": line " ++ str_nat (fst lc) ++ " column " ++ str_nat (snd lc)
         ++ " (char " ++ str_nat pos ++ ")").

Definition not_covered (what : string) : exn :=
  mkExn (OtherException "NotImplementedError") what.

(** What a scanning step gives: the value and the rest with its position,
    [StopIteration] at a position, or an exception. *)
Inductive scan (A : Type) : Type :=
| Scanned (a : A) (rest : chars) (pos : nat)
| Stop (pos : nat)
| Failed (e : exn).
Arguments Scanned {A} a rest pos.
Arguments Stop {A} pos.
Arguments Failed {A} e.

Fixpoint starts_with (prefix l : chars) : option chars :=
  match prefix, l with
  | [], _ => Some l
  | p :: prefix', c :: l' =>
      if Ascii.eqb p c then starts_with prefix' l' else None
  | _ :: _, [] => None
  end.

(** [dict(pairs)]: a later pair with the same key replaces the value and
    keeps the place of the first. *)
Fixpoint dict_set (d : document) (k : string) (v : pyval) : document :=
  match d with
  | [] => [(k, v)]
  | (k', v') :: d' =>
      if String.eqb k' k then (k', v) :: d' else (k', v') :: dict_set d' k v
  end.

Definition dict_of_pairs (pairs : document) : document :=
  fold_left (fun d kv => dict_set d (fst kv) (snd kv)) pairs [].

Definition unescape (c : ascii) : option ascii :=
  let n := code c in
  if Nat.eqb n 34 then Some c                          (* quote *)
  else if Nat.eqb n 92 then Some c                     (* backslash *)
  else if Nat.eqb n 47 then Some c                     (* slash *)
  else if Nat.eqb n 98 then Some (ascii_of_nat 8)      (* b *)
  else if Nat.eqb n 102 then Some (ascii_of_nat 12)    (* f *)
  else if Nat.eqb n 110 then Some (ascii_of_nat 10)    (* n *)
  else if Nat.eqb n 114 then Some (ascii_of_nat 13)    (* r *)
  else if Nat.eqb n 116 then Some (ascii_of_nat 9)     (* t *)
  else None.

(** [scanstring]: [l] starts after the opening quote, which is at [begin]. *)
Fixpoint scanstring (text : chars) (begin : nat) (acc : chars) (l : chars)
    (pos : nat) : scan string :=
  match l with
  | [] => Failed (decode_error "Unterminated string starting at" text begin)
  | c :: l' =>
      if Nat.eqb (code c) 34 then Scanned (of_chars (rev acc)) l' (S pos)
      else if Nat.eqb (code c) 92 then
        match l' with
        | [] => Failed (decode_error "Unterminated string starting at" text begin)
        | e :: l'' =>
            if Nat.eqb (code e) 117
            then Failed (not_covered "unicode escape")
            else match unescape e with
                 | Some u => scanstring text begin (u :: acc) l'' (S (S pos))
                 | None => Failed (decode_error "Invalid \escape" text pos)
                 end
        end
      else if Nat.ltb (code c) 32
      then Failed (decode_error "Invalid control character at" text pos)
      else scanstring text begin (c :: acc) l' (S pos)
  end.

Fixpoint take_digits (l : chars) : chars * chars :=
  match l with
  | c :: l' => if is_digit c
               then let r := take_digits l' in (c :: fst r, snd r)
               else ([], l)
  | [] => ([], [])
  end.

Definition digits_value (ds : chars) : Z :=
  fold_left (fun acc c => (acc * 10 + Z.of_nat (code c - 48))%Z) ds 0%Z.

(** The integer part of the number pattern: [0], or a non-zero digit and
    more digits. *)
Definition take_int (l : chars) : option (chars * chars) :=
  match l with
  | c :: l' =>
      if Nat.eqb (code c) 48 then Some ([c], l')
      else if is_digit c then Some (take_digits l)
      else None
  | [] => None
  end.

Definition starts_fraction_or_exponent (l : chars) : bool :=
  match l with
  | c :: d :: _ =>
      (Nat.eqb (code c) 46 && is_digit d)
      || ((Nat.eqb (code c) 101 || Nat.eqb (code c) 69)
            && (is_digit d || Nat.eqb (code d) 43 || Nat.eqb (code d) 45))
  | _ => false
  end.

Definition scan_number (l : chars) (pos : nat) : scan pyval :=
  let neg := match l with c :: _ => Nat.eqb (code c) 45 | [] => false end in
  let body := if neg then tl l else l in
  match take_int body with
  | Some (ds, rest) =>
      if starts_fraction_or_exponent rest
      then Failed (not_covered "float literal")
      else let z := digits_value ds in
           Scanned (PInt (if neg then Z.opp z else z)) rest
             (pos + length ds + (if neg then 1 else 0))
  | None =>
      match starts_with (to_chars "NaN") l,
            starts_with (to_chars "Infinity") l,
            starts_with (to_chars "-Infinity") l with
      | Some rest, _, _ => Scanned (PFloat nan) rest (pos + 3)
      | _, Some rest, _ => Scanned (PFloat infinity) rest (pos + 8)
      | _, _, Some rest => Scanned (PFloat neg_infinity) rest (pos + 9)
      | _, _, _ => Stop pos
      end
  end.

Definition literal (word : string) (v : pyval) (l : chars) (pos : nat)
  : option (scan pyval) :=
  match starts_with (to_chars word) l with
  | Some rest => Some (Scanned v rest (pos + String.length word))
  | None => None
  end.

Definition recursion_error : exn :=
  mkExn (OtherException "RecursionError")
    "maximum recursion depth exceeded while decoding a JSON document".

Section Scanner.
Variable text : chars.

(** A [StopIteration] inside an array or an object. *)
Definition expecting_value {A} (pos : nat) : scan A :=
  Failed (decode_error "Expecting value" text pos).

Fixpoint scan_once (fuel : nat) (l : chars) (pos : nat) : scan pyval :=
  match fuel with
  | O => Failed recursion_error
  | S fuel' =>
      match l with
      | [] => Stop pos
      | c :: l' =>
          let n := code c in
          if Nat.eqb n 34 then
            match scanstring text pos [] l' (S pos) with
            | Scanned s rest pos' => Scanned (PStr s) rest pos'
            | Stop p => Stop p
            | Failed e => Failed e
            end
          else if Nat.eqb n 123 then
            (* JSONObject *)
            let '(l1, p1) :=
              match l' with
              | c1 :: _ => if Nat.eqb (code c1) 34 then (l', S pos)
                           else skip_ws l' (S pos)
              | [] => (l', S pos)
              end in
            match l1 with
            | c1 :: l2 =>
                if Nat.eqb (code c1) 125 then Scanned (PDict []) l2 (S p1)
                else if Nat.eqb (code c1) 34
                then object_loop fuel' [] l2 (S p1) p1
                else Failed (decode_error
                  "Expecting property name enclosed in double quotes" text p1)
            | [] => Failed (decode_error
                  "Expecting property name enclosed in double quotes" text p1)
            end
          else if Nat.eqb n 91 then
            (* JSONArray *)
            let '(l1, p1) := skip_ws l' (S pos) in
            match l1 with
            | c1 :: l2 =>
                if Nat.eqb (code c1) 93 then Scanned (PList []) l2 (S p1)
                else array_loop fuel' [] l1 p1
            | [] => array_loop fuel' [] l1 p1
            end
          else
            match literal "null" PNone l pos,
                  literal "true" (PBool true) l pos,
                  literal "false" (PBool false) l pos with
            | Some r, _, _ => r
            | _, Some r, _ => r
            | _, _, Some r => r
            | _, _, _ => scan_number l pos
            end
      end
  end

(** The loop of [JSONArray]: [l] is at the next value. *)
with array_loop (fuel : nat) (acc : list pyval) (l : chars) (pos : nat)
  : scan pyval :=
  match fuel with
  | O => Failed recursion_error
  | S fuel' =>
      match scan_once fuel' l pos with
      | Stop p => expecting_value p
      | Failed e => Failed e
      | Scanned v rest p =>
          let '(l1, p1) := skip_ws rest p in
          match l1 with
          | c :: l2 =>
              if Nat.eqb (code c) 93
              then Scanned (PList (rev (v :: acc))) l2 (S p1)
              else if Nat.eqb (code c) 44
              then let '(l3, p3) := skip_ws l2 (S p1) in
                   array_loop fuel' (v :: acc) l3 p3
              else Failed (decode_error "Expecting ',' delimiter" text p1)
          | [] => Failed (decode_error "Expecting ',' delimiter" text p1)
          end
      end
  end

(** The loop of [JSONObject]: [l] is after the opening quote of a key,
    which is at [key_pos]. *)
with object_loop (fuel : nat) (acc : document) (l : chars) (pos key_pos : nat)
  : scan pyval :=
  match fuel with
  | O => Failed recursion_error
  | S fuel' =>
      match scanstring text key_pos [] l pos with
      | Stop p => Stop p
      | Failed e => Failed e
      | Scanned key rest p =>
          let '(l1, p1) := skip_ws rest p in
          match l1 with
          | colon :: l2 =>
              if Nat.eqb (code colon) 58 then
                let '(l3, p3) := skip_ws l2 (S p1) in
                match scan_once fuel' l3 p3 with
                | Stop q => expecting_value q
                | Failed e => Failed e
                | Scanned v rest' q =>
                    let '(l4, p4) := skip_ws rest' q in
                    match l4 with
                    | c :: l5 =>
                        if Nat.eqb (code c) 125
                        then Scanned
                               (PDict (dict_of_pairs (rev ((key, v) :: acc))))
                               l5 (S p4)
                        else if Nat.eqb (code c) 44
                        then
                          let '(l6, p6) := skip_ws l5 (S p4) in
                          match l6 with
                          | c6 :: l7 =>
                              if Nat.eqb (code c6) 34
                              then object_loop fuel' ((key, v) :: acc)
                                     l7 (S p6) p6
                              else Failed (decode_error
                                "Expecting property name enclosed in double quotes"
                                text p6)
                          | [] => Failed (decode_error
                                "Expecting property name enclosed in double quotes"
                                text p6)
                          end
                        else Failed
                               (decode_error "Expecting ',' delimiter" text p4)
                    | [] => Failed
                              (decode_error "Expecting ',' delimiter" text p4)
                    end
                end
              else Failed (decode_error "Expecting ':' delimiter" text p1)
          | [] => Failed (decode_error "Expecting ':' delimiter" text p1)
          end
      end
  end.
End Scanner.

(** [json.loads(s)]: one value between white space, nothing after it. *)
Definition loads (s : string) : Res pyval :=
  let text := to_chars s in
  let '(l0, p0) := skip_ws text 0 in
  match scan_once text (2 * length text + 2) l0 p0 with
  | Stop p => Raise (decode_error "Expecting value" text p)
  | Failed e => Raise e
  | Scanned v rest p =>
      let '(l1, p1) := skip_ws rest p in
      match l1 with
      | [] => Return v
      | _ => Raise (decode_error "Extra data" text p1)
      end
  end.

End Json.

(* ------------------------------------------------------------------------ *)
(** ** rag/embeddings.py *)

(** The Voyage client as [rag/embeddings.py] uses it. *)
Record Voyage (W : Type) : Type := mkVoyage {
  (* config.VOYAGE_API_KEY *)
  VOYAGE_API_KEY : string;
  (* voyageai.Client(api_key=...).embed(texts, model=...).embeddings *)
  vo_embed : list string -> M W (list (list float))
}.

Module Embeddings.

Section Embed.
Variable W : Type.
Variable V : Voyage W.

Definition get_embedding (text : string) : M W (list float) :=
  if negb (str_truthy text) || negb (str_truthy (VOYAGE_API_KEY V))
  then ret []
  else
    found <- try_except
               (embeddings <- vo_embed V [text] ;;
                ret (match embeddings with
                     | e0 :: _ => Some e0
                     | [] => None
                     end))
               (fun _ => ret None) ;;
    ret (match found with Some e0 => e0 | None => [] end).

(** [[[]] * len(texts)] *)
Definition empty_vectors (texts : list string) : list (list float) :=
  repeat [] (length texts).

Definition get_embeddings (texts : list string) : M W (list (list float)) :=
  match texts with
  | [] => ret []
  | _ =>
      if negb (str_truthy (VOYAGE_API_KEY V))
      then ret (empty_vectors texts)
      else
        try_except
          (embeddings <- vo_embed V texts ;;
           ret (match embeddings with
                | [] => empty_vectors texts
                | _ => embeddings
                end))
          (fun _ => ret (empty_vectors texts))
  end.
End Embed.

End Embeddings.

(* ------------------------------------------------------------------------ *)
(** ** rag/retrieval.py *)

Module Retrieval.

Definition SCHEMA_RAG_COLLECTION : string := "schema_metadata".
Definition SCHEMA_RAG_INDEX_NAME : string := "schema_metadata_vector_index".

(** [str(v)], as an f-string renders a field of a search hit; floats and
    containers are left to the interpreter's own printer [B]. *)
Definition str_int (z : Z) : string :=
  if Z.ltb z 0 then "-" ++ str_nat (Z.abs_nat z) else str_nat (Z.abs_nat z).

Definition py_str (container_str : pyval -> string) (v : pyval) : string :=
  match v with
  | PNone => "None"
  | PBool true => "True"
  | PBool false => "False"
  | PInt z => str_int z
  | PStr s => s
  | PObjectId hex => hex
  | POther _ text => text
  | PFloat _ | PList _ | PDict _ => container_str v
  end.

(** What [retrieval.py] is given: the configuration's [get_database], the
    embedding client, and [str] of floats, lists and dicts. *)
Record Env (W : Type) : Type := mkEnv {
  get_database : M W (Database W);
  voyage : Voyage W;
  container_str : pyval -> string
}.

Definition vector_search_pipeline (index_name : string)
    (query_embedding : list float) (limit : Z) : list pyval :=
  [ PDict [("$vectorSearch",
            PDict [("index", PStr index_name);
                   ("path", PStr "embedding");
                   ("queryVector", PList (map PFloat query_embedding));
                   ("numCandidates", PInt (Z.max (limit * 20) 100));
                   ("limit", PInt limit)])];
    PDict [("$project", PDict [("embedding", PInt 0)])] ].

Definition header : string :=
  "Relevant schema metadata (from vector search; use this to prioritize which collections/fields to use):".

Section Retrieve.
Variable W : Type.
Variable E : Env W.

(** [db[collection_name]] only builds the collection object; it is part of
    the driver call below. *)
Definition _vector_search (db : Database W) (collection_name index_name : string)
    (query_embedding : list float) (limit : Z) : M W (list document) :=
  match query_embedding with
  | [] => ret []
  | _ =>
      try_except
        (coll_aggregate db collection_name
           (vector_search_pipeline index_name query_embedding limit))
        (fun _ => ret [])
  end.

(** The loop of [retrieve_schema_context]: one bullet per hit with a text. *)
Definition append_hit (lines : list string) (d : document) : list string :=
  let text := py_or (py_or (dict_get d "text") (dict_get d "description"))
                (PStr EmptyString) in
  let collection := py_or (py_or (dict_get d "collection_name")
                             (dict_get d "collection")) (PStr EmptyString) in
  if truthy text
  then app lines ["- [" ++ py_str (container_str E) collection ++ "] "
                    ++ py_str (container_str E) text]
  else lines.

(** Lines 47 to 56: from the hits to the block. *)
Definition format_hits (docs : list document) : string :=
  let lines := fold_left append_hit docs [header; EmptyString] in
  if Nat.ltb 2 (length lines) then join nl lines else EmptyString.

Definition retrieve_schema_context (user_query : string) (top_k : Z)
  : M W string :=
  db <- get_database E ;;
  query_embedding <- Embeddings.get_embedding (voyage E) user_query ;;
  match query_embedding with
  | [] => ret EmptyString
  | _ =>
      docs <- _vector_search db SCHEMA_RAG_COLLECTION SCHEMA_RAG_INDEX_NAME
                query_embedding top_k ;;
      match docs with
      | [] => ret EmptyString
      | _ => ret (format_hits docs)
      end
  end.
End Retrieve.

End Retrieval.

(* ------------------------------------------------------------------------ *)
(** ** agent.py *)

Module Agent.

Definition dq : string := String (ascii_of_nat 34) EmptyString.

Definition BASE_SYSTEM : string :=
     "You are a MongoDB expert. You help users query the database "
     ++ "named " ++ dq ++ "inferyx" ++ dq ++ " by understanding their natural language prompt "
     ++ "and using the following tools:"
     ++ nl
     ++ nl
     ++ "1. list_collections - Call this first to see which collections "
     ++ "exist."
     ++ nl
     ++ "2. get_collection_schema - Call this to see field names and "
     ++ "types for one or more collections. For questions that need a "
     ++ "JOIN between two collections, get schema for both collections to"
     ++ " identify the local and foreign key fields for $lookup."
     ++ nl
     ++ "3. execute_find - Run a simple find query on a single collection"
     ++ " (filter and optional projection). Use when the user wants to "
     ++ "list or filter documents from one collection."
     ++ nl
     ++ "4. execute_aggregation - Run an aggregation pipeline. Use for: "
     ++ "grouping, counting, sorting, or JOINing two collections with "
     ++ "$lookup. For a join, use a stage like: {{" ++ dq ++ "$lookup" ++ dq ++ ": {{" ++ dq ++ "from" ++ dq ++ ": "
     ++ dq ++ "other_collection" ++ dq ++ ", " ++ dq ++ "localField" ++ dq ++ ": " ++ dq ++ "field_in_this_collection" ++ dq ++ ", "
     ++ dq ++ "foreignField" ++ dq ++ ": " ++ dq ++ "_id" ++ dq ++ ", " ++ dq ++ "as" ++ dq ++ ": " ++ dq ++ "joined_docs" ++ dq ++ "}}}}."
     ++ nl
     ++ nl
     ++ "Always use the tools to answer. Use any relevant schema provided"
     ++ " below to prioritize collections and query shape. Then call "
     ++ "tools as needed. For " ++ dq ++ "join" ++ dq ++ " or " ++ dq ++ "combine data from two "
     ++ "collections" ++ dq ++ ", use execute_aggregation with a $lookup stage. "
     ++ "Return the final tool result as the answer to the user.".

(** A tool request of a model message. *)
Record ToolCall : Type := mkToolCall {
  tc_id : string;
  tc_name : string;
  tc_args : document
}.

(** [content] of a message: a str, or a list of content blocks. *)
Inductive content : Type :=
| CStr (s : string)
| CBlocks (blocks : list pyval).

Inductive BaseMessage : Type :=
| HumanMessage (c : content)
| AIMessage (c : content) (tool_calls : list ToolCall)
| ToolMessage (c : content) (tool_call_id : string) (name : string)
| SystemMessage (c : content).

Definition content_truthy (c : content) : bool :=
  match c with
  | CStr s => str_truthy s
  | CBlocks [] => false
  | CBlocks _ => true
  end.

(** The nodes of the graph; [START] only points at [agent]. *)
Inductive node : Type := agent | tools | END.

(** What [agent.py] is given. *)
Record Env (W : Type) : Type := mkEnv {
  rag : Retrieval.Env W;
  (* llm_with_tools.invoke(prompt_value): the chat model on the messages the
     prompt template of [chain] has produced, giving the model's message *)
  llm_invoke : list BaseMessage -> M W (content * list ToolCall);
  (* ToolNode(get_all_tools(db)) on one request: the text of its ToolMessage *)
  invoke_tool : Database W -> ToolCall -> M W string;
  (* the step budget of the graph runtime; the source passes no config *)
  recursion_limit : nat;
  (* str() of the GraphRecursionError of the runtime *)
  recursion_text : string
}.

(** Line 50: the template of the system message. *)
Definition SYSTEM_TEMPLATE : string := "{{system}}".

Definition format_error (text : string) : exn :=
  mkExn (OtherException "ValueError") text.

(** [str.format] with keyword arguments, for replacement fields that are
    plain names:
    a doubled brace stands for the brace itself, [{name}] for the value of
    [name].  [field] is the name being read, once a single opening brace
    has been met. *)
Fixpoint format_from (kwargs : list (string * string)) (field : option string)
    (template : string) : Res string :=
  match template with
  | EmptyString =>
      match field with
      | None => Return EmptyString
      | Some _ => Raise (format_error "expected '}' before end of string")
      end
  | String c rest =>
      let keep (head : string) (r : Res string) : Res string :=
        match r with
        | Return text => Return (head ++ text)
        | Raise e => Raise e
        end in
      match field with
      | Some name =>
          if Ascii.eqb c "}"
          then
            match find (fun kv => String.eqb (fst kv) name) kwargs with
            | Some kv => keep (snd kv) (format_from kwargs None rest)
            | None => Raise (mkExn (OtherException "KeyError")
                               ("'" ++ name ++ "'"))
            end
          else format_from kwargs (Some (name ++ String c EmptyString)) rest
      | None =>
          if Ascii.eqb c "{"
          then
            match rest with
            | String c' rest' =>
                if Ascii.eqb c' "{"
                then keep "{" (format_from kwargs None rest')
                else format_from kwargs (Some EmptyString) rest
            | EmptyString =>
                Raise (format_error "Single '{' encountered in format string")
            end
          else if Ascii.eqb c "}"
          then
            match rest with
            | String c' rest' =>
                if Ascii.eqb c' "}"
                then keep "}" (format_from kwargs None rest')
                else Raise (format_error
                              "Single '}' encountered in format string")
            | EmptyString =>
                Raise (format_error "Single '}' encountered in format string")
            end
          else keep (String c EmptyString) (format_from kwargs None rest)
      end
  end.

Definition format (template : string) (kwargs : list (string * string))
  : Res string :=
  format_from kwargs None template.

(** [prompt.invoke({"system": ..., "messages": ...})], lines 49 to 52: the
    system message formatted from its template, then the messages of the
    placeholder. *)
Definition prompt_invoke (system : string) (messages : list BaseMessage)
  : Res (list BaseMessage) :=
  match format SYSTEM_TEMPLATE [("system", system)] with
  | Return text => Return (SystemMessage (CStr text) :: messages)
  | Raise e => Raise e
  end.

Definition fallback : string := "No response generated.".

(** The scan of [reversed(messages)] in [_get_last_user_text]. *)
Fixpoint first_user_text (str_blocks : list pyval -> string)
    (ms : list BaseMessage) : string :=
  match ms with
  | [] => EmptyString
  | HumanMessage c :: rest =>
      if content_truthy c
      then match c with CStr s => s | CBlocks l => str_blocks l end
      else first_user_text str_blocks rest
  | _ :: rest => first_user_text str_blocks rest
  end.

(** The scan of [reversed(messages)] in [run_agent] (lines 94 to 98). *)
Fixpoint scan_final_text (ms : list BaseMessage) : content :=
  match ms with
  | [] => CStr fallback
  | AIMessage c [] :: _ => if content_truthy c then c else CStr fallback
  | _ :: rest => scan_final_text rest
  end.

Definition final_text (messages : list BaseMessage) : content :=
  scan_final_text (rev messages).

(** [add_messages]: the update is appended (its messages carry new ids). *)
Definition add_messages (left right : list BaseMessage) : list BaseMessage :=
  app left right.

Definition route_after_agent (messages : list BaseMessage) : Res node :=
  match rev messages with
  | [] => Raise (mkExn (OtherException "IndexError") "list index out of range")
  | AIMessage _ (_ :: _) :: _ => Return tools
  | _ => Return END
  end.

Section Graph.
Variable W : Type.
Variable E : Env W.

Definition _get_last_user_text (messages : list BaseMessage) : string :=
  first_user_text (fun l => Retrieval.container_str (rag E) (PList l))
    (rev messages).

(** Lines 57 to 63 of [agent_node]: [full_system]. *)
Definition full_system (messages : list BaseMessage) : M W string :=
  let user_text := _get_last_user_text messages in
  schema_ctx <- (if str_truthy user_text
                 then Retrieval.retrieve_schema_context (rag E) user_text 8
                 else ret EmptyString) ;;
  ret (if str_truthy schema_ctx
       then BASE_SYSTEM ++ (nl ++ nl ++ schema_ctx)
       else BASE_SYSTEM).

(** [chain = prompt | llm_with_tools] on the input of line 64. *)
Definition chain_invoke (system : string) (messages : list BaseMessage)
  : M W (content * list ToolCall) :=
  prompt_value <- lift (prompt_invoke system messages) ;;
  llm_invoke E prompt_value.

Definition agent_node (messages : list BaseMessage) : M W (list BaseMessage) :=
  system <- full_system messages ;;
  response <- chain_invoke system messages ;;
  ret [AIMessage (fst response) (snd response)].

(** [ToolNode]: one [ToolMessage] per request of the last message, in the
    order of the requests. *)
Fixpoint run_tool_calls (db : Database W) (calls : list ToolCall)
  : M W (list BaseMessage) :=
  match calls with
  | [] => ret []
  | tc :: rest =>
      out <- invoke_tool E db tc ;;
      outs <- run_tool_calls db rest ;;
      ret (ToolMessage (CStr out) (tc_id tc) (tc_name tc) :: outs)
  end.

Definition tool_node (db : Database W) (messages : list BaseMessage)
  : M W (list BaseMessage) :=
  match rev messages with
  | AIMessage _ calls :: _ => run_tool_calls db calls
  | _ => raise (mkExn (OtherException "ValueError")
                  "No AIMessage found in input")
  end.

(** One step of the compiled graph at node [n]: run the node, merge its
    update, follow the edge. *)
Definition superstep (db : Database W) (n : node) (messages : list BaseMessage)
  : M W (node * list BaseMessage) :=
  match n with
  | agent =>
      update <- agent_node messages ;;
      let messages' := add_messages messages update in
      next <- lift (route_after_agent messages') ;;
      ret (next, messages')
  | tools =>
      update <- tool_node db messages ;;
      ret (agent, add_messages messages update)
  | END => ret (END, messages)
  end.

(** The exception of the runtime when its budget is used up; its text is
    the runtime's. *)
Definition recursion_error : exn := mkExn GraphRecursionError (recursion_text E).

(** [app.stream(initial, stream_mode="values")] down to its last chunk, the
    final state: steps are taken until the graph is at [END]; when [budget]
    steps are used up before that, the runtime raises its
    [GraphRecursionError], which nothing in [agent.py] catches. *)
Fixpoint stream (db : Database W) (budget : nat) (n : node)
    (messages : list BaseMessage) : M W (list BaseMessage) :=
  match n with
  | END => ret messages
  | _ =>
      match budget with
      | O => raise recursion_error
      | S budget' =>
          st <- superstep db n messages ;;
          stream db budget' (fst st) (snd st)
      end
  end.

(** [run_agent].  Building the chat client and compiling the graph
    ([_create_agent]) are taken to succeed; the budget of the stream is the
    runtime's, since the call passes no config. *)
Definition run_agent (user_prompt : string)
  : M W (content * list BaseMessage) :=
  db <- Retrieval.get_database (rag E) ;;
  messages <- stream db (recursion_limit E) agent
                [HumanMessage (CStr user_prompt)] ;;
  ret (final_text messages, messages).
End Graph.

End Agent.

(* ------------------------------------------------------------------------ *)
(** ** A small concrete world

    An in-memory database, a printer and an embedding client to run the
    models on.  The world is the log of the calls that left the process. *)

Module Sample.
Import Agent.

Inductive call : Type :=
| CallListNames
| CallFind (name : string) (filter projection : option pyval) (limit : Z)
| CallAggregate (name : string) (pipeline : list pyval)
| CallEmbed (texts : list string)
| CallModel (system : string) (messages : nat)
| CallConnect.

Definition World : Type := list call.

Definition logged {A} (c : call) (r : Res A) : M World A :=
  fun w => (r, app w [c]).

(** *** The printer: [repr] of a str and [json.dumps(_, indent=2, default=str)]
    on ASCII text *)

Fixpoint contains_char (n : nat) (s : string) : bool :=
  match s with
  | EmptyString => false
  | String c s' => Nat.eqb (nat_of_ascii c) n || contains_char n s'
  end.

Definition hex_digit (n : nat) : string :=
  String (ascii_of_nat (if Nat.ltb n 10 then 48 + n else 87 + n)) EmptyString.

Definition hex2 (n : nat) : string := hex_digit (n / 16) ++ hex_digit (n mod 16).

Fixpoint repr_body (quote : nat) (s : string) : string :=
  match s with
  | EmptyString => EmptyString
  | String c s' =>
      let n := nat_of_ascii c in
      (if Nat.eqb n quote || Nat.eqb n 92 then "\" ++ String c EmptyString
       else if Nat.eqb n 10 then "\n"
       else if Nat.eqb n 13 then "\r"
       else if Nat.eqb n 9 then "\t"
       else if Nat.ltb n 32 || Nat.eqb n 127 then "\x" ++ hex2 n
       else String c EmptyString) ++ repr_body quote s'
  end.

Definition repr_str (s : string) : string :=
  if contains_char 39 s && negb (contains_char 34 s)
  then dq ++ repr_body 34 s ++ dq
  else "'" ++ repr_body 39 s ++ "'".

Fixpoint json_body (s : string) : string :=
  match s with
  | EmptyString => EmptyString
  | String c s' =>
      let n := nat_of_ascii c in
      (if Nat.eqb n 34 || Nat.eqb n 92 then "\" ++ String c EmptyString
       else if Nat.eqb n 10 then "\n"
       else if Nat.eqb n 13 then "\r"
       else if Nat.eqb n 9 then "\t"
       else if Nat.eqb n 8 then "\b"
       else if Nat.eqb n 12 then "\f"
       else if Nat.ltb n 32 then "\u00" ++ hex2 n
       else String c EmptyString) ++ json_body s'
  end.

Definition json_string (s : string) : string := dq ++ json_body s ++ dq.

Definition float_not_covered : exn :=
  mkExn (OtherException "NotImplementedError") "float repr".

(** Print the members of a list or a dict, one per line at [indent]. *)
Definition lines_between (open close indent : string) (items : list string)
  : string :=
  match items with
  | [] => open ++ close
  | _ => open ++ nl ++ indent ++ "  "
           ++ join ("," ++ nl ++ indent ++ "  ") items
           ++ nl ++ indent ++ close
  end.

Fixpoint dumps_at (indent : string) (v : pyval) : Res string :=
  match v with
  | PNone => Return "null"
  | PBool true => Return "true"
  | PBool false => Return "false"
  | PInt z => Return (Retrieval.str_int z)
  | PFloat _ => Raise float_not_covered
  | PStr s => Return (json_string s)
  | PObjectId hex => Return (json_string hex)
  | POther _ text => Return (json_string text)
  | PList l =>
      match (fix items (l : list pyval) : Res (list string) :=
               match l with
               | [] => Return []
               | x :: l' =>
                   match dumps_at (indent ++ "  ") x, items l' with
                   | Return sx, Return sl => Return (sx :: sl)
                   | Raise e, _ => Raise e
                   | _, Raise e => Raise e
                   end
               end) l with
      | Return items => Return (lines_between "[" "]" indent items)
      | Raise e => Raise e
      end
  | PDict d =>
      match (fix items (d : document) : Res (list string) :=
               match d with
               | [] => Return []
               | kv :: d' =>
                   match dumps_at (indent ++ "  ") (snd kv), items d' with
                   | Return sv, Return sd =>
                       Return ((json_string (fst kv) ++ ": " ++ sv) :: sd)
                   | Raise e, _ => Raise e
                   | _, Raise e => Raise e
                   end
               end) d with
      | Return items => Return (lines_between "{" "}" indent items)
      | Raise e => Raise e
      end
  end.

Definition builtins : Builtins :=
  mkBuiltins Json.loads (dumps_at EmptyString) repr_str.

(** *** The database *)

Definition users : list document :=
  [ [("_id", PObjectId "65f1a0c2e4b0a1b2c3d4e5f6");
     ("name", PStr "Ada");
     ("address", PDict [("city", PStr "London"); ("zip", PStr "N1")]);
     ("orders", PList [PDict [("order_id", PObjectId "65f1a0c2e4b0a1b2c3d4e5f7");
                              ("total", PInt 12)]])];
    [("_id", PObjectId "65f1a0c2e4b0a1b2c3d4e5f8");
     ("name", PStr "Bob");
     ("tags", PList [PStr "new"])] ].

Definition schema_metadata : list document :=
  [ [("collection_name", PStr "users");
     ("text", PStr "Collection: users. Fields: _id, name, address, orders")];
    [("collection", PStr "orders");
     ("description", PStr "Orders placed by users")];
    [("collection_name", PStr "audit"); ("text", PStr EmptyString)] ].

Definition collections : list (string * list document) :=
  [("users", users); ("orders", []); ("schema_metadata", schema_metadata)].

(** An index whose entries carry neither a text nor a description. *)
Definition blank_hits : list document :=
  [ [("collection_name", PStr "users")];
    [("collection_name", PStr "orders"); ("text", PNone);
     ("description", PStr EmptyString)] ].

Fixpoint lookup (name : string) (cs : list (string * list document))
  : list document :=
  match cs with
  | [] => []
  | (n, docs) :: cs' => if String.eqb n name then docs else lookup name cs'
  end.

(** [limit(0)] is no limit; otherwise the first [|n|] documents. *)
Definition limited (n : Z) (docs : list document) : list document :=
  if Z.eqb n 0 then docs else firstn (Z.abs_nat n) docs.

(** A server that answers: [find] gives the first documents of the
    collection whatever the filter, [aggregate] gives what its own
    [$limit] stage in last place leaves of the collection. *)
Definition db : Database World :=
  mkDatabase
    (logged CallListNames (Return (map fst collections)))
    (fun name filter projection limit =>
       logged (CallFind name filter projection limit)
         (Return (limited limit (lookup name collections))))
    (fun name pipeline =>
       logged (CallAggregate name pipeline)
         (Return (match rev pipeline with
                  | PDict [("$limit", PInt n)] :: _ =>
                      limited n (lookup name collections)
                  | _ => lookup name collections
                  end))).

Definition db_blank : Database World :=
  mkDatabase
    (logged CallListNames (Return ["schema_metadata"]))
    (fun name filter projection limit =>
       logged (CallFind name filter projection limit) (Return blank_hits))
    (fun name pipeline => logged (CallAggregate name pipeline) (Return blank_hits)).

Definition timeout : exn :=
  mkExn (OtherException "ServerSelectionTimeoutError") "No servers found yet".

(** A server that is down: every call raises. *)
Definition db_down : Database World :=
  mkDatabase
    (logged CallListNames (Raise timeout))
    (fun name filter projection limit =>
       logged (CallFind name filter projection limit) (Raise timeout))
    (fun name pipeline => logged (CallAggregate name pipeline) (Raise timeout)).

(** *** The embedding client *)

Definition unit_vector : list float := [1%float; 0%float].

(** A client with a key whose service answers with one vector per text. *)
Definition voyage : Voyage World :=
  mkVoyage "pa-sample-key"
    (fun texts => logged (CallEmbed texts)
                    (Return (map (fun _ => unit_vector) texts))).

(** No key in the configuration. *)
Definition voyage_no_key : Voyage World :=
  mkVoyage EmptyString
    (fun texts => logged (CallEmbed texts)
                    (Raise (mkExn (OtherException "AuthenticationError")
                              "No API key provided."))).

(** A client with a key whose service fails. *)
Definition voyage_failing : Voyage World :=
  mkVoyage "pa-sample-key"
    (fun texts => logged (CallEmbed texts)
                    (Raise (mkExn (OtherException "RateLimitError")
                              "Too many requests"))).

(** A service that answers with a single vector whatever it is sent. *)
Definition voyage_one_vector : Voyage World :=
  mkVoyage "pa-sample-key"
    (fun texts => logged (CallEmbed texts) (Return [unit_vector])).

(** *** The configuration and the model *)

Definition config_error : exn :=
  mkExn (OtherException "ConfigurationError")
    "Empty host (or extra comma in host list).".

Definition sample_str (v : pyval) : string :=
  match dumps_at EmptyString v with Return s => s | Raise _ => "?" end.

Definition rag_env : Retrieval.Env World :=
  Retrieval.mkEnv (logged CallConnect (Return db)) voyage sample_str.

(** [MONGODB_URI] and [VOYAGE_API_KEY] both unset: the client refuses the
    empty host. *)
Definition rag_env_unset : Retrieval.Env World :=
  Retrieval.mkEnv (logged CallConnect (Raise config_error)) voyage_no_key
    sample_str.

Definition rag_env_blank : Retrieval.Env World :=
  Retrieval.mkEnv (logged CallConnect (Return db_blank)) voyage sample_str.

Definition rag_env_no_key : Retrieval.Env World :=
  Retrieval.mkEnv (logged CallConnect (Return db)) voyage_no_key sample_str.

Definition arg_str (tc : ToolCall) (k : string) (default : string) : string :=
  match dict_get (tc_args tc) k with PStr s => s | _ => default end.

Definition arg_int (tc : ToolCall) (k : string) (default : Z) : Z :=
  match dict_get (tc_args tc) k with PInt z => z | _ => default end.

(** The four tools of [get_all_tools], looked up by name. *)
Definition invoke (d : Database World) (tc : ToolCall) : M World string :=
  let name := tc_name tc in
  if String.eqb name "list_collections" then SchemaTools.list_collections d
  else if String.eqb name "get_collection_schema" then
    SchemaTools.get_collection_schema builtins d
      (arg_str tc "collection_name" EmptyString) (arg_int tc "sample_size" 3)
  else if String.eqb name "execute_find" then
    QueryTools.execute_find builtins d
      (arg_str tc "collection_name" EmptyString)
      (arg_str tc "filter_json" EmptyString)
      (arg_str tc "projection_json" "{}") (arg_int tc "limit" 50)
  else if String.eqb name "execute_aggregation" then
    QueryTools.execute_aggregation builtins d
      (arg_str tc "collection_name" EmptyString)
      (arg_str tc "pipeline_json" EmptyString) (arg_int tc "limit_results" 100)
  else ret ("Error: " ++ name ++ " is not a valid tool.").

Definition list_call : ToolCall := mkToolCall "toolu_01" "list_collections" [].

(** The text of the system message a model is shown, for the log. *)
Definition system_text (prompt : list BaseMessage) : string :=
  match prompt with
  | SystemMessage (CStr text) :: _ => text
  | _ => EmptyString
  end.

Definition shown (prompt : list BaseMessage) : call :=
  CallModel (system_text prompt) (length prompt - 1).

(** A model that asks for [list_collections] whatever it is shown. *)
Definition model_always_asks (prompt : list BaseMessage)
  : M World (content * list ToolCall) :=
  logged (shown prompt) (Return (CStr EmptyString, [list_call])).

(** A model that asks once and then answers. *)
Definition model_asks_once (prompt : list BaseMessage)
  : M World (content * list ToolCall) :=
  logged (shown prompt)
    (Return (match prompt with
             | [_; _] => (CStr EmptyString, [list_call])
             | _ => (CStr "The database has the collections users and orders.", [])
             end)).

(** A model that answers at once, with an empty content. *)
Definition model_silent (prompt : list BaseMessage)
  : M World (content * list ToolCall) :=
  logged (shown prompt) (Return (CStr EmptyString, [])).

(** The calls of [k] rounds of the always-asking model without a key: the
    handle for the retrieval, the model, which has [seen] messages before
    it, then [list_collections]. *)
Fixpoint rounds_log (k : nat) (seen : nat) : list call :=
  match k with
  | O => []
  | S k' => CallConnect :: CallModel "{system}" seen :: CallListNames
              :: rounds_log k' (seen + 2)
  end.

(** JSON texts for the tools. *)
Definition bad_filter : string := "{" ++ dq ++ "status" ++ dq ++ ": active}".
(** A filter that is one no-break space (U+00A0). *)
Definition nbsp_filter : string :=
  String (ascii_of_nat 194) (String (ascii_of_nat 160) EmptyString).
Definition match_pipeline : string := "[{" ++ dq ++ "$match" ++ dq ++ ": {}}]".
Definition null_limit_pipeline : string :=
  "[{" ++ dq ++ "$limit" ++ dq ++ ": null}]".
Definition limit_pipeline : string :=
  "[{" ++ dq ++ "$match" ++ dq ++ ": {}}, {" ++ dq ++ "$limit" ++ dq ++ ": 1}]".

(** A text for the runtime's exception at a budget of 25 steps.  The wording
    is the runtime's own and changes with its version. *)
Definition recursion_text_25 : string :=
  "Recursion limit of 25 reached without hitting a stop condition. "
  ++ "You can increase the limit by setting the `recursion_limit` config key."
  ++ nl ++ "For troubleshooting, visit: "
  ++ "https://python.langchain.com/docs/troubleshooting/errors/GRAPH_RECURSION_LIMIT".

Definition env_silent : Agent.Env World :=
  Agent.mkEnv rag_env_no_key model_silent invoke 25 recursion_text_25.

Definition env_runaway : Agent.Env World :=
  Agent.mkEnv rag_env_no_key model_always_asks invoke 25 recursion_text_25.

Definition env_answering : Agent.Env World :=
  Agent.mkEnv rag_env model_asks_once invoke 25 recursion_text_25.

End Sample.

(* ------------------------------------------------------------------------ *)
(** ** rag/retrieval.py: the query examples *)

Module RetrievalExamples.
Import Retrieval.

Definition QUERY_EXAMPLES_COLLECTION : string := "query_examples".
Definition QUERY_EXAMPLES_INDEX_NAME : string := "query_examples_vector_index".

Definition examples_header : string :=
  "Similar example questions and how they were answered (use as reference for tool usage and query shape):".

(** The mark before a query, byte for byte as the source file has it. *)
Definition arrow : string :=
  String (ascii_of_nat 195) (String (ascii_of_nat 162)
  (String (ascii_of_nat 226) (String (ascii_of_nat 128) (String (ascii_of_nat 160)
  (String (ascii_of_nat 226) (String (ascii_of_nat 128) (String (ascii_of_nat 153)
   EmptyString))))))).

Section Retrieve.
Variable W : Type.
Variable E : Env W.

(** The loop of [retrieve_query_examples_context]: the question, the query
    when there is one, and an empty line, for every hit that has either. *)
Definition append_example (lines : list string) (d : document) : list string :=
  let nl_ := py_or (py_or (dict_get d "natural_language") (dict_get d "question"))
               (PStr EmptyString) in
  let q := py_or (py_or (py_or (dict_get d "query") (dict_get d "pipeline"))
                    (dict_get d "example_query")) (PStr EmptyString) in
  if truthy nl_ || truthy q
  then
    let lines := app lines ["Q: " ++ py_str (container_str E) nl_] in
    let lines := if truthy q
                 then app lines ["  " ++ arrow ++ " " ++ py_str (container_str E) q]
                 else lines in
    app lines [EmptyString]
  else lines.

(** Lines 73 to 84: from the hits to the block. *)
Definition format_examples (docs : list document) : string :=
  let lines := fold_left append_example docs [examples_header; EmptyString] in
  if Nat.ltb 2 (length lines) then strip (join nl lines) else EmptyString.

Definition retrieve_query_examples_context (user_query : string) (top_k : Z)
  : M W string :=
  db <- get_database E ;;
  query_embedding <- Embeddings.get_embedding (voyage E) user_query ;;
  match query_embedding with
  | [] => ret EmptyString
  | _ =>
      docs <- _vector_search db QUERY_EXAMPLES_COLLECTION
                QUERY_EXAMPLES_INDEX_NAME query_embedding top_k ;;
      match docs with
      | [] => ret EmptyString
      | _ => ret (format_examples docs)
      end
  end.
End Retrieve.

End RetrievalExamples.

(* ------------------------------------------------------------------------ *)
(** ** What the index builders are given *)

(** Beside the configuration and the embedding client of [Retrieval.Env]:
    the write call of the driver, the printer and the examples file. *)
Record IndexEnv (W : Type) : Type := mkIndexEnv {
  ix_rag : Retrieval.Env W;
  (* db[name].update_one(filter, {"$set": doc}, upsert=True) *)
  update_one : Database W -> string -> document -> document -> M W unit;
  (* json.dumps(value) *)
  dumps_compact : pyval -> Res string;
  (* os.path.isfile(path) *)
  isfile : string -> M W bool;
  (* with open(path) as f: json.load(f) *)
  json_load_file : string -> M W pyval
}.

(** [[f(x) for x in xs]] for a call [f] that reaches the outside. *)
Fixpoint map_M {W A B : Type} (f : A -> M W B) (xs : list A) : M W (list B) :=
  match xs with
  | [] => ret []
  | x :: rest =>
      y <- f x ;;
      ys <- map_M f rest ;;
      ret (y :: ys)
  end.

(** [s[:n]] for a text of [json.dumps], which escapes every character
    outside ASCII: its characters are its bytes. *)
Definition str_take (n : nat) (s : string) : string := String.substring 0 n s.

(* ------------------------------------------------------------------------ *)
(** ** rag/schema_index.py *)

Module SchemaIndex.

(** The type label of [_infer_schema_text] (lines 20 to 24). *)
Definition schema_label (v : pyval) : string :=
  let t := type_name v in
  match v with
  | PDict d => t ++ " (keys: " ++ join ", " (firstn 6 (dict_keys d)) ++ ")"
  | PList (PDict _ :: _) => t ++ " (list of objects)"
  | _ => t
  end.

(** One field of one document: skipped when its name is in [seen]. *)
Definition infer_field (st : list string * list string) (kv : string * pyval)
  : list string * list string :=
  let parts := fst st in
  let seen := snd st in
  if existsb (String.eqb (fst kv)) seen
  then st
  else (app parts ["  " ++ fst kv ++ ": " ++ schema_label (snd kv)],
        fst kv :: seen).

Definition infer_doc (st : list string * list string) (doc : document)
  : list string * list string :=
  fold_left infer_field doc st.

(** [skip] and the test of line 39. *)
Definition skip : list string :=
  [Retrieval.SCHEMA_RAG_COLLECTION; "query_examples"; "system.indexes"].

Definition indexable (c : string) : bool :=
  negb (existsb (String.eqb c) skip) && negb (String.prefix "system." c).

Definition schema_doc (name text : string) (emb : list float) : document :=
  [("collection_name", PStr name); ("text", PStr text);
   ("embedding", PList (map PFloat emb))].

Section Build.
Variable W : Type.
Variable E : IndexEnv W.

Definition _infer_schema_text (db : Database W) (collection_name : string)
    (sample_size : Z) : M W string :=
  docs <- coll_find db collection_name None None sample_size ;;
  match docs with
  | [] => ret ("Collection " ++ collection_name ++ " (empty)")
  | _ =>
      let st := fold_left infer_doc docs
                  (["Collection: " ++ collection_name ++ ". Fields:"], []) in
      ret (join nl (fst st))
  end.

(** The loop over [zip(to_index, texts, embeddings)]. *)
Fixpoint write_schema_docs (db : Database W)
    (rows : list (string * string * list float)) (written : nat) : M W nat :=
  match rows with
  | [] => ret written
  | (name, text, emb) :: rest =>
      match emb with
      | [] => write_schema_docs db rest written
      | _ =>
          _ <- update_one E db Retrieval.SCHEMA_RAG_COLLECTION
                 [("collection_name", PStr name)] (schema_doc name text emb) ;;
          write_schema_docs db rest (S written)
      end
  end.

Definition build_schema_index (sample_size : Z) : M W nat :=
  db <- Retrieval.get_database (ix_rag E) ;;
  coll_names <- list_collection_names db ;;
  match filter indexable coll_names with
  | [] => ret 0
  | to_index =>
      texts <- map_M (fun c => _infer_schema_text db c sample_size) to_index ;;
      embeddings <- Embeddings.get_embeddings (Retrieval.voyage (ix_rag E)) texts ;;
      write_schema_docs db (combine (combine to_index texts) embeddings) 0
  end.
End Build.

End SchemaIndex.

(* ------------------------------------------------------------------------ *)
(** ** rag/query_examples_index.py *)

Module QueryExamplesIndex.
Import Agent.

Definition QUERY_EXAMPLES_COLLECTION : string := "query_examples".

(** [ex.get(k)]: only a dict has [get]. *)
Definition ex_get (ex : pyval) (k : string) : Res pyval :=
  match ex with
  | PDict d => Return (dict_get d k)
  | _ => Raise (mkExn (OtherException "AttributeError")
                  ("'" ++ type_name ex ++ "' object has no attribute 'get'"))
  end.

(** [ex.get(k1) or ex.get(k2) or ... or ""]: the keys after the first value
    that counts as true are not looked up. *)
Fixpoint first_of (ex : pyval) (keys : list string) : Res pyval :=
  match keys with
  | [] => Return (PStr EmptyString)
  | k :: rest =>
      match ex_get ex k with
      | Return v => if truthy v then Return v else first_of ex rest
      | Raise e => Raise e
      end
  end.

(** [v[:n]]: a str and a list are cut; a dict takes the slice for a key,
    which cannot be hashed (as the interpreters before 3.12 have it); the
    other values have no subscript. *)
Definition slice_to (n : nat) (v : pyval) : Res pyval :=
  match v with
  | PStr s => Return (PStr (str_slice n s))
  | PList l => Return (PList (firstn n l))
  | PDict _ => Raise (mkExn (OtherException "TypeError")
                        "unhashable type: 'slice'")
  | _ => Raise (mkExn (OtherException "TypeError")
                  ("'" ++ type_name v ++ "' object is not subscriptable"))
  end.

(** The built-in examples. *)
Definition load_default_examples : list pyval :=
[ PDict
    [("natural_language", PStr "List all collections in the database");
     ("query", PStr "list_collections");
     ("tool", PStr "list_collections")];
  PDict
    [("natural_language", PStr "What collections exist?");
     ("query", PStr "list_collections");
     ("tool", PStr "list_collections")];
  PDict
    [("natural_language", PStr "Show me the schema of the users collection");
     ("query", PStr "get_collection_schema(collection_name='users')");
     ("tool", PStr "get_collection_schema")];
  PDict
    [("natural_language", PStr "Find all documents in users where status is active");
     ("query",
      PStr ("execute_find(collection_name=" ++ dq ++ "users" ++ dq
            ++ ", filter_json='{" ++ dq ++ "status" ++ dq ++ ": " ++ dq
            ++ "active" ++ dq ++ "}')"));
     ("tool", PStr "execute_find")];
  PDict
    [("natural_language", PStr "List all users");
     ("query",
      PStr ("execute_find(collection_name=" ++ dq ++ "users" ++ dq
            ++ ", filter_json=" ++ dq ++ "{}" ++ dq ++ ")"));
     ("tool", PStr "execute_find")];
  PDict
    [("natural_language", PStr "Join orders with users and show user name and order total");
     ("query",
      PStr ("execute_aggregation(collection_name=" ++ dq ++ "orders" ++ dq
            ++ ", pipeline_json='[{" ++ dq ++ "$lookup" ++ dq ++ ": {" ++ dq
            ++ "from" ++ dq ++ ": " ++ dq ++ "users" ++ dq ++ ", " ++ dq
            ++ "localField" ++ dq ++ ": " ++ dq ++ "userId" ++ dq ++ ", " ++ dq
            ++ "foreignField" ++ dq ++ ": " ++ dq ++ "_id" ++ dq ++ ", " ++ dq
            ++ "as" ++ dq ++ ": " ++ dq ++ "user" ++ dq ++ "}}, {" ++ dq
            ++ "$unwind" ++ dq ++ ": " ++ dq ++ "$user" ++ dq ++ "}, {" ++ dq
            ++ "$project" ++ dq ++ ": {" ++ dq ++ "user.name" ++ dq ++ ": 1, "
            ++ dq ++ "total" ++ dq ++ ": 1, " ++ dq ++ "_id" ++ dq ++ ": 0}}]'"));
     ("tool", PStr "execute_aggregation")];
  PDict
    [("natural_language", PStr "How many orders per customer?");
     ("query",
      PStr ("execute_aggregation(collection_name=" ++ dq ++ "orders" ++ dq
            ++ ", pipeline_json='[{" ++ dq ++ "$group" ++ dq ++ ": {" ++ dq
            ++ "_id" ++ dq ++ ": " ++ dq ++ "$userId" ++ dq ++ ", " ++ dq
            ++ "count" ++ dq ++ ": {" ++ dq ++ "$sum" ++ dq ++ ": 1}}}, {" ++ dq
            ++ "$sort" ++ dq ++ ": {" ++ dq ++ "count" ++ dq ++ ": -1}}]'"));
     ("tool", PStr "execute_aggregation")];
  PDict
    [("natural_language", PStr "Count documents in users collection");
     ("query",
      PStr ("execute_aggregation(collection_name=" ++ dq ++ "users" ++ dq
            ++ ", pipeline_json='[{" ++ dq ++ "$count" ++ dq ++ ": " ++ dq
            ++ "total" ++ dq ++ "}]'"));
     ("tool", PStr "execute_aggregation")] ].

Section Build.
Variable W : Type.
Variable E : IndexEnv W.

Definition str_of (v : pyval) : string :=
  Retrieval.py_str (Retrieval.container_str (ix_rag E)) v.

Definition _example_to_text (ex : pyval) : Res string :=
  match first_of ex ["natural_language"; "question"] with
  | Raise e => Raise e
  | Return nl_ =>
      match first_of ex ["query"; "pipeline"; "example_query"] with
      | Raise e => Raise e
      | Return q =>
          match (match q with
                 | PList _ | PDict _ =>
                     match dumps_compact E q with
                     | Return s => Return (str_take 500 s)
                     | Raise e => Raise e
                     end
                 | _ => Return (str_of q)
                 end) with
          | Raise e => Raise e
          | Return q_text =>
              Return ("Question: " ++ str_of nl_ ++ ". Query: " ++ q_text)
          end
      end
  end.

(** [f"{nl[:80]}_{str(q)[:50]}"] *)
Definition rag_id (ex : pyval) : Res string :=
  match first_of ex ["natural_language"; "question"] with
  | Raise e => Raise e
  | Return nl_ =>
      match first_of ex ["query"; "example_query"] with
      | Raise e => Raise e
      | Return q =>
          match slice_to 80 nl_ with
          | Raise e => Raise e
          | Return head => Return (str_of head ++ "_" ++ str_slice 50 (str_of q))
          end
      end
  end.

(** The dict display of lines 100 to 104: a later key replaces the value of
    an earlier one and keeps its place. *)
Definition example_doc (sid : string) (fields : document) (emb : list float)
  : document :=
  Json.dict_set
    (fold_left (fun d kv => Json.dict_set d (fst kv) (snd kv))
       (filter (fun kv => negb (String.eqb (fst kv) "embedding")) fields)
       [("_rag_id", PStr sid)])
    "embedding" (PList (map PFloat emb)).

(** [ex.items()] *)
Definition ex_items (ex : pyval) : Res document :=
  match ex with
  | PDict d => Return d
  | _ => Raise (mkExn (OtherException "AttributeError")
                  ("'" ++ type_name ex ++ "' object has no attribute 'items'"))
  end.

(** The loop over [zip(examples, embeddings)]. *)
Fixpoint write_examples (db : Database W) (rows : list (pyval * list float))
    (written : nat) : M W nat :=
  match rows with
  | [] => ret written
  | (ex, emb) :: rest =>
      match emb with
      | [] => write_examples db rest written
      | _ =>
          sid <- lift (rag_id ex) ;;
          fields <- lift (ex_items ex) ;;
          _ <- update_one E db QUERY_EXAMPLES_COLLECTION
                 [("_rag_id", PStr sid)] (example_doc sid fields emb) ;;
          write_examples db rest (S written)
      end
  end.

(** [[_example_to_text(ex) for ex in examples]] *)
Fixpoint example_texts (examples : list pyval) : Res (list string) :=
  match examples with
  | [] => Return []
  | ex :: rest =>
      match _example_to_text ex with
      | Raise e => Raise e
      | Return t =>
          match example_texts rest with
          | Raise e => Raise e
          | Return ts => Return (t :: ts)
          end
      end
  end.

Definition build_query_examples_index (examples : option (list pyval))
    (examples_file : option string) : M W nat :=
  let examples := match examples with
                  | None => load_default_examples
                  | Some exs => exs
                  end in
  examples <-
    (match examples_file with
     | Some path =>
         if str_truthy path
         then
           there <- isfile E path ;;
           if (there : bool)
           then
             file_examples <- json_load_file E path ;;
             ret (match file_examples with
                  | PList more => app examples more
                  | _ => examples
                  end)
           else ret examples
         else ret examples
     | None => ret examples
     end) ;;
  match examples with
  | [] => ret 0
  | _ =>
      texts <- lift (example_texts examples) ;;
      embeddings <- Embeddings.get_embeddings (Retrieval.voyage (ix_rag E)) texts ;;
      db <- Retrieval.get_database (ix_rag E) ;;
      write_examples db (combine examples embeddings) 0
  end.
End Build.

End QueryExamplesIndex.

(* ------------------------------------------------------------------------ *)
(** ** app.py *)

Module App.
Import Agent.

(** Lines 48 to 50: the text of a tool result as the trace shows it. *)
Definition shown_tool_content (content : string) : string :=
  if Nat.ltb 2000 (str_len content)
  then str_slice 2000 content ++ nl ++ "... (truncated)"
  else content.

(** What the page shows after the script has run. *)
Inductive page : Type :=
| Idle
| Warning (text : string)
| Failure (text : string)
| Result (answer : option content) (messages : list BaseMessage).

Section Page.
Variable W : Type.
Variable E : Agent.Env W.

(** Lines 23 to 55, with [run] the state of the button and [prompt] the
    text of the box: [st.error] and [st.stop] end the script on an exception
    of [run_agent]; the answer is shown when [final_text] counts as true. *)
Definition on_run (run : bool) (prompt : string) : M W page :=
  if run && str_truthy (strip prompt)
  then
    try_except
      (r <- run_agent E (strip prompt) ;;
       let final_text := fst r in
       ret (Result (if content_truthy final_text then Some final_text else None)
              (snd r)))
      (fun e => ret (Failure (exn_str e)))
  else if run && negb (str_truthy (strip prompt))
  then ret (Warning "Please enter a question.")
  else ret Idle.
End Page.

End App.

(* ------------------------------------------------------------------------ *)
(** ** A concrete world for the index builders *)

Module SampleIndex.
Import Agent.

Inductive call : Type :=
| Connect
| ListNames
| Find (name : string) (limit : Z)
| Aggregate (name : string)
| Embed (texts : list string)
| Update (name : string) (filter doc : document)
| IsFile (path : string)
| LoadFile (path : string).

Definition World : Type := list call.

Definition logged {A} (c : call) (r : Res A) : M World A :=
  fun w => (r, app w [c]).

(** Two sampled documents that share fields. *)
Definition orders : list document :=
  [ [("_id", PObjectId "65f1a0c2e4b0a1b2c3d4e5a1");
     ("total", PInt 12);
     ("customer", PDict [("name", PStr "Ada"); ("city", PStr "London")])];
    [("_id", PObjectId "65f1a0c2e4b0a1b2c3d4e5a2");
     ("total", PStr "n/a");
     ("items", PList [PDict [("sku", PStr "A1")]])] ].

Definition collections : list (string * list document) :=
  [("orders", orders); ("system.views", []); ("schema_metadata", []);
   ("audit", []); ("query_examples", [])].

Definition db : Database World :=
  mkDatabase
    (logged ListNames (Return (map fst collections)))
    (fun name filter projection limit =>
       logged (Find name limit)
         (Return (Sample.limited limit (Sample.lookup name collections))))
    (fun name pipeline => logged (Aggregate name) (Return [])).

(** A database that holds only what the index builders leave aside. *)
Definition db_own : Database World :=
  mkDatabase
    (logged ListNames
       (Return ["schema_metadata"; "query_examples"; "system.indexes";
                "system.views"]))
    (fun name filter projection limit => logged (Find name limit) (Return []))
    (fun name pipeline => logged (Aggregate name) (Return [])).

Definition voyage : Voyage World :=
  mkVoyage "pa-sample-key"
    (fun texts => logged (Embed texts)
                    (Return (map (fun _ => Sample.unit_vector) texts))).

Definition voyage_no_key : Voyage World :=
  mkVoyage EmptyString
    (fun texts => logged (Embed texts)
                    (Raise (mkExn (OtherException "AuthenticationError")
                              "No API key provided."))).

(** The compact printer, on what the examples hold. *)
Fixpoint dumps_flat (v : pyval) : Res string :=
  match v with
  | PNone => Return "null"
  | PBool true => Return "true"
  | PBool false => Return "false"
  | PInt z => Return (Retrieval.str_int z)
  | PStr s => Return (Sample.json_string s)
  | PFloat _ => Raise Sample.float_not_covered
  | PObjectId _ | POther _ _ =>
      Raise (mkExn (OtherException "TypeError")
               ("Object of type " ++ type_name v ++ " is not JSON serializable"))
  | PList l =>
      match (fix items (l : list pyval) : Res (list string) :=
               match l with
               | [] => Return []
               | x :: l' =>
                   match dumps_flat x, items l' with
                   | Return sx, Return sl => Return (sx :: sl)
                   | Raise e, _ => Raise e
                   | _, Raise e => Raise e
                   end
               end) l with
      | Return items => Return ("[" ++ join ", " items ++ "]")
      | Raise e => Raise e
      end
  | PDict d =>
      match (fix items (d : document) : Res (list string) :=
               match d with
               | [] => Return []
               | kv :: d' =>
                   match dumps_flat (snd kv), items d' with
                   | Return sv, Return sd =>
                       Return ((Sample.json_string (fst kv) ++ ": " ++ sv) :: sd)
                   | Raise e, _ => Raise e
                   | _, Raise e => Raise e
                   end
               end) d with
      | Return items => Return ("{" ++ join ", " items ++ "}")
      | Raise e => Raise e
      end
  end.

Definition sample_str (v : pyval) : string :=
  match dumps_flat v with Return s => s | Raise _ => "?" end.

Definition rag (d : Database World) (v : Voyage World) : Retrieval.Env World :=
  Retrieval.mkEnv (logged Connect (Return d)) v sample_str.

Definition index_env (d : Database World) (v : Voyage World) : IndexEnv World :=
  mkIndexEnv (rag d v)
    (fun _ name filter doc => logged (Update name filter doc) (Return tt))
    dumps_flat
    (fun path => logged (IsFile path) (Return false))
    (fun path => logged (LoadFile path) (Return (PList []))).

Definition env : IndexEnv World := index_env db voyage.
Definition env_no_key : IndexEnv World := index_env db voyage_no_key.
Definition env_own : IndexEnv World := index_env db_own voyage.

(** Two examples that keep their query under ["pipeline"], and one that
    carries an id and a vector of its own. *)
Definition count_orders : pyval :=
  PDict [("natural_language", PStr "Count the orders");
         ("pipeline", PList [PDict [("$count", PStr "n")]])].

Definition count_orders_by_day : pyval :=
  PDict [("natural_language", PStr "Count the orders");
         ("pipeline", PList [PDict [("$group", PDict [("_id", PStr "$day")])]])].

Definition carried : document :=
  [("natural_language", PStr "List all users");
   ("query", PStr "execute_find");
   ("_rag_id", PStr "mine");
   ("embedding", PStr "old")].

(** The letter e with an acute accent (U+00E9): one character, two bytes. *)
Definition e_acute : string :=
  String (ascii_of_nat 195) (String (ascii_of_nat 169) EmptyString).

(** An example with a question of 81 characters and a query of 60. *)
Definition long_example : document :=
  [("question", PStr (str_repeat e_acute 81));
   ("example_query",
    PStr "execute_find(collection_name='users', filter_json='{}') all");
   ("pipeline", PList [PDict [("$count", PStr "n")]])].

(** Search hits of the examples index. *)
Definition example_hits : list document :=
  [ [("natural_language", PStr "List all users"); ("query", PStr "execute_find")];
    [("question", PStr "What collections exist?")];
    [("tool", PStr "list_collections")] ].

Definition db_examples : Database World :=
  mkDatabase
    (logged ListNames (Return ["query_examples"]))
    (fun name filter projection limit => logged (Find name limit) (Return []))
    (fun name pipeline => logged (Aggregate name) (Return example_hits)).

End SampleIndex.

(* ======================================================================== *)
(** * Properties *)

(** ** Running a computation *)

Lemma bind_Return W A B (m : M W A) (k : A -> M W B) w a w' :
  m w = (Return a, w') -> bind m k w = k a w'.
Proof. intros H. unfold bind. rewrite H. reflexivity. Qed.

Lemma bind_Raise W A B (m : M W A) (k : A -> M W B) w e w' :
  m w = (Raise e, w') -> bind m k w = (Raise e, w').
Proof. intros H. unfold bind. rewrite H. reflexivity. Qed.

Lemma try_except_Return W A (m : M W A) h w a w' :
  m w = (Return a, w') -> try_except m h w = (Return a, w').
Proof. intros H. unfold try_except. rewrite H. reflexivity. Qed.

Lemma try_except_Raise W A (m : M W A) h w e w' :
  m w = (Raise e, w') -> try_except m h w = h e w'.
Proof. intros H. unfold try_except. rewrite H. reflexivity. Qed.

(** A [try] whose handlers all return cannot raise. *)
Lemma try_except_returns W A (m : M W A) (h : exn -> M W A) w :
  (forall e w', returns (h e) w') -> returns (try_except m h) w.
Proof.
  intros Hh. unfold returns, try_except.
  destruct (m w) as [[a | e] w'].
  - now exists a, w'.
  - apply Hh.
Qed.

Lemma ret_returns W A (a : A) (w : W) : returns (ret a) w.
Proof. now exists a, w. Qed.

(* ------------------------------------------------------------------------ *)
(** ** The sample decoder on a few texts *)

Example loads_bad_filter :
  Json.loads Sample.bad_filter
  = Raise (mkExn JSONDecodeError "Expecting value: line 1 column 12 (char 11)").
Proof. reflexivity. Qed.

Example loads_limit_pipeline :
  Json.loads Sample.limit_pipeline
  = Return (PList [PDict [("$match", PDict [])]; PDict [("$limit", PInt 1)]]).
Proof. reflexivity. Qed.

Example loads_trailing_comma :
  Json.loads "[1,]"
  = Raise (mkExn JSONDecodeError "Expecting value: line 1 column 4 (char 3)").
Proof. reflexivity. Qed.

Example loads_extra_data :
  Json.loads "12 13"
  = Raise (mkExn JSONDecodeError "Extra data: line 1 column 4 (char 3)").
Proof. reflexivity. Qed.

(* ------------------------------------------------------------------------ *)
(** ** [_serialize] *)

Module SerializeSpec.
Import QueryTools.

(** The values [_serialize] does not look into. *)
Definition is_leaf (v : pyval) : bool :=
  match v with
  | PObjectId _ | PList _ | PDict _ => false
  | _ => true
  end.

(** The conversion as the specification words it: an identifier becomes its
    string, a mapping keeps its keys in their order and a sequence its
    length, with the conversion applied to each member, and anything else
    stays as it is. *)
#[local] Unset Elimination Schemes.
Inductive stringified : pyval -> pyval -> Prop :=
| st_ObjectId : forall hex, stringified (PObjectId hex) (PStr hex)
| st_dict : forall d d',
    Forall2 (fun kv kv' => fst kv = fst kv' /\ stringified (snd kv) (snd kv'))
      d d' ->
    stringified (PDict d) (PDict d')
| st_list : forall l l',
    Forall2 stringified l l' -> stringified (PList l) (PList l')
| st_leaf : forall v, is_leaf v = true -> stringified v v.
#[local] Set Elimination Schemes.

(** Does an ObjectId occur anywhere in the value? *)
Fixpoint has_ObjectId (v : pyval) : bool :=
  match v with
  | PObjectId _ => true
  | PList l => existsb has_ObjectId l
  | PDict d => existsb (fun kv => has_ObjectId (snd kv)) d
  | _ => false
  end.

Lemma serialize_stringified v : stringified v (_serialize v).
Proof.
  induction v using pyval_ind; simpl; try (apply st_leaf; reflexivity).
  - apply st_ObjectId.
  - apply st_list. induction H; simpl; constructor; auto.
  - apply st_dict. induction H; simpl; constructor; auto.
Qed.

Lemma serialize_no_ObjectId v : has_ObjectId (_serialize v) = false.
Proof.
  induction v using pyval_ind; simpl; try reflexivity.
  - induction H; simpl; [reflexivity|]. rewrite H. simpl. assumption.
  - induction H; simpl; [reflexivity|]. rewrite H. simpl. assumption.
Qed.

Lemma serialize_fixes_ObjectId_free v :
  has_ObjectId v = false -> _serialize v = v.
Proof.
  induction v using pyval_ind; simpl; intros Hv; try reflexivity.
  - discriminate.
  - f_equal. induction H; simpl in *; [reflexivity|].
    apply orb_false_iff in Hv as [Hx Hl]. f_equal; auto.
  - f_equal. induction H; simpl in *; [reflexivity|].
    apply orb_false_iff in Hv as [Hx Hl]. f_equal; auto.
    destruct x as [k v]; simpl in *. f_equal; auto.
Qed.

Lemma serialize_dict_keys d :
  exists d', _serialize (PDict d) = PDict d' /\ dict_keys d' = dict_keys d
             /\ forall k, dict_get d' k = _serialize (dict_get d k).
Proof.
  eexists; split; [reflexivity|]. split.
  - unfold dict_keys. rewrite map_map. reflexivity.
  - intros k. induction d as [|[k' v] d IH]; simpl; [reflexivity|].
    destruct (String.eqb k' k); auto.
Qed.

Lemma serialize_list_items l :
  exists l', _serialize (PList l) = PList l' /\ length l' = length l
             /\ forall i, nth i l' PNone = _serialize (nth i l PNone).
Proof.
  eexists; split; [reflexivity|]. split.
  - apply length_map.
  - intros i. change PNone with (_serialize PNone) at 1. apply map_nth.
Qed.

End SerializeSpec.

(* ------------------------------------------------------------------------ *)
(** ** The query tools *)

Module QueryToolsSpec.
Import QueryTools SerializeSpec.

Definition is_dict (v : pyval) : bool :=
  match v with PDict _ => true | _ => false end.

(** A stage object that sets no limit: [s.get("$limit")] is [None]. *)
Definition no_limit (s : pyval) : Prop :=
  exists d, s = PDict d /\ dict_get d "$limit" = PNone.

(** A stage object whose ["$limit"] is not [None]. *)
Definition sets_limit (s : pyval) : Prop :=
  exists d, s = PDict d /\ dict_get d "$limit" <> PNone.

Lemma has_limit_none stages :
  Forall no_limit stages -> has_limit stages = Return false.
Proof.
  induction 1 as [|s rest (d & -> & Hd) _ IH]; simpl; [reflexivity|].
  rewrite Hd. simpl. exact IH.
Qed.

Lemma has_limit_some before s after :
  Forall no_limit before -> sets_limit s ->
  has_limit (before ++ s :: after) = Return true.
Proof.
  intros Hb (d & -> & Hd).
  induction Hb as [|s0 rest (d0 & -> & Hd0) _ IH]; simpl.
  - destruct (dict_get d "$limit"); try reflexivity. now elim Hd.
  - rewrite Hd0. simpl. exact IH.
Qed.

Lemma with_limit_appends stages limit_results :
  Forall no_limit stages -> limit_results <> 0%Z ->
  with_limit stages limit_results
  = Return (stages ++ [limit_stage limit_results])%list.
Proof.
  intros Hs Hl. unfold with_limit. rewrite (has_limit_none Hs). simpl.
  apply Z.eqb_neq in Hl. rewrite Hl. reflexivity.
Qed.

Lemma with_limit_zero stages :
  Forall no_limit stages -> with_limit stages 0 = Return stages.
Proof.
  intros Hs. unfold with_limit. rewrite (has_limit_none Hs). reflexivity.
Qed.

Lemma with_limit_untouched before s after limit_results :
  Forall no_limit before -> sets_limit s ->
  with_limit (before ++ s :: after) limit_results
  = Return (before ++ s :: after)%list.
Proof.
  intros Hb Hs. unfold with_limit. rewrite (has_limit_some after Hb Hs).
  reflexivity.
Qed.

Section Tools.
Variable W : Type.
Variable B : Builtins.
Variable db : Database W.

Lemma find_handler_returns e w : returns (find_handler (W := W) e) w.
Proof. unfold find_handler. destruct (is_JSONDecodeError e); apply ret_returns. Qed.

Lemma aggregation_handler_returns e w :
  returns (aggregation_handler (W := W) e) w.
Proof.
  unfold aggregation_handler.
  destruct (is_JSONDecodeError e); apply ret_returns.
Qed.

Lemma execute_find_returns c f p n w : returns (execute_find B db c f p n) w.
Proof. apply try_except_returns, find_handler_returns. Qed.

Lemma execute_aggregation_returns c p n w :
  returns (execute_aggregation B db c p n) w.
Proof. apply try_except_returns, aggregation_handler_returns. Qed.

(** A filter that does not decode: the parse error comes back as text and
    the database is not called. *)
Lemma execute_find_bad_filter c f p n w e :
  str_truthy (strip f) = true -> json_loads B f = Raise e ->
  is_JSONDecodeError e = true ->
  execute_find B db c f p n w
  = (Return ("Invalid JSON in filter or projection: " ++ exn_str e), w).
Proof.
  intros Hf He Hc. unfold execute_find, try_except, bind, lift, loads_or_empty.
  rewrite Hf, He. unfold find_handler. rewrite Hc. reflexivity.
Qed.

(** Once filter and projection are decoded and the driver has answered,
    what is printed is the serialized list of documents. *)
Lemma execute_find_dumps_serialized c f p n w filt proj docs w' :
  loads_or_empty B f = Return filt -> loads_or_empty B p = Return proj ->
  coll_find db c (Some filt) (if truthy proj then Some proj else None) n w
  = (Return docs, w') ->
  execute_find B db c f p n w
  = try_except (lift (json_dumps B (_serialize (PList (map PDict docs)))))
      (find_handler (W := W)) w'.
Proof.
  intros Hf Hp Hd. unfold execute_find, try_except, bind, lift.
  rewrite Hf, Hp, Hd. reflexivity.
Qed.

(** The same for the pipeline tool, from the pipeline handed to the driver. *)
Lemma execute_aggregation_runs c pj n w stages pipeline :
  json_loads B pj = Return (PList stages) ->
  with_limit stages n = Return pipeline ->
  execute_aggregation B db c pj n w
  = try_except (aggregate_and_dump B db c pipeline)
      (aggregation_handler (W := W)) w.
Proof.
  intros Hj Hl. unfold execute_aggregation, try_except, bind, lift.
  rewrite Hj, Hl. reflexivity.
Qed.

Lemma execute_aggregation_dumps_serialized c pj n w stages pipeline docs w' :
  json_loads B pj = Return (PList stages) ->
  with_limit stages n = Return pipeline ->
  coll_aggregate db c pipeline w = (Return docs, w') ->
  execute_aggregation B db c pj n w
  = try_except (lift (json_dumps B (_serialize (PList (map PDict docs)))))
      (aggregation_handler (W := W)) w'.
Proof.
  intros Hj Hl Hd.
  rewrite execute_aggregation_runs with (stages := stages)
    (pipeline := pipeline) by assumption.
  unfold aggregate_and_dump, try_except, bind, lift. rewrite Hd. reflexivity.
Qed.

(** A decoded value that is not a list is turned away before any call. *)
Lemma execute_aggregation_not_a_list c pj n w v :
  json_loads B pj = Return v -> (forall stages, v <> PList stages) ->
  execute_aggregation B db c pj n w
  = (Return "pipeline_json must be a JSON array of stages.", w).
Proof.
  intros Hj Hv. unfold execute_aggregation, try_except, bind, lift.
  rewrite Hj. destruct v; try reflexivity. now elim (Hv l).
Qed.
End Tools.

End QueryToolsSpec.

(* ------------------------------------------------------------------------ *)
(** ** The schema tools *)

Module SchemaToolsSpec.
Import SchemaTools.

Section Shape.
Variable B : Builtins.

(** The text block as the specification lays it out: a head, then for
    each sampled document its title, one line per field (name and type
    label) and an empty line. *)
Definition field_line (kv : string * pyval) : string :=
  "  " ++ fst kv ++ ": " ++ type_label B (snd kv).

Definition document_block (i : nat) (doc : document) : list string :=
  (("--- Document " ++ str_nat (i + 1) ++ " ---") :: map field_line doc)
    ++ [EmptyString].

Fixpoint document_blocks (i : nat) (docs : list document) : list string :=
  match docs with
  | [] => []
  | doc :: rest => document_block i doc ++ document_blocks (S i) rest
  end.

Definition schema_lines (collection_name : string) (docs : list document)
  : list string :=
  ["Collection: " ++ collection_name;
   "Sample size: " ++ str_nat (length docs);
   EmptyString] ++ document_blocks 0 docs.

Lemma append_fields_lines lines doc :
  append_fields B lines doc = (lines ++ map field_line doc)%list.
Proof.
  unfold append_fields. revert lines.
  induction doc as [|kv doc IH]; intros lines; simpl.
  - now rewrite app_nil_r.
  - rewrite IH, <- app_assoc. reflexivity.
Qed.

Lemma append_docs_blocks docs : forall lines i,
  append_docs B lines i docs = (lines ++ document_blocks i docs)%list.
Proof.
  induction docs as [|doc rest IH]; intros lines i; simpl.
  - now rewrite app_nil_r.
  - rewrite IH, append_fields_lines. unfold document_block.
    simpl. rewrite <- !app_assoc. reflexivity.
Qed.

(** Every document contributes its title, its fields and the empty line. *)
Lemma document_blocks_length docs : forall i,
  length (document_blocks i docs)
  = list_sum (map (fun doc => 2 + length doc) docs).
Proof.
  induction docs as [|doc rest IH]; intros i; simpl; [reflexivity|].
  rewrite length_app, IH. unfold document_block.
  simpl. rewrite length_app, length_map. simpl. lia.
Qed.

Lemma type_label_dict d :
  type_label B (PDict d)
  = "dict (keys: " ++ repr_keys B (firstn 8 (dict_keys d)) ++ ")".
Proof. reflexivity. Qed.

Lemma type_label_list_of_dicts d0 rest :
  type_label B (PList (PDict d0 :: rest))
  = "list (list of dicts, first keys: "
      ++ repr_keys B (firstn 5 (dict_keys d0)) ++ ")".
Proof. reflexivity. Qed.

(** Any other value is labelled with the bare name of its type. *)
Definition plain (v : pyval) : bool :=
  match v with
  | PDict _ => false
  | PList (PDict _ :: _) => false
  | _ => true
  end.

Lemma type_label_plain v : plain v = true -> type_label B v = type_name v.
Proof.
  destruct v as [| | | | | |l|d|]; simpl; intros H; try reflexivity;
    try discriminate.
  destruct l as [|x l]; [reflexivity|]. destruct x; try reflexivity.
  discriminate.
Qed.

Lemma preview_keys_prefix n (d : document) :
  length (firstn n (dict_keys d)) <= n
  /\ exists others, dict_keys d = (firstn n (dict_keys d) ++ others)%list.
Proof.
  split.
  - apply firstn_le_length.
  - exists (skipn n (dict_keys d)). symmetry. apply firstn_skipn.
Qed.
End Shape.

Section Tools.
Variable W : Type.
Variable B : Builtins.
Variable db : Database W.

Lemma list_collections_returns w : returns (list_collections db) w.
Proof. apply try_except_returns. intros e w'. apply ret_returns. Qed.

Lemma get_collection_schema_returns c n w :
  returns (get_collection_schema B db c n) w.
Proof. apply try_except_returns. intros e w'. apply ret_returns. Qed.

Lemma get_collection_schema_sampled c n w docs w' :
  coll_find db c None None n w = (Return docs, w') -> docs <> [] ->
  get_collection_schema B db c n w
  = (Return (join nl (schema_lines B c docs)), w').
Proof.
  intros Hd Hne. unfold get_collection_schema, try_except, bind, ret.
  rewrite Hd. destruct docs as [|doc rest]; [now elim Hne|].
  rewrite append_docs_blocks. reflexivity.
Qed.

Lemma get_collection_schema_empty c n w w' :
  coll_find db c None None n w = (Return [], w') ->
  get_collection_schema B db c n w
  = (Return ("Collection '" ++ c ++ "' is empty or does not exist."), w').
Proof.
  intros Hd. unfold get_collection_schema, try_except, bind, ret.
  rewrite Hd. reflexivity.
Qed.

Lemma get_collection_schema_failed c n w e w' :
  coll_find db c None None n w = (Raise e, w') ->
  get_collection_schema B db c n w
  = (Return ("Error getting schema for '" ++ c ++ "': " ++ exn_str e), w').
Proof.
  intros Hd. unfold get_collection_schema, try_except, bind, ret.
  rewrite Hd. reflexivity.
Qed.
End Tools.

End SchemaToolsSpec.

(* ------------------------------------------------------------------------ *)
(** ** Embeddings *)

Module EmbeddingsSpec.
Import Embeddings.

Lemma empty_vectors_length texts : length (empty_vectors texts) = length texts.
Proof. apply repeat_length. Qed.

Lemma empty_vectors_empty texts : Forall (fun v => v = []) (empty_vectors texts).
Proof.
  unfold empty_vectors. induction (length texts); simpl; constructor; auto.
Qed.

Section Embed.
Variable W : Type.
Variable V : Voyage W.

Lemma get_embedding_returns text w : returns (get_embedding V text) w.
Proof.
  unfold get_embedding.
  destruct (negb (str_truthy text) || negb (str_truthy (VOYAGE_API_KEY V))).
  - apply ret_returns.
  - unfold returns, bind, try_except, ret.
    destruct (vo_embed V [text] w) as [[embeddings | e] w'];
      [destruct embeddings|]; eauto.
Qed.

Lemma get_embedding_no_key text w :
  VOYAGE_API_KEY V = EmptyString -> get_embedding V text w = (Return [], w).
Proof.
  intros Hk. unfold get_embedding. rewrite Hk. simpl.
  rewrite orb_true_r. reflexivity.
Qed.

Lemma get_embedding_no_text w : get_embedding V EmptyString w = (Return [], w).
Proof. reflexivity. Qed.

Lemma get_embedding_service_error text w e w' :
  vo_embed V [text] w = (Raise e, w') ->
  exists w'', get_embedding V text w = (Return [], w'').
Proof.
  intros He. unfold get_embedding.
  destruct (negb (str_truthy text) || negb (str_truthy (VOYAGE_API_KEY V))).
  - now exists w.
  - exists w'. unfold bind, try_except, ret. rewrite He. reflexivity.
Qed.

Lemma get_embeddings_returns texts w : returns (get_embeddings V texts) w.
Proof.
  unfold get_embeddings. destruct texts as [|t texts]; [apply ret_returns|].
  destruct (negb (str_truthy (VOYAGE_API_KEY V))); [apply ret_returns|].
  apply try_except_returns. intros e w'. apply ret_returns.
Qed.

Lemma get_embeddings_no_texts w : get_embeddings V [] w = (Return [], w).
Proof. reflexivity. Qed.

Lemma get_embeddings_no_key texts w :
  VOYAGE_API_KEY V = EmptyString ->
  get_embeddings V texts w = (Return (empty_vectors texts), w).
Proof.
  intros Hk. unfold get_embeddings. rewrite Hk.
  destruct texts; reflexivity.
Qed.

Lemma get_embeddings_service_error texts w e w' :
  vo_embed V texts w = (Raise e, w') ->
  exists w'', get_embeddings V texts w = (Return (empty_vectors texts), w'').
Proof.
  intros He. unfold get_embeddings. destruct texts as [|t texts].
  - now exists w.
  - destruct (negb (str_truthy (VOYAGE_API_KEY V))); [now exists w|].
    exists w'. unfold try_except, bind. rewrite He. reflexivity.
Qed.

(** The cases of [get_embeddings]: the vectors of the service when it
    gives some, and one empty vector per text in every other case. *)
Lemma get_embeddings_cases texts w :
  exists r w', get_embeddings V texts w = (Return r, w')
    /\ (r = empty_vectors texts
        \/ (r <> [] /\ str_truthy (VOYAGE_API_KEY V) = true
            /\ vo_embed V texts w = (Return r, w'))).
Proof.
  unfold get_embeddings. destruct texts as [|t texts].
  - exists [], w. split; [reflexivity|]. now left.
  - destruct (str_truthy (VOYAGE_API_KEY V)) eqn:Hk; simpl.
    + unfold try_except, bind, ret.
      destruct (vo_embed V (t :: texts) w) as [[embeddings | e] w'] eqn:He.
      * destruct embeddings as [|v vs].
        -- exists (empty_vectors (t :: texts)), w'. split; [reflexivity|now left].
        -- exists (v :: vs), w'. split; [reflexivity|]. right.
           split; [discriminate|]. split; reflexivity.
      * exists (empty_vectors (t :: texts)), w'. split; [reflexivity|now left].
    + exists (empty_vectors (t :: texts)), w. split; [reflexivity|now left].
Qed.
End Embed.

End EmbeddingsSpec.

(* ------------------------------------------------------------------------ *)
(** ** Retrieval *)

Module RetrievalSpec.
Import Retrieval.

(** A hit with nothing to show: neither ["text"] nor ["description"] holds a
    value that counts as true (missing, [None] and the empty string do not). *)
Definition blank (d : document) : Prop :=
  truthy (dict_get d "text") = false
  /\ truthy (dict_get d "description") = false.

Lemma append_inj_l (s a b : string) : s ++ a = s ++ b -> a = b.
Proof. induction s as [|c s IH]; simpl; intros H; [exact H|]. injection H. exact IH. Qed.

Section Retrieve.
Variable W : Type.
Variable E : Env W.

(** The text a hit shows, when it shows one. *)
Definition hit_text (d : document) : pyval :=
  py_or (py_or (dict_get d "text") (dict_get d "description")) (PStr EmptyString).

Definition hit_collection (d : document) : pyval :=
  py_or (py_or (dict_get d "collection_name") (dict_get d "collection"))
    (PStr EmptyString).

Definition bullet (d : document) : string :=
  "- [" ++ py_str (container_str E) (hit_collection d) ++ "] "
    ++ py_str (container_str E) (hit_text d).

Definition bullets (docs : list document) : list string :=
  flat_map (fun d => if truthy (hit_text d) then [bullet d] else []) docs.

Lemma blank_hit_text d : blank d -> truthy (hit_text d) = false.
Proof.
  intros [Ht Hd]. unfold hit_text, py_or. rewrite Ht, Hd. reflexivity.
Qed.

Lemma hit_text_blank d : truthy (hit_text d) = false -> blank d.
Proof.
  unfold hit_text, py_or, blank. intros H.
  destruct (truthy (dict_get d "text")) eqn:Ht.
  - rewrite Ht in H. congruence.
  - destruct (truthy (dict_get d "description")) eqn:Hd; [|auto].
    rewrite Hd in H. congruence.
Qed.

Lemma fold_append_hit docs : forall lines,
  fold_left (append_hit E) docs lines = (lines ++ bullets docs)%list.
Proof.
  induction docs as [|d docs IH]; intros lines; simpl.
  - now rewrite app_nil_r.
  - rewrite IH. unfold append_hit. fold (hit_text d) (hit_collection d).
    destruct (truthy (hit_text d)); simpl.
    + rewrite <- app_assoc. reflexivity.
    + reflexivity.
Qed.

Lemma bullets_blank docs : Forall blank docs -> bullets docs = [].
Proof.
  induction 1 as [|d docs Hd _ IH]; simpl; [reflexivity|].
  rewrite (blank_hit_text Hd). exact IH.
Qed.

Lemma format_hits_bullets docs :
  format_hits E docs
  = match bullets docs with
    | [] => EmptyString
    | bs => join nl (header :: EmptyString :: bs)
    end.
Proof.
  unfold format_hits. rewrite fold_append_hit. simpl.
  destruct (bullets docs); reflexivity.
Qed.

Lemma format_hits_blank docs : Forall blank docs -> format_hits E docs = EmptyString.
Proof. intros H. rewrite format_hits_bullets, (bullets_blank H). reflexivity. Qed.

(** The header never comes alone. *)
Lemma format_hits_not_header_only docs :
  format_hits E docs <> join nl [header; EmptyString].
Proof.
  rewrite format_hits_bullets. destruct (bullets docs) as [|b bs].
  - discriminate.
  - unfold join. generalize header. intros h H.
    cbn [String.concat] in H. apply append_inj_l in H.
    destruct bs; discriminate.
Qed.

Lemma vector_search_returns (db : Database W) c i q n (w : W) :
  returns (_vector_search db c i q n) w.
Proof.
  unfold _vector_search. destruct q; [apply ret_returns|].
  apply try_except_returns. intros e w'. apply ret_returns.
Qed.

(** No vector: the empty string, and the search is not run. *)
Lemma retrieve_no_vector q k w db w1 w2 :
  get_database E w = (Return db, w1) ->
  Embeddings.get_embedding (voyage E) q w1 = (Return [], w2) ->
  retrieve_schema_context E q k w = (Return EmptyString, w2).
Proof.
  intros Hdb Hq. unfold retrieve_schema_context, bind.
  rewrite Hdb, Hq. reflexivity.
Qed.

(** The call of [get_database] is made first and is not guarded. *)
Lemma retrieve_connect_raises q k w e w1 :
  get_database E w = (Raise e, w1) ->
  retrieve_schema_context E q k w = (Raise e, w1).
Proof. intros Hdb. unfold retrieve_schema_context, bind. rewrite Hdb. reflexivity. Qed.

(** Once the handle is there nothing raises any more. *)
Lemma retrieve_returns_connected q k w db w1 :
  get_database E w = (Return db, w1) ->
  returns (retrieve_schema_context E q k) w.
Proof.
  intros Hdb. unfold retrieve_schema_context, returns, bind. rewrite Hdb.
  destruct (EmbeddingsSpec.get_embedding_returns (voyage E) q w1)
    as (v & w2 & Hv).
  rewrite Hv. destruct v as [|x v]; [now eexists; eexists|].
  destruct (vector_search_returns db SCHEMA_RAG_COLLECTION
              SCHEMA_RAG_INDEX_NAME (x :: v) k w2) as (docs & w3 & Hs).
  rewrite Hs. destruct docs; now eexists; eexists.
Qed.

(** Hits without a text: the empty string, never the bare header. *)
Lemma retrieve_blank_hits q k w db w1 v w2 :
  get_database E w = (Return db, w1) ->
  Embeddings.get_embedding (voyage E) q w1 = (Return v, w2) ->
  (forall docs w3,
      coll_aggregate db SCHEMA_RAG_COLLECTION
        (vector_search_pipeline SCHEMA_RAG_INDEX_NAME v k) w2
      = (Return docs, w3) -> Forall blank docs) ->
  exists w', retrieve_schema_context E q k w = (Return EmptyString, w').
Proof.
  intros Hdb Hv Hdocs. unfold retrieve_schema_context, bind.
  rewrite Hdb, Hv. destruct v as [|x v]; [now eexists|].
  unfold _vector_search, try_except, ret.
  destruct (coll_aggregate db SCHEMA_RAG_COLLECTION
              (vector_search_pipeline SCHEMA_RAG_INDEX_NAME (x :: v) k) w2)
    as [[docs | e] w3] eqn:Hs.
  - specialize (Hdocs docs w3 eq_refl). destruct docs as [|d docs].
    + now eexists.
    + rewrite (format_hits_blank Hdocs). now eexists.
  - now eexists.
Qed.
End Retrieve.

End RetrievalSpec.

(* ------------------------------------------------------------------------ *)
(** ** The agent loop *)

Module AgentSpec.
Import Agent.

(** A model message that asks for no tool. *)
Definition terminal (m : BaseMessage) : bool :=
  match m with AIMessage _ [] => true | _ => false end.

Definition is_human (m : BaseMessage) : bool :=
  match m with HumanMessage _ => true | _ => false end.

(** The answer a terminal message gives: its content, or the fixed text
    when the content is empty. *)
Definition answer_of (c : content) : content :=
  if content_truthy c then c else CStr fallback.

(** *** The scan for the answer *)

Lemma scan_final_text_skip l r :
  Forall (fun m => terminal m = false) l ->
  scan_final_text (l ++ r) = scan_final_text r.
Proof.
  induction 1 as [|m l Hm _ IH]; simpl; [reflexivity|].
  destruct m as [c|c calls|c i n|c]; try exact IH.
  destruct calls; [discriminate|exact IH].
Qed.

Lemma final_text_found before c after :
  Forall (fun m => terminal m = false) after ->
  final_text (before ++ AIMessage c [] :: after) = answer_of c.
Proof.
  intros H. unfold final_text. rewrite rev_app_distr. simpl.
  rewrite <- app_assoc. rewrite scan_final_text_skip.
  - reflexivity.
  - apply Forall_rev. exact H.
Qed.

Lemma final_text_none messages :
  Forall (fun m => terminal m = false) messages ->
  final_text messages = CStr fallback.
Proof.
  intros H. unfold final_text.
  rewrite <- (app_nil_r (rev messages)), scan_final_text_skip.
  - reflexivity.
  - apply Forall_rev. exact H.
Qed.

(** Every transcript is of one of the two kinds. *)
Lemma last_terminal_split messages :
  Forall (fun m => terminal m = false) messages
  \/ exists before c after,
       messages = (before ++ AIMessage c [] :: after)%list
       /\ Forall (fun m => terminal m = false) after.
Proof.
  induction messages as [|m messages IH]; [left; constructor|].
  destruct IH as [IH | (before & c & after & -> & Hafter)].
  - destruct (terminal m) eqn:Hm.
    + right. destruct m as [?|c calls|? ? ?|?]; try discriminate.
      destruct calls; [|discriminate].
      exists [], c, messages. split; [reflexivity|exact IH].
    + left. constructor; assumption.
  - right. exists (m :: before), c, after. split; [reflexivity|exact Hafter].
Qed.

(** *** The user text the prompt is built from *)

Lemma first_user_text_skip str_blocks l r :
  Forall (fun m => is_human m = false) l ->
  first_user_text str_blocks (l ++ r) = first_user_text str_blocks r.
Proof.
  induction 1 as [|m l Hm _ IH]; simpl; [reflexivity|].
  destruct m; try exact IH. discriminate.
Qed.

(** A transcript that starts with the question [q] and holds no other user
    message. *)
Definition seeded (q : string) (messages : list BaseMessage) : Prop :=
  exists rest, messages = HumanMessage (CStr q) :: rest
               /\ Forall (fun m => is_human m = false) rest.

Lemma seeded_initial q : seeded q [HumanMessage (CStr q)].
Proof. exists []. split; [reflexivity|constructor]. Qed.

Lemma seeded_app q messages update :
  seeded q messages -> Forall (fun m => is_human m = false) update ->
  seeded q (add_messages messages update).
Proof.
  intros (rest & -> & Hrest) Hu. exists (rest ++ update)%list.
  split; [reflexivity|]. apply Forall_app. split; assumption.
Qed.

Section Graph.
Variable W : Type.
Variable E : Env W.

(** The template of line 50 has no replacement field: its braces are
    doubled.  Whatever text is bound to [system], the model is shown the
    system message "{system}". *)
Lemma prompt_invoke_placeholder system messages :
  prompt_invoke system messages
  = Return (SystemMessage (CStr "{system}") :: messages).
Proof. reflexivity. Qed.

Lemma chain_invoke_llm system messages :
  chain_invoke E system messages
  = llm_invoke E (SystemMessage (CStr "{system}") :: messages).
Proof.
  unfold chain_invoke. rewrite prompt_invoke_placeholder. reflexivity.
Qed.

Lemma last_user_text_seeded q messages :
  seeded q messages -> _get_last_user_text E messages = q.
Proof.
  intros (rest & -> & Hrest). unfold _get_last_user_text. simpl.
  rewrite first_user_text_skip by (apply Forall_rev; exact Hrest).
  simpl. unfold str_truthy. destruct (String.eqb q EmptyString) eqn:Hq; simpl.
  - apply String.eqb_eq in Hq. congruence.
  - reflexivity.
Qed.

(** [full_system] with the retrieval keyed on the text [q]. *)
Definition full_system_for (q : string) : M W string :=
  schema_ctx <- (if str_truthy q
                 then Retrieval.retrieve_schema_context (rag E) q 8
                 else ret EmptyString) ;;
  ret (if str_truthy schema_ctx
       then BASE_SYSTEM ++ (nl ++ nl ++ schema_ctx)
       else BASE_SYSTEM).

Lemma full_system_seeded q messages :
  seeded q messages -> full_system E messages = full_system_for q.
Proof.
  intros H. unfold full_system. rewrite (last_user_text_seeded H). reflexivity.
Qed.

(** The prompt when the retrieval gives the empty string. *)
Lemma full_system_no_context messages w w' :
  Retrieval.retrieve_schema_context (rag E)
    (_get_last_user_text E messages) 8 w = (Return EmptyString, w') ->
  exists w'', full_system E messages w = (Return BASE_SYSTEM, w'').
Proof.
  intros Hr. unfold full_system, bind.
  destruct (str_truthy (_get_last_user_text E messages)).
  - rewrite Hr. now eexists.
  - now eexists.
Qed.

(** *** Steps of the graph *)

Lemma run_tool_calls_tool_messages db calls : forall w update w',
  run_tool_calls E db calls w = (Return update, w') ->
  Forall (fun m => is_human m = false) update
  /\ length update = length calls.
Proof.
  induction calls as [|tc calls IH]; intros w update w' H; simpl in H.
  - injection H as <- _. split; [constructor|reflexivity].
  - unfold bind in H.
    destruct (invoke_tool E db tc w) as [[out | e] w1]; [|discriminate].
    destruct (run_tool_calls E db calls w1) as [[outs | e] w2] eqn:Hc;
      [|discriminate].
    injection H as <- _. destruct (IH _ _ _ Hc) as [Hf Hl].
    split; [constructor; [reflexivity|exact Hf]|simpl; congruence].
Qed.

Lemma superstep_seeded db q n messages w n' messages' w' :
  superstep E db n messages w = (Return (n', messages'), w') ->
  seeded q messages -> seeded q messages'.
Proof.
  intros H Hs. destruct n; simpl in H; unfold bind, lift, ret in H.
  - destruct (agent_node E messages w) as [[update | e] w1] eqn:Ha;
      [|discriminate].
    destruct (route_after_agent (add_messages messages update));
      [|discriminate].
    injection H as _ <- _. apply seeded_app; [exact Hs|].
    unfold agent_node, bind, ret in Ha.
    destruct (full_system E messages w) as [[sys | e] w2]; [|discriminate].
    destruct (chain_invoke E sys messages w2) as [[r | e] w3]; [|discriminate].
    injection Ha as <- _. constructor; [reflexivity|constructor].
  - destruct (tool_node E db messages w) as [[update | e] w1] eqn:Ht;
      [|discriminate].
    injection H as _ <- _. apply seeded_app; [exact Hs|].
    unfold tool_node in Ht. destruct (rev messages) as [|m ms];
      [discriminate|].
    destruct m; try discriminate.
    eapply run_tool_calls_tool_messages; eassumption.
  - injection H as _ <- _. exact Hs.
Qed.

(** The states a run goes through. *)
Inductive reaches (db : Database W)
  : node * list BaseMessage * W -> node * list BaseMessage * W -> Prop :=
| reaches_here : forall st, reaches db st st
| reaches_step : forall n messages w n' messages' w' st,
    superstep E db n messages w = (Return (n', messages'), w') ->
    reaches db (n', messages', w') st ->
    reaches db (n, messages, w) st.

Lemma reaches_seeded db q st st' :
  reaches db st st' -> seeded q (snd (fst st)) -> seeded q (snd (fst st')).
Proof.
  induction 1 as [|n messages w n' messages' w' st Hstep _ IH]; [auto|].
  simpl in *. intros Hs. apply IH. eapply superstep_seeded; eassumption.
Qed.

(** In every state of a run seeded with [q] the retrieval is asked for [q]. *)
Lemma retrieval_keyed_on_question db q w0 n messages w :
  reaches db (agent, [HumanMessage (CStr q)], w0) (n, messages, w) ->
  seeded q messages
  /\ _get_last_user_text E messages = q
  /\ full_system E messages = full_system_for q.
Proof.
  intros Hr.
  assert (Hs : seeded q messages).
  { apply (reaches_seeded (q := q) Hr). apply seeded_initial. }
  split; [exact Hs|].
  split; [apply last_user_text_seeded; exact Hs|].
  apply full_system_seeded; exact Hs.
Qed.

(** The equations of [stream]. *)
Lemma stream_END db budget messages :
  stream E db budget END messages = ret messages.
Proof. destruct budget; reflexivity. Qed.

Lemma stream_out_of_budget db n messages :
  n <> END ->
  stream E db 0 n messages = raise (recursion_error E).
Proof. destruct n; [reflexivity|reflexivity|congruence]. Qed.

Lemma stream_step db budget n messages :
  n <> END ->
  stream E db (S budget) n messages
  = (st <- superstep E db n messages ;;
     stream E db budget (fst st) (snd st)).
Proof. destruct n; [reflexivity|reflexivity|congruence]. Qed.

Lemma stream_reaches db budget : forall n messages w final w',
  stream E db budget n messages w = (Return final, w') ->
  reaches db (n, messages, w) (END, final, w').
Proof.
  induction budget as [|budget IH]; intros n messages w final w' H.
  - destruct n; try discriminate H.
    injection H as <- <-. apply reaches_here.
  - destruct n.
    + rewrite stream_step in H by discriminate. unfold bind in H.
      destruct (superstep E db agent messages w) as [[[n' m'] | e] w1] eqn:Hs;
        [|discriminate H].
      eapply reaches_step; [exact Hs|]. apply IH. exact H.
    + rewrite stream_step in H by discriminate. unfold bind in H.
      destruct (superstep E db tools messages w) as [[[n' m'] | e] w1] eqn:Hs;
        [|discriminate H].
      eapply reaches_step; [exact Hs|]. apply IH. exact H.
    + injection H as <- <-. apply reaches_here.
Qed.

(** What [run_agent] returns when the stream ends. *)
Lemma run_agent_result q w db w1 messages w2 :
  Retrieval.get_database (rag E) w = (Return db, w1) ->
  stream E db (recursion_limit E) agent [HumanMessage (CStr q)] w1
  = (Return messages, w2) ->
  run_agent E q w = (Return (final_text messages, messages), w2).
Proof.
  intros Hdb Hs. unfold run_agent, bind, ret. rewrite Hdb, Hs. reflexivity.
Qed.

Lemma run_agent_inv q w answer messages w' :
  run_agent E q w = (Return (answer, messages), w') ->
  answer = final_text messages
  /\ exists db w1,
       Retrieval.get_database (rag E) w = (Return db, w1)
       /\ stream E db (recursion_limit E) agent [HumanMessage (CStr q)] w1
          = (Return messages, w').
Proof.
  unfold run_agent, bind, ret. intros H.
  destruct (Retrieval.get_database (rag E) w) as [[db | e] w1]; [|discriminate].
  destruct (stream E db (recursion_limit E) agent [HumanMessage (CStr q)] w1)
    as [[ms | e] w2] eqn:Hs; [|discriminate].
  injection H as <- <- <-. split; [reflexivity|]. now exists db, w1.
Qed.
End Graph.

(** *** A model that never stops asking *)

Section Runaway.
Variable W : Type.
Variable E : Env W.

(** On every call the model gives a message with at least one request. *)
Definition always_asks : Prop :=
  forall prompt w, exists c calls w',
    llm_invoke E prompt w = (Return (c, calls), w')
    /\ calls <> [].

(** The configuration always yields a handle. *)
Definition connects : Prop :=
  forall w, returns (Retrieval.get_database (rag E)) w.

(** The tool node answers every request with a text. *)
Definition tools_answer : Prop :=
  forall db tc w, returns (invoke_tool E db tc) w.

(** [k] steps of the graph, whatever the budget. *)
Fixpoint run_steps (db : Database W) (k : nat) (n : node)
    (messages : list BaseMessage) : M W (node * list BaseMessage) :=
  match k with
  | O => ret (n, messages)
  | S k' =>
      st <- superstep E db n messages ;;
      run_steps db k' (fst st) (snd st)
  end.

Lemma route_after_asking messages c calls :
  calls <> [] ->
  route_after_agent (add_messages messages [AIMessage c calls]) = Return tools.
Proof.
  intros Hc. unfold route_after_agent, add_messages.
  rewrite rev_app_distr. simpl. destruct calls; [now elim Hc|reflexivity].
Qed.

(** From [agent] a step leads to [tools], with the model's message added. *)
Lemma superstep_agent_asking db messages w st w' :
  always_asks ->
  superstep E db agent messages w = (Return st, w') ->
  exists c calls,
    calls <> [] /\ st = (tools, (messages ++ [AIMessage c calls])%list).
Proof.
  intros Hask H. unfold superstep, agent_node, bind, lift, ret in H.
  destruct (full_system E messages w) as [[sys | e] w1];
    cbv beta iota in H; [|discriminate H].
  rewrite chain_invoke_llm in H.
  destruct (Hask (SystemMessage (CStr "{system}") :: messages) w1)
    as (c & calls & w2 & Hc & Hne).
  rewrite Hc in H. cbn [fst snd] in H.
  rewrite (route_after_asking messages c Hne) in H.
  injection H as <- _. now exists c, calls.
Qed.

Lemma superstep_tools_next db messages w st w' :
  superstep E db tools messages w = (Return st, w') -> fst st = agent.
Proof.
  intros H. unfold superstep, bind, ret in H.
  destruct (tool_node E db messages w) as [[update | e] w1];
    cbv beta iota in H; [|discriminate H].
  injection H as <- _. reflexivity.
Qed.

Lemma superstep_not_END db n messages w st w' :
  always_asks -> n <> END ->
  superstep E db n messages w = (Return st, w') -> fst st <> END.
Proof.
  intros Hask Hn H. destruct n.
  - destruct (superstep_agent_asking _ _ _ Hask H) as (c & calls & _ & ->).
    discriminate.
  - rewrite (superstep_tools_next _ _ _ H). discriminate.
  - now elim Hn.
Qed.

(** The graph is never at [END], after any number of steps. *)
Lemma run_steps_not_END db k : forall n messages w st w',
  always_asks -> n <> END ->
  run_steps db k n messages w = (Return st, w') -> fst st <> END.
Proof.
  induction k as [|k IH]; intros n messages w st w' Hask Hn H; simpl in H.
  - injection H as <- _. exact Hn.
  - unfold bind in H.
    destruct (superstep E db n messages w) as [[st1 | e] w1] eqn:Hs;
      [|discriminate].
    eapply IH; [exact Hask| |exact H].
    eapply superstep_not_END; eassumption.
Qed.

(** So the stream ends by an exception, whatever its budget. *)
Lemma stream_raises db budget : forall n messages w,
  always_asks -> n <> END -> raises (stream E db budget n messages) w.
Proof.
  induction budget as [|budget IH]; intros n messages w Hask Hn.
  - rewrite stream_out_of_budget by exact Hn. now eexists; eexists.
  - rewrite stream_step by exact Hn. unfold raises, bind.
    destruct (superstep E db n messages w) as [[st1 | e] w1] eqn:Hs.
    + apply IH; [exact Hask|]. eapply superstep_not_END; eassumption.
    + now eexists; eexists.
Qed.

Lemma run_agent_raises q w : always_asks -> raises (run_agent E q) w.
Proof.
  intros Hask. unfold run_agent, raises, bind.
  destruct (Retrieval.get_database (rag E) w) as [[db | e] w1].
  - assert (Hr : raises (stream E db (recursion_limit E) agent
                           [HumanMessage (CStr q)]) w1)
      by (apply stream_raises; [exact Hask|discriminate]).
    destruct Hr as (e & w2 & He). rewrite He. now eexists; eexists.
  - now eexists; eexists.
Qed.

(** When the handle and the tools never fail, every step goes through. *)
Lemma full_system_returns messages w :
  connects -> returns (full_system E messages) w.
Proof.
  intros Hc. unfold full_system, returns, bind.
  destruct (str_truthy (_get_last_user_text E messages)).
  - destruct (Hc w) as (db & w1 & Hdb).
    assert (Hr : returns (Retrieval.retrieve_schema_context (rag E)
                            (_get_last_user_text E messages) 8) w)
      by (eapply RetrievalSpec.retrieve_returns_connected; exact Hdb).
    destruct Hr as (r & w2 & Hr). rewrite Hr. now eexists; eexists.
  - now eexists; eexists.
Qed.

Lemma run_tool_calls_returns db calls : forall w,
  tools_answer -> returns (run_tool_calls E db calls) w.
Proof.
  induction calls as [|tc calls IH]; intros w Ht; simpl.
  - apply ret_returns.
  - unfold returns, bind. destruct (Ht db tc w) as (out & w1 & Ho).
    rewrite Ho. destruct (IH w1 Ht) as (outs & w2 & Hs). rewrite Hs.
    now eexists; eexists.
Qed.

(** The node a step can be taken from: [agent], or [tools] right after a
    model message. *)
Definition live (n : node) (messages : list BaseMessage) : Prop :=
  n = agent
  \/ (n = tools /\ exists before c calls,
        messages = (before ++ [AIMessage c calls])%list).

Lemma superstep_live db n messages w :
  always_asks -> connects -> tools_answer -> live n messages ->
  exists st w', superstep E db n messages w = (Return st, w')
                /\ live (fst st) (snd st).
Proof.
  intros Hask Hc Ht [-> | (-> & before & c & calls & ->)].
  - unfold superstep, agent_node, bind, lift, ret.
    destruct (full_system_returns messages w Hc) as (sys & w1 & Hsys).
    rewrite Hsys.
    rewrite chain_invoke_llm.
    destruct (Hask (SystemMessage (CStr "{system}") :: messages) w1)
      as (c & calls & w2 & Hm & Hne).
    rewrite Hm. cbn [fst snd]. rewrite (route_after_asking messages c Hne).
    eexists; eexists. split; [reflexivity|]. right.
    split; [reflexivity|]. now exists messages, c, calls.
  - unfold superstep, tool_node, bind, ret. rewrite rev_app_distr.
    cbn [rev app].
    destruct (run_tool_calls_returns db calls w Ht) as (outs & w1 & Ho).
    rewrite Ho. eexists; eexists. split; [reflexivity|]. now left.
Qed.

Lemma live_not_END n messages : live n messages -> n <> END.
Proof. intros [-> | (-> & _)]; discriminate. Qed.

(** The node the graph is at flips with every step. *)
Definition flip (n : node) : node :=
  match n with agent => tools | tools => agent | END => END end.

Lemma run_steps_node db k : forall n messages w st w',
  always_asks -> n <> END ->
  run_steps db k n messages w = (Return st, w') ->
  fst st = if Nat.even k then n else flip n.
Proof.
  induction k as [k IH] using (well_founded_induction lt_wf).
  intros n messages w st w' Hask Hn H.
  destruct k as [|[|k]].
  - simpl in H. injection H as <- _. reflexivity.
  - simpl in H. unfold bind, ret in H.
    destruct (superstep E db n messages w) as [[st1 | e] w1] eqn:Hs;
      [|discriminate].
    injection H as <- _. destruct n.
    + destruct (superstep_agent_asking _ _ _ Hask Hs) as (c & calls & _ & ->).
      reflexivity.
    + rewrite (superstep_tools_next _ _ _ Hs). reflexivity.
    + now elim Hn.
  - change (run_steps db (S (S k)) n messages w)
      with ((st1 <- superstep E db n messages ;;
             st2 <- superstep E db (fst st1) (snd st1) ;;
             run_steps db k (fst st2) (snd st2)) w) in H.
    unfold bind in H.
    destruct (superstep E db n messages w) as [[st1 | e] w1] eqn:Hs1;
      [|discriminate].
    destruct (superstep E db (fst st1) (snd st1) w1) as [[st2 | e] w2] eqn:Hs2;
      [|discriminate].
    assert (Hback : fst st2 = n).
    { destruct n.
      - destruct (superstep_agent_asking _ _ _ Hask Hs1)
          as (c & calls & _ & ->).
        apply (superstep_tools_next _ _ _ Hs2).
      - assert (H1 : fst st1 = agent) by apply (superstep_tools_next _ _ _ Hs1).
        rewrite H1 in Hs2.
        destruct (superstep_agent_asking _ _ _ Hask Hs2)
          as (c & calls & _ & ->).
        reflexivity.
      - now elim Hn. }
    rewrite Hback in H.
    change (Nat.even (S (S k))) with (Nat.even k).
    apply (IH k) with (messages := snd st2) (w := w2) (w' := w');
      [lia|exact Hask|exact Hn|exact H].
Qed.

(** Then the exception is the runtime's, raised when the budget is used up:
    the world it leaves is the one after [budget] steps of the graph. *)
Lemma stream_out_of_steps db budget : forall n messages w,
  always_asks -> connects -> tools_answer -> live n messages ->
  exists st w',
    run_steps db budget n messages w = (Return st, w')
    /\ stream E db budget n messages w = (Raise (recursion_error E), w').
Proof.
  induction budget as [|budget IH]; intros n messages w Hask Hc Ht Hl.
  - rewrite stream_out_of_budget by (eapply live_not_END; eassumption).
    exists (n, messages), w. split; reflexivity.
  - rewrite stream_step by (eapply live_not_END; eassumption).
    assert (Hstep : exists st w1,
               superstep E db n messages w = (Return st, w1)
               /\ live (fst st) (snd st))
      by (apply superstep_live; assumption).
    destruct Hstep as (st & w1 & Hs & Hl1).
    cbn [run_steps]. unfold bind. rewrite Hs. apply IH; assumption.
Qed.

Lemma run_agent_out_of_steps q w :
  always_asks -> connects -> tools_answer ->
  exists db w1 st w',
    Retrieval.get_database (rag E) w = (Return db, w1)
    /\ run_steps db (recursion_limit E) agent [HumanMessage (CStr q)] w1
       = (Return st, w')
    /\ run_agent E q w = (Raise (recursion_error E), w').
Proof.
  intros Hask Hc Ht. unfold run_agent, bind.
  destruct (Hc w) as (db & w1 & Hdb). rewrite Hdb.
  assert (Hs : exists st w2,
             run_steps db (recursion_limit E) agent [HumanMessage (CStr q)] w1
             = (Return st, w2)
             /\ stream E db (recursion_limit E) agent [HumanMessage (CStr q)] w1
                = (Raise (recursion_error E), w2))
    by (apply stream_out_of_steps; try assumption; now left).
  destruct Hs as (st & w2 & Hr & Hs). rewrite Hs.
  exists db, w1, st, w2. split; [reflexivity|]. split; [exact Hr|reflexivity].
Qed.

(** A run that raises has either met the exception of a step, when fewer
    steps than the budget were taken, or used the budget up. *)
Lemma stream_raise_inv db budget : forall n messages w e w',
  stream E db budget n messages w = (Raise e, w') ->
  (exists k st w1,
      k < budget
      /\ run_steps db k n messages w = (Return st, w1)
      /\ superstep E db (fst st) (snd st) w1 = (Raise e, w'))
  \/ (e = recursion_error E
      /\ exists st, run_steps db budget n messages w = (Return st, w')).
Proof.
  induction budget as [|budget IH]; intros n messages w e w' H.
  - destruct n; try discriminate H;
      injection H as <- <-; right; (split; [reflexivity|]); eexists; reflexivity.
  - destruct n; try discriminate H.
    + rewrite stream_step in H by discriminate. unfold bind in H.
      destruct (superstep E db agent messages w) as [[st1 | e1] w1] eqn:Hs.
      * destruct (IH _ _ _ _ _ H) as [(k & st & w2 & Hk & Hr & He) | (-> & st & Hr)].
        -- left. exists (S k), st, w2. split; [lia|]. split; [|exact He].
           cbn [run_steps]. unfold bind. rewrite Hs. exact Hr.
        -- right. split; [reflexivity|]. exists st.
           cbn [run_steps]. unfold bind. rewrite Hs. exact Hr.
      * injection H as <- <-. left. exists 0, (agent, messages), w.
        split; [lia|]. split; [reflexivity|exact Hs].
    + rewrite stream_step in H by discriminate. unfold bind in H.
      destruct (superstep E db tools messages w) as [[st1 | e1] w1] eqn:Hs.
      * destruct (IH _ _ _ _ _ H) as [(k & st & w2 & Hk & Hr & He) | (-> & st & Hr)].
        -- left. exists (S k), st, w2. split; [lia|]. split; [|exact He].
           cbn [run_steps]. unfold bind. rewrite Hs. exact Hr.
        -- right. split; [reflexivity|]. exists st.
           cbn [run_steps]. unfold bind. rewrite Hs. exact Hr.
      * injection H as <- <-. left. exists 0, (tools, messages), w.
        split; [lia|]. split; [reflexivity|exact Hs].
Qed.
End Runaway.

End AgentSpec.

(* ======================================================================== *)
(** * The claims *)

Import Agent.

(** ** C6 *)

(** C6.  [_serialize], which [execute_find] and [execute_aggregation] apply
    to the list of documents before printing it, turns every ObjectId into
    its string at any depth of dicts and lists: the result relates to the
    input as the specification words it, holds no ObjectId, has the same
    keys in the same order in every dict and the same length in every list,
    and a value without ObjectId comes out unchanged. *)
Theorem serialize_stringifies_recursively :
  forall v : pyval,
    SerializeSpec.stringified v (QueryTools._serialize v)
    /\ SerializeSpec.has_ObjectId (QueryTools._serialize v) = false
    /\ (forall d, v = PDict d ->
          exists d', QueryTools._serialize v = PDict d'
                     /\ dict_keys d' = dict_keys d
                     /\ forall k, dict_get d' k
                                  = QueryTools._serialize (dict_get d k))
    /\ (forall l, v = PList l ->
          exists l', QueryTools._serialize v = PList l'
                     /\ length l' = length l
                     /\ forall i, nth i l' PNone
                                  = QueryTools._serialize (nth i l PNone))
    /\ (SerializeSpec.has_ObjectId v = false -> QueryTools._serialize v = v)
    /\ (forall (B : Builtins) (docs : list document),
          QueryTools.dump_docs B docs
          = json_dumps B (QueryTools._serialize (PList (map PDict docs)))).
Proof.
  intros v. split; [apply SerializeSpec.serialize_stringified|].
  split; [apply SerializeSpec.serialize_no_ObjectId|].
  split; [intros d ->; apply SerializeSpec.serialize_dict_keys|].
  split; [intros l ->; apply SerializeSpec.serialize_list_items|].
  split; [apply SerializeSpec.serialize_fixes_ObjectId_free|].
  reflexivity.
Qed.

Lemma serialize_stringifies_recursively_witness :
  QueryTools._serialize (PList (map PDict Sample.users))
  = PList (map PDict
      [ [("_id", PStr "65f1a0c2e4b0a1b2c3d4e5f6");
         ("name", PStr "Ada");
         ("address", PDict [("city", PStr "London"); ("zip", PStr "N1")]);
         ("orders", PList [PDict [("order_id", PStr "65f1a0c2e4b0a1b2c3d4e5f7");
                                  ("total", PInt 12)]])];
        [("_id", PStr "65f1a0c2e4b0a1b2c3d4e5f8");
         ("name", PStr "Bob");
         ("tags", PList [PStr "new"])] ])
  /\ (exists l', QueryTools._serialize (PList (map PDict Sample.users)) = PList l'
                 /\ length l' = 2)
  /\ QueryTools._serialize (PStr "Ada") = PStr "Ada".
Proof.
  split; [reflexivity|]. split.
  - destruct (serialize_stringifies_recursively (PList (map PDict Sample.users)))
      as (_ & _ & _ & Hl & _).
    destruct (Hl _ eq_refl) as (l' & H1 & H2 & _). exists l'. split; assumption.
  - destruct (serialize_stringifies_recursively (PStr "Ada"))
      as (_ & _ & _ & _ & Hf & _).
    apply Hf. reflexivity.
Defined.

(** ** C2 *)

(** C2, as the code has it.  For a pipeline text that decodes to a list:
    when every stage is an object whose ["$limit"] is missing or null and
    [limit_results] is not zero, the pipeline handed to the driver is the
    decoded one followed by the single stage [{"$limit": limit_results}];
    when [limit_results] is zero nothing is added; when a stage sets a
    ["$limit"] other than null (the stages before it being objects without
    one), the pipeline is handed over as decoded.  A decoded value that is
    not a list is answered with the fixed text and the driver is not called. *)
Theorem auto_limit_law :
  forall (W : Type) (B : Builtins) (db : Database W)
         (collection_name pipeline_json : string) (limit_results : Z) (w : W)
         (v : pyval),
    json_loads B pipeline_json = Return v ->
    (forall stages, v = PList stages ->
       (Forall QueryToolsSpec.no_limit stages -> limit_results <> 0%Z ->
        QueryTools.execute_aggregation B db collection_name pipeline_json
          limit_results w
        = try_except
            (QueryTools.aggregate_and_dump B db collection_name
               (stages ++ [QueryTools.limit_stage limit_results])%list)
            (QueryTools.aggregation_handler (W := W)) w)
       /\ (Forall QueryToolsSpec.no_limit stages -> limit_results = 0%Z ->
           QueryTools.execute_aggregation B db collection_name pipeline_json
             limit_results w
           = try_except
               (QueryTools.aggregate_and_dump B db collection_name stages)
               (QueryTools.aggregation_handler (W := W)) w)
       /\ (forall before s after,
             stages = (before ++ s :: after)%list ->
             Forall QueryToolsSpec.no_limit before ->
             QueryToolsSpec.sets_limit s ->
             QueryTools.execute_aggregation B db collection_name pipeline_json
               limit_results w
             = try_except
                 (QueryTools.aggregate_and_dump B db collection_name stages)
                 (QueryTools.aggregation_handler (W := W)) w))
    /\ ((forall stages, v <> PList stages) ->
        QueryTools.execute_aggregation B db collection_name pipeline_json
          limit_results w
        = (Return "pipeline_json must be a JSON array of stages.", w)).
Proof.
  intros W B db c pj n w v Hj. split.
  - intros stages ->. repeat split.
    + intros Hs Hn. eapply QueryToolsSpec.execute_aggregation_runs; [exact Hj|].
      apply QueryToolsSpec.with_limit_appends; assumption.
    + intros Hs ->. eapply QueryToolsSpec.execute_aggregation_runs; [exact Hj|].
      apply QueryToolsSpec.with_limit_zero; assumption.
    + intros before s after -> Hb Hs.
      eapply QueryToolsSpec.execute_aggregation_runs; [exact Hj|].
      apply QueryToolsSpec.with_limit_untouched; assumption.
  - intros Hv. eapply QueryToolsSpec.execute_aggregation_not_a_list; eassumption.
Qed.

Lemma no_limit_match : QueryToolsSpec.no_limit (PDict [("$match", PDict [])]).
Proof. exists [("$match", PDict [])]. split; reflexivity. Defined.

Lemma auto_limit_law_witness :
  QueryTools.execute_aggregation Sample.builtins Sample.db "users"
    Sample.match_pipeline 1 []
  = try_except
      (QueryTools.aggregate_and_dump Sample.builtins Sample.db "users"
         [PDict [("$match", PDict [])]; PDict [("$limit", PInt 1)]])
      (QueryTools.aggregation_handler (W := Sample.World)) []
  /\ snd (QueryTools.execute_aggregation Sample.builtins Sample.db "users"
            Sample.match_pipeline 1 [])
     = [Sample.CallAggregate "users"
          [PDict [("$match", PDict [])]; PDict [("$limit", PInt 1)]]].
Proof.
  split; [|reflexivity].
  refine (proj1 (proj1 (auto_limit_law Sample.builtins Sample.db "users"
                          Sample.match_pipeline 1 []
                          (v := PList [PDict [("$match", PDict [])]]) _)
                   _ eq_refl) _ _).
  - reflexivity.
  - constructor; [exact no_limit_match|constructor].
  - discriminate.
Defined.

(** C2 as stated fails: with [limit_results = 0] nothing is appended to a
    pipeline without limit, and a stage whose ["$limit"] key holds null does
    not keep the pipeline untouched. *)
Lemma auto_limit_counterexample :
  QueryTools.with_limit [PDict [("$match", PDict [])]] 0
  <> Return [PDict [("$match", PDict [])]; QueryTools.limit_stage 0]
  /\ QueryTools.with_limit [PDict [("$limit", PNone)]] 5
     <> Return [PDict [("$limit", PNone)]]
  /\ (json_loads Sample.builtins Sample.match_pipeline
   = Return (PList [PDict [("$match", PDict [])]])
   /\ snd (QueryTools.execute_aggregation Sample.builtins Sample.db "users"
             Sample.match_pipeline 0 [])
      = [Sample.CallAggregate "users" [PDict [("$match", PDict [])]]])
  /\ (json_loads Sample.builtins Sample.null_limit_pipeline
      = Return (PList [PDict [("$limit", PNone)]])
      /\ snd (QueryTools.execute_aggregation Sample.builtins Sample.db "users"
                Sample.null_limit_pipeline 5 [])
         = [Sample.CallAggregate "users"
              [PDict [("$limit", PNone)]; PDict [("$limit", PInt 5)]]]).
Proof.
  split; [discriminate|]. split; [discriminate|]. repeat split; reflexivity.
Qed.

(** ** C7 *)

(** C7, as the code has it.  When the sample of a collection is not empty,
    [get_collection_schema] returns a block of lines: a head, then per
    sampled document a title, one line per field with the name and the type
    label, and an empty line.  The label of a dict shows its first keys,
    eight at most.  The label of a list whose first member is a dict reads
    "list (list of dicts, first keys: [...])", with the first keys of that
    member, five at most; the words "list of objects" are not printed, and
    only the first member is looked at: a list that is empty or starts with
    anything else is labelled "list".  Any other value is labelled by its
    type name alone.  An empty sample, and a failure of the driver, come
    back as a text: the tool never raises. *)
Theorem schema_block_shape :
  forall (W : Type) (B : Builtins) (db : Database W)
         (collection_name : string) (sample_size : Z) (w : W),
    returns (SchemaTools.get_collection_schema B db collection_name sample_size) w
    /\ (forall docs w',
          coll_find db collection_name None None sample_size w
          = (Return docs, w') ->
          (docs <> [] ->
           SchemaTools.get_collection_schema B db collection_name sample_size w
           = (Return (join nl (SchemaToolsSpec.schema_lines B collection_name docs)),
              w')
           /\ length (SchemaToolsSpec.schema_lines B collection_name docs)
              = 3 + list_sum (map (fun doc => 2 + length doc) docs))
          /\ (docs = [] ->
              SchemaTools.get_collection_schema B db collection_name
                sample_size w
              = (Return ("Collection '" ++ collection_name
                           ++ "' is empty or does not exist."), w')))
    /\ (forall e w',
          coll_find db collection_name None None sample_size w = (Raise e, w') ->
          SchemaTools.get_collection_schema B db collection_name sample_size w
          = (Return ("Error getting schema for '" ++ collection_name ++ "': "
                       ++ exn_str e), w'))
    /\ (forall d : document,
          SchemaTools.type_label B (PDict d)
          = "dict (keys: "
              ++ SchemaTools.repr_keys B (firstn 8 (dict_keys d)) ++ ")"
          /\ length (firstn 8 (dict_keys d)) <= 8
          /\ exists others,
               dict_keys d = (firstn 8 (dict_keys d) ++ others)%list)
    /\ (forall (d0 : document) (rest : list pyval),
          SchemaTools.type_label B (PList (PDict d0 :: rest))
          = "list (list of dicts, first keys: "
              ++ SchemaTools.repr_keys B (firstn 5 (dict_keys d0)) ++ ")")
    /\ (forall (x : pyval) (rest : list pyval),
          (forall d0, x <> PDict d0) ->
          SchemaTools.type_label B (PList (x :: rest)) = "list")
    /\ SchemaTools.type_label B (PList []) = "list"
    /\ (forall v, SchemaToolsSpec.plain v = true ->
                  SchemaTools.type_label B v = type_name v).
Proof.
  intros W B db c n w.
  split; [apply SchemaToolsSpec.get_collection_schema_returns|].
  split.
  { intros docs w' Hd. split.
    - intros Hne. split.
      + apply SchemaToolsSpec.get_collection_schema_sampled; assumption.
      + unfold SchemaToolsSpec.schema_lines. rewrite length_app.
        rewrite SchemaToolsSpec.document_blocks_length. reflexivity.
    - intros ->. apply SchemaToolsSpec.get_collection_schema_empty. exact Hd. }
  split; [intros e w'; apply SchemaToolsSpec.get_collection_schema_failed|].
  split.
  { intros d. split; [apply SchemaToolsSpec.type_label_dict|].
    apply SchemaToolsSpec.preview_keys_prefix. }
  split; [apply SchemaToolsSpec.type_label_list_of_dicts|].
  split.
  { intros x rest Hx.
    apply (SchemaToolsSpec.type_label_plain B (PList (x :: rest))).
    destruct x; try reflexivity. now elim (Hx d). }
  split; [reflexivity|].
  apply SchemaToolsSpec.type_label_plain.
Qed.

Lemma schema_block_shape_witness :
  SchemaTools.get_collection_schema Sample.builtins Sample.db "users" 3 []
  = (Return
       (join nl
          ["Collection: users"; "Sample size: 2"; EmptyString;
           "--- Document 1 ---";
           "  _id: ObjectId";
           "  name: str";
           "  address: dict (keys: ['city', 'zip'])";
           "  orders: list (list of dicts, first keys: ['order_id', 'total'])";
           EmptyString;
           "--- Document 2 ---";
           "  _id: ObjectId";
           "  name: str";
           "  tags: list";
           EmptyString]),
     [Sample.CallFind "users" None None 3])
  /\ SchemaTools.get_collection_schema Sample.builtins Sample.db "orders" 3 []
     = (Return "Collection 'orders' is empty or does not exist.",
        [Sample.CallFind "orders" None None 3])
  /\ SchemaTools.get_collection_schema Sample.builtins Sample.db_down "users" 3 []
     = (Return "Error getting schema for 'users': No servers found yet",
        [Sample.CallFind "users" None None 3]).
Proof.
  destruct (schema_block_shape Sample.builtins Sample.db "users" 3 [])
    as (_ & Hdocs & _).
  destruct (Hdocs Sample.users [Sample.CallFind "users" None None 3] eq_refl)
    as (Hfull & _).
  destruct (schema_block_shape Sample.builtins Sample.db "orders" 3 [])
    as (_ & Hnone & _).
  destruct (Hnone [] [Sample.CallFind "orders" None None 3] eq_refl)
    as (_ & Hempty).
  destruct (schema_block_shape Sample.builtins Sample.db_down "users" 3 [])
    as (_ & _ & Hfail & _).
  split; [|split].
  - exact (proj1 (Hfull ltac:(discriminate))).
  - exact (Hempty eq_refl).
  - exact (Hfail Sample.timeout [Sample.CallFind "users" None None 3] eq_refl).
Defined.

(** C7 as stated fails: the label of a list of objects does not carry the
    words "list of objects".  The field [orders] of the sample is labelled
    "list (list of dicts, first keys: ['order_id', 'total'])", the block of
    the collection holds the words nowhere, and a list whose first member
    is not an object gets no marker although an object follows. *)
Lemma list_of_objects_counterexample :
  let order := PDict [("order_id", PObjectId "65f1a0c2e4b0a1b2c3d4e5f7");
                      ("total", PInt 12)] in
  SchemaTools.type_label Sample.builtins (PList [order])
  = "list (list of dicts, first keys: ['order_id', 'total'])"
  /\ str_in "list of objects"
       (SchemaTools.type_label Sample.builtins (PList [order])) = false
  /\ (exists text w,
        SchemaTools.get_collection_schema Sample.builtins Sample.db "users" 3 []
        = (Return text, w)
        /\ str_in "list of dicts" text = true
        /\ str_in "list of objects" text = false)
  /\ SchemaTools.type_label Sample.builtins (PList [PNone; order]) = "list".
Proof.
  intros order. split; [reflexivity|]. split; [reflexivity|]. split.
  - eexists; eexists. split; [reflexivity|]. split; vm_compute; reflexivity.
  - reflexivity.
Qed.

(** ** C8 *)

(** C8.  Each of the four tools returns a string in every world and for
    every input, and the string is the result or tells the failure:
    [list_collections] gives the names the driver listed, or the text of
    the driver's exception; [get_collection_schema] gives the block of the
    sample, the text for an empty sample, or the text of the driver's
    exception; [execute_find] and [execute_aggregation] give the printed
    documents the driver returned, and otherwise the text of the exception
    met on the way, of the decoder, of the driver or of the printer, headed
    "Invalid JSON ..." for a decoding error and "Error executing ..." for
    any other.  In particular a filter that is not valid JSON gives
    [execute_find] the text of the parse error, and the database is not
    called; a filter of white space alone is not decoded at all. *)
Theorem tools_return_text :
  forall (W : Type) (B : Builtins) (db : Database W),
    ((forall w, returns (SchemaTools.list_collections db) w)
     /\ (forall c n w, returns (SchemaTools.get_collection_schema B db c n) w)
     /\ (forall c f p n w, returns (QueryTools.execute_find B db c f p n) w)
     /\ (forall c p n w, returns (QueryTools.execute_aggregation B db c p n) w))
    /\ (forall w,
          SchemaTools.list_collections db w
          = match list_collection_names db w with
            | (Return names, w') =>
                (Return ("Collections in database 'inferyx': "
                           ++ (if String.eqb (join ", " names) EmptyString
                               then "None" else join ", " names)), w')
            | (Raise e, w') =>
                (Return ("Error listing collections: " ++ exn_str e), w')
            end)
    /\ (forall c n w,
          SchemaTools.get_collection_schema B db c n w
          = match coll_find db c None None n w with
            | (Return [], w') =>
                (Return ("Collection '" ++ c ++ "' is empty or does not exist."),
                 w')
            | (Return docs, w') =>
                (Return (join nl (SchemaToolsSpec.schema_lines B c docs)), w')
            | (Raise e, w') =>
                (Return ("Error getting schema for '" ++ c ++ "': " ++ exn_str e),
                 w')
            end)
    /\ (forall c f p n w,
          let failure (e : exn) : string :=
            (if is_JSONDecodeError e
             then "Invalid JSON in filter or projection: "
             else "Error executing find: ") ++ exn_str e in
          let decoded (text : string) : Res pyval :=
            if String.eqb (strip text) EmptyString
            then Return (PDict []) else json_loads B text in
          QueryTools.execute_find B db c f p n w
          = match decoded f with
            | Raise e => (Return (failure e), w)
            | Return filt =>
                match decoded p with
                | Raise e => (Return (failure e), w)
                | Return proj =>
                    match coll_find db c (Some filt)
                            (if truthy proj then Some proj else None) n w with
                    | (Raise e, w') => (Return (failure e), w')
                    | (Return docs, w') =>
                        match json_dumps B
                                (QueryTools._serialize (PList (map PDict docs))) with
                        | Return text => (Return text, w')
                        | Raise e => (Return (failure e), w')
                        end
                    end
                end
            end)
    /\ (forall c pj n w,
          let failure (e : exn) : string :=
            (if is_JSONDecodeError e
             then "Invalid JSON pipeline: "
             else "Error executing aggregation: ") ++ exn_str e in
          QueryTools.execute_aggregation B db c pj n w
          = match json_loads B pj with
            | Raise e => (Return (failure e), w)
            | Return (PList stages) =>
                match QueryTools.with_limit stages n with
                | Raise e => (Return (failure e), w)
                | Return pipeline =>
                    match coll_aggregate db c pipeline w with
                    | (Raise e, w') => (Return (failure e), w')
                    | (Return docs, w') =>
                        match json_dumps B
                                (QueryTools._serialize (PList (map PDict docs))) with
                        | Return text => (Return text, w')
                        | Raise e => (Return (failure e), w')
                        end
                    end
                end
            | Return _ =>
                (Return "pipeline_json must be a JSON array of stages.", w)
            end)
    /\ (forall c f p n w e,
          strip f <> EmptyString -> json_loads B f = Raise e ->
          is_JSONDecodeError e = true ->
          QueryTools.execute_find B db c f p n w
          = (Return ("Invalid JSON in filter or projection: " ++ exn_str e), w)).
Proof.
  intros W B db.
  split.
  { split; [apply SchemaToolsSpec.list_collections_returns|].
    split; [apply SchemaToolsSpec.get_collection_schema_returns|].
    split; [apply QueryToolsSpec.execute_find_returns
           |apply QueryToolsSpec.execute_aggregation_returns]. }
  split.
  { intros w. unfold SchemaTools.list_collections, try_except, bind, ret.
    destruct (list_collection_names db w) as [[names | e] w']; [|reflexivity].
    unfold str_truthy.
    destruct (String.eqb (join ", " names) EmptyString); reflexivity. }
  split.
  { intros c n w.
    destruct (coll_find db c None None n w) as [[docs | e] w'] eqn:Hd.
    - destruct docs as [|doc docs].
      + apply SchemaToolsSpec.get_collection_schema_empty. exact Hd.
      + apply SchemaToolsSpec.get_collection_schema_sampled;
          [exact Hd|discriminate].
    - apply SchemaToolsSpec.get_collection_schema_failed. exact Hd. }
  split.
  { intros c f p n w failure decoded.
    assert (Hdec : forall text, QueryTools.loads_or_empty B text = decoded text).
    { intros text. unfold QueryTools.loads_or_empty, decoded, str_truthy.
      destruct (String.eqb (strip text) EmptyString); reflexivity. }
    assert (Hfail : forall e w0,
               QueryTools.find_handler (W := W) e w0 = (Return (failure e), w0)).
    { intros e w0. unfold QueryTools.find_handler, failure.
      destruct (is_JSONDecodeError e); reflexivity. }
    unfold QueryTools.execute_find, try_except, bind, lift.
    rewrite !Hdec.
    destruct (decoded f) as [filt | e]; [|apply Hfail].
    destruct (decoded p) as [proj | e]; [|apply Hfail].
    destruct (coll_find db c (Some filt)
                (if truthy proj then Some proj else None) n w)
      as [[docs | e] w']; [|apply Hfail].
    unfold QueryTools.dump_docs.
    destruct (json_dumps B (QueryTools._serialize (PList (map PDict docs))))
      as [text | e]; [reflexivity|apply Hfail]. }
  split.
  { intros c pj n w failure.
    assert (Hfail : forall e w0,
               QueryTools.aggregation_handler (W := W) e w0
               = (Return (failure e), w0)).
    { intros e w0. unfold QueryTools.aggregation_handler, failure.
      destruct (is_JSONDecodeError e); reflexivity. }
    unfold QueryTools.execute_aggregation, try_except, bind, lift.
    destruct (json_loads B pj) as [v | e]; [|apply Hfail].
    destruct v as [| | | | | |stages|d|]; try reflexivity.
    destruct (QueryTools.with_limit stages n) as [pipeline | e]; [|apply Hfail].
    unfold QueryTools.aggregate_and_dump, bind, lift.
    destruct (coll_aggregate db c pipeline w) as [[docs | e] w'];
      [|apply Hfail].
    unfold QueryTools.dump_docs.
    destruct (json_dumps B (QueryTools._serialize (PList (map PDict docs))))
      as [text | e]; [reflexivity|apply Hfail]. }
  intros c f p n w e Hf. apply QueryToolsSpec.execute_find_bad_filter.
  unfold str_truthy. destruct (String.eqb (strip f) EmptyString) eqn:Hs;
    [|reflexivity].
  apply String.eqb_eq in Hs. now elim Hf.
Qed.

Lemma tools_return_text_witness :
  QueryTools.execute_find Sample.builtins Sample.db "users" Sample.bad_filter
    "{}" 50 []
  = (Return
       "Invalid JSON in filter or projection: Expecting value: line 1 column 12 (char 11)",
     [])
  /\ QueryTools.execute_find Sample.builtins Sample.db_down "users" "{}" "{}" 50 []
     = (Return "Error executing find: No servers found yet",
        [Sample.CallFind "users" (Some (PDict [])) None 50])
  /\ QueryTools.execute_find Sample.builtins Sample.db "orders" Sample.nbsp_filter
       "{}" 50 []
     = (Return "[]", [Sample.CallFind "orders" (Some (PDict [])) None 50])
  /\ SchemaTools.list_collections Sample.db_down []
     = (Return "Error listing collections: No servers found yet",
        [Sample.CallListNames])
  /\ QueryTools.execute_aggregation Sample.builtins Sample.db_down "users"
       Sample.match_pipeline 100 []
     = (Return "Error executing aggregation: No servers found yet",
        [Sample.CallAggregate "users"
           [PDict [("$match", PDict [])]; PDict [("$limit", PInt 100)]]]).
Proof.
  destruct (tools_return_text Sample.builtins Sample.db)
    as (_ & _ & _ & Hfind & _ & Hbad).
  destruct (tools_return_text Sample.builtins Sample.db_down)
    as (_ & Hlist & _ & Hdown & Hagg & _).
  split.
  { refine (Hbad "users" Sample.bad_filter "{}" 50%Z []
              (mkExn JSONDecodeError "Expecting value: line 1 column 12 (char 11)")
              _ eq_refl eq_refl).
    vm_compute. discriminate. }
  split; [rewrite Hdown; reflexivity|].
  split; [rewrite Hfind; reflexivity|].
  split; [rewrite Hlist; reflexivity|].
  rewrite Hagg. reflexivity.
Defined.

(** ** C9 *)

(** C9, as the code has it.  [get_embeddings] always returns.  What it
    returns has one entry per input text in each case the function decides
    itself: the empty list for no text, one empty vector per text when the
    key is missing, when the service raises and when the service gives no
    vector at all.  When the service gives vectors, the function returns the
    list of the service as it is, without looking at its length: the result
    has the length of the input exactly when the answer of the service has,
    as it does when the service keeps to one vector per text. *)
Theorem get_embeddings_keeps_length :
  forall (W : Type) (V : Voyage W) (texts : list string) (w : W),
    exists r w',
      Embeddings.get_embeddings V texts w = (Return r, w')
      /\ (texts = [] -> r = [] /\ w' = w)
      /\ (VOYAGE_API_KEY V = EmptyString ->
          r = repeat [] (length texts) /\ w' = w)
      /\ (forall e w1, vo_embed V texts w = (Raise e, w1) ->
                       r = repeat [] (length texts))
      /\ (forall w1, vo_embed V texts w = (Return [], w1) ->
                     r = repeat [] (length texts))
      /\ (forall v vs w1,
            texts <> [] -> VOYAGE_API_KEY V <> EmptyString ->
            vo_embed V texts w = (Return (v :: vs), w1) ->
            r = v :: vs /\ w' = w1)
      /\ (length r = length texts
          \/ (texts <> [] /\ VOYAGE_API_KEY V <> EmptyString /\ r <> []
              /\ vo_embed V texts w = (Return r, w')))
      /\ ((forall r0 w1, vo_embed V texts w = (Return r0, w1) ->
                         r0 = [] \/ length r0 = length texts) ->
          length r = length texts).
Proof.
  intros W V texts w.
  destruct (EmbeddingsSpec.get_embeddings_cases V texts w)
    as (r & w' & Hrun & Hcases).
  exists r, w'. split; [exact Hrun|].
  split.
  { intros ->. rewrite EmbeddingsSpec.get_embeddings_no_texts in Hrun.
    injection Hrun as <- <-. split; reflexivity. }
  split.
  { intros Hk. rewrite (EmbeddingsSpec.get_embeddings_no_key V texts w Hk) in Hrun.
    injection Hrun as <- <-. split; reflexivity. }
  split.
  { intros e w1 He.
    destruct (EmbeddingsSpec.get_embeddings_service_error V texts w He)
      as (w2 & Hrun2).
    rewrite Hrun2 in Hrun. injection Hrun as <- _. reflexivity. }
  split.
  { intros w1 He. destruct Hcases as [-> | (Hne & _ & Hs)]; [reflexivity|].
    rewrite He in Hs. injection Hs as <- _. now elim Hne. }
  split.
  { intros v vs w1 Ht Hk Hs. revert Hrun.
    unfold Embeddings.get_embeddings, try_except, bind, ret.
    destruct texts as [|t ts]; [now elim Ht|].
    assert (Hkey : str_truthy (VOYAGE_API_KEY V) = true).
    { unfold str_truthy.
      destruct (String.eqb (VOYAGE_API_KEY V) EmptyString) eqn:Hq;
        [|reflexivity].
      apply String.eqb_eq in Hq. now elim Hk. }
    rewrite Hkey. cbn [negb]. cbv beta iota. rewrite Hs.
    intros H. injection H as <- <-. split; reflexivity. }
  split.
  { destruct Hcases as [-> | (Hne & Hk & Hs)].
    - left. apply EmbeddingsSpec.empty_vectors_length.
    - destruct (Nat.eq_dec (length r) (length texts)) as [Hl|Hl];
        [left; exact Hl|right].
      split.
      { intros ->. rewrite EmbeddingsSpec.get_embeddings_no_texts in Hrun.
        injection Hrun as <- _. now elim Hl. }
      split; [|split; assumption].
      intros Hq. rewrite Hq in Hk. discriminate Hk. }
  intros Hservice. destruct Hcases as [-> | (Hne & _ & Hs)].
  - apply EmbeddingsSpec.empty_vectors_length.
  - destruct (Hservice r w' Hs) as [-> | Hl]; [now elim Hne|exact Hl].
Qed.

Lemma get_embeddings_keeps_length_witness :
  (exists r w',
      Embeddings.get_embeddings Sample.voyage ["users"; "orders"] []
      = (Return r, w') /\ length r = 2)
  /\ Embeddings.get_embeddings Sample.voyage_no_key ["users"; "orders"] []
     = (Return [[]; []], [])
  /\ Embeddings.get_embeddings Sample.voyage_failing ["users"; "orders"] []
     = (Return [[]; []], [Sample.CallEmbed ["users"; "orders"]]).
Proof.
  split; [|split; reflexivity].
  destruct (get_embeddings_keeps_length Sample.voyage ["users"; "orders"] [])
    as (r & w' & Hrun & _ & _ & _ & _ & _ & _ & Hlen).
  exists r, w'. split; [exact Hrun|]. apply Hlen.
  intros r0 w1 H. injection H as <- _. right. reflexivity.
Defined.

(** C9 as stated fails: a service that answers two texts with a single
    vector is passed through, and the result is one entry short. *)
Lemma get_embeddings_length_counterexample :
  Embeddings.get_embeddings Sample.voyage_one_vector ["users"; "orders"] []
  = (Return [Sample.unit_vector], [Sample.CallEmbed ["users"; "orders"]])
  /\ ~ (forall r w',
          Embeddings.get_embeddings Sample.voyage_one_vector ["users"; "orders"] []
          = (Return r, w') -> length r = 2).
Proof.
  split; [reflexivity|].
  intros H.
  specialize (H [Sample.unit_vector] [Sample.CallEmbed ["users"; "orders"]]
                eq_refl).
  discriminate H.
Qed.

(** ** C10 *)

(** C10.  When no hit of the vector search has a ["text"] or a
    ["description"] that counts as true, [retrieve_schema_context] returns
    exactly the empty string; and for no list of hits at all is the result
    the header alone. *)
Theorem no_header_only_block :
  forall (W : Type) (E : Retrieval.Env W),
    (forall docs, Forall RetrievalSpec.blank docs ->
                  Retrieval.format_hits E docs = EmptyString)
    /\ (forall docs,
          Retrieval.format_hits E docs
          <> join nl [Retrieval.header; EmptyString])
    /\ (forall q k w db w1 v w2,
          Retrieval.get_database E w = (Return db, w1) ->
          Embeddings.get_embedding (Retrieval.voyage E) q w1 = (Return v, w2) ->
          (forall docs w3,
              coll_aggregate db Retrieval.SCHEMA_RAG_COLLECTION
                (Retrieval.vector_search_pipeline
                   Retrieval.SCHEMA_RAG_INDEX_NAME v k) w2
              = (Return docs, w3) -> Forall RetrievalSpec.blank docs) ->
          exists w',
            Retrieval.retrieve_schema_context E q k w = (Return EmptyString, w')).
Proof.
  intros W E.
  split; [apply RetrievalSpec.format_hits_blank|].
  split; [apply RetrievalSpec.format_hits_not_header_only|].
  intros q k w db w1 v w2 Hdb Hv Hdocs.
  eapply RetrievalSpec.retrieve_blank_hits; eassumption.
Qed.

Lemma blank_hits_blank : Forall RetrievalSpec.blank Sample.blank_hits.
Proof. repeat constructor. Defined.

Lemma no_header_only_block_witness :
  Retrieval.format_hits Sample.rag_env_blank Sample.blank_hits = EmptyString
  /\ (exists w',
        Retrieval.retrieve_schema_context Sample.rag_env_blank "users" 8 []
        = (Return EmptyString, w'))
  /\ Retrieval.retrieve_schema_context Sample.rag_env "users" 8 []
     = (Return
          (join nl
             [Retrieval.header; EmptyString;
              "- [users] Collection: users. Fields: _id, name, address, orders";
              "- [orders] Orders placed by users"]),
        [Sample.CallConnect; Sample.CallEmbed ["users"];
         Sample.CallAggregate "schema_metadata"
           (Retrieval.vector_search_pipeline "schema_metadata_vector_index"
              Sample.unit_vector 8)]).
Proof.
  destruct (no_header_only_block Sample.rag_env_blank) as (Hblank & _ & Hrun).
  split; [exact (Hblank Sample.blank_hits blank_hits_blank)|].
  split; [|reflexivity].
  refine (Hrun "users" 8%Z [] Sample.db_blank [Sample.CallConnect]
            Sample.unit_vector [Sample.CallConnect; Sample.CallEmbed ["users"]]
            eq_refl eq_refl _).
  intros docs w3 H. injection H as <- _. exact blank_hits_blank.
Defined.

(** ** C3 *)

(** C3, as the code has it.  [get_embedding] never raises, and gives the
    empty list when the text is empty, when the key is missing and when the
    service raises.  Provided the first call of [retrieve_schema_context],
    [get_database()], gives a handle, an empty embedding makes
    [retrieve_schema_context] return exactly the empty string without
    running the search, and the text the agent node then puts together in
    [full_system] is [BASE_SYSTEM] with nothing appended.
    ([get_database()] is called before the embedding and outside any [try]:
    when it raises, so does [retrieve_schema_context].) *)
Theorem retrieval_degrades_to_empty :
  forall (W : Type) (A : Agent.Env W) (q : string) (k : Z) (w : W)
         (db : Database W) (w1 : W),
    let E := rag A in
    Retrieval.get_database E w = (Return db, w1) ->
    ((forall text w0,
         returns (Embeddings.get_embedding (Retrieval.voyage E) text) w0)
     /\ (forall w0,
           Embeddings.get_embedding (Retrieval.voyage E) EmptyString w0
           = (Return [], w0))
     /\ (forall text w0,
           VOYAGE_API_KEY (Retrieval.voyage E) = EmptyString ->
           Embeddings.get_embedding (Retrieval.voyage E) text w0
           = (Return [], w0))
     /\ (forall text w0 e w2,
           vo_embed (Retrieval.voyage E) [text] w0 = (Raise e, w2) ->
           exists w3,
             Embeddings.get_embedding (Retrieval.voyage E) text w0
             = (Return [], w3)))
    /\ (forall w2,
          Embeddings.get_embedding (Retrieval.voyage E) q w1 = (Return [], w2) ->
          Retrieval.retrieve_schema_context E q k w = (Return EmptyString, w2))
    /\ (VOYAGE_API_KEY (Retrieval.voyage E) = EmptyString ->
        Retrieval.retrieve_schema_context E q k w = (Return EmptyString, w1))
    /\ (forall e w2,
          vo_embed (Retrieval.voyage E) [q] w1 = (Raise e, w2) ->
          exists w3,
            Retrieval.retrieve_schema_context E q k w = (Return EmptyString, w3))
    /\ (forall messages w2,
          Agent._get_last_user_text A messages = q ->
          Embeddings.get_embedding (Retrieval.voyage E) q w1 = (Return [], w2) ->
          exists w3, Agent.full_system A messages w = (Return BASE_SYSTEM, w3)).
Proof.
  intros W A q k w db w1 E Hdb.
  split.
  { split; [intros text w0; apply EmbeddingsSpec.get_embedding_returns|].
    split; [intros w0; apply EmbeddingsSpec.get_embedding_no_text|].
    split; [intros text w0; apply EmbeddingsSpec.get_embedding_no_key|].
    intros text w0 e w2. apply EmbeddingsSpec.get_embedding_service_error. }
  split; [intros w2 Hv; eapply RetrievalSpec.retrieve_no_vector; eassumption|].
  split.
  { intros Hk. eapply RetrievalSpec.retrieve_no_vector; [exact Hdb|].
    apply EmbeddingsSpec.get_embedding_no_key. exact Hk. }
  split.
  { intros e w2 He.
    destruct (EmbeddingsSpec.get_embedding_service_error (Retrieval.voyage E) q
                w1 He) as (w3 & Hq).
    exists w3. eapply RetrievalSpec.retrieve_no_vector; eassumption. }
  intros messages w2 Hq Hv.
  apply AgentSpec.full_system_no_context with (w' := w2).
  rewrite Hq. eapply RetrievalSpec.retrieve_no_vector; eassumption.
Qed.

Lemma retrieval_degrades_to_empty_witness :
  Retrieval.retrieve_schema_context Sample.rag_env_no_key "list the users" 8 []
  = (Return EmptyString, [Sample.CallConnect])
  /\ (exists w,
        Embeddings.get_embedding Sample.voyage_failing "list the users" []
        = (Return [], w))
  /\ exists w,
       Agent.full_system Sample.env_silent
         [HumanMessage (CStr "list the users")] []
       = (Return BASE_SYSTEM, w).
Proof.
  destruct (retrieval_degrades_to_empty Sample.env_silent "list the users" 8
              [] (db := Sample.db) (w1 := [Sample.CallConnect]) eq_refl)
    as (_ & _ & Hkey & _ & Hprompt).
  split; [exact (Hkey eq_refl)|].
  split; [eexists; reflexivity|].
  exact (Hprompt [HumanMessage (CStr "list the users")] [Sample.CallConnect]
           eq_refl eq_refl).
Defined.

(** C3 as stated fails: with neither [MONGODB_URI] nor [VOYAGE_API_KEY] set
    the embedding is empty, and [retrieve_schema_context] raises the error of
    the database client instead of returning the empty string. *)
Lemma retrieval_degrade_counterexample :
  Embeddings.get_embedding (Retrieval.voyage Sample.rag_env_unset) "users" []
  = (Return [], [])
  /\ Retrieval.retrieve_schema_context Sample.rag_env_unset "users" 8 []
     = (Raise Sample.config_error, [Sample.CallConnect])
  /\ ~ returns (Retrieval.retrieve_schema_context Sample.rag_env_unset "users" 8) [].
Proof.
  split; [reflexivity|]. split; [reflexivity|].
  intros (r & w' & H). discriminate H.
Qed.

(** ** C4 *)

(** C4, as the code has it.  The answer [run_agent] returns is computed from
    the final list of messages alone: it is the content of the most recent
    model message without tool requests when that content is not empty, and
    the fixed text "No response generated." when there is no such message
    and also when the content of that message is empty. *)
Theorem answer_extraction :
  forall messages : list BaseMessage,
    (forall before c after,
        messages = (before ++ AIMessage c [] :: after)%list ->
        Forall (fun m => AgentSpec.terminal m = false) after ->
        final_text messages
        = if content_truthy c then c else CStr "No response generated.")
    /\ (Forall (fun m => AgentSpec.terminal m = false) messages ->
        final_text messages = CStr "No response generated.")
    /\ (Forall (fun m => AgentSpec.terminal m = false) messages
        \/ exists before c after,
             messages = (before ++ AIMessage c [] :: after)%list
             /\ Forall (fun m => AgentSpec.terminal m = false) after)
    /\ (forall (W : Type) (E : Agent.Env W) q w answer w',
          run_agent E q w = (Return (answer, messages), w') ->
          answer = final_text messages).
Proof.
  intros messages. split.
  { intros before c after -> Hafter.
    apply AgentSpec.final_text_found. exact Hafter. }
  split; [apply AgentSpec.final_text_none|].
  split; [apply AgentSpec.last_terminal_split|].
  intros W E q w answer w' H.
  exact (proj1 (AgentSpec.run_agent_inv E q w H)).
Qed.

Lemma answer_extraction_witness :
  final_text
    [HumanMessage (CStr "q");
     AIMessage (CStr EmptyString) [Sample.list_call];
     ToolMessage (CStr "Collections in database 'inferyx': users") "toolu_01"
       "list_collections";
     AIMessage (CStr "There is one collection, users.") []]
  = CStr "There is one collection, users."
  /\ final_text
       [HumanMessage (CStr "q");
        AIMessage (CStr EmptyString) [Sample.list_call]]
     = CStr "No response generated.".
Proof.
  split.
  - exact (proj1 (answer_extraction _)
             [HumanMessage (CStr "q");
              AIMessage (CStr EmptyString) [Sample.list_call];
              ToolMessage (CStr "Collections in database 'inferyx': users")
                "toolu_01" "list_collections"]
             (CStr "There is one collection, users.") [] eq_refl
             (Forall_nil _)).
  - apply (proj1 (proj2 (answer_extraction _))).
    repeat constructor.
Defined.

(** C4 as stated fails: when the most recent model message without tool
    requests has an empty content, the answer is the fixed text and not the
    (empty) text of that message. *)
Lemma answer_extraction_counterexample :
  final_text [HumanMessage (CStr "q"); AIMessage (CStr EmptyString) []]
  = CStr "No response generated."
  /\ final_text [HumanMessage (CStr "q"); AIMessage (CStr EmptyString) []]
     <> CStr EmptyString
  /\ fst (run_agent Sample.env_silent "q" [])
     = Return (CStr "No response generated.",
               [HumanMessage (CStr "q"); AIMessage (CStr EmptyString) []]).
Proof.
  split; [reflexivity|]. split; [discriminate|]. vm_compute. reflexivity.
Qed.

(** ** C5 *)

(** C5: a defect of the code.  The agent node does rebuild its text on every
    entry, as the base instructions plus what the retrieval gives for the
    question, and binds it to the variable [system] of the chain (the
    comment on line 48 calls the system message dynamic).  But the template
    of line 50 doubles the braces around [system]: it has no replacement
    field, and the system message the model is shown is the text "{system}"
    and nothing else, in every round and whatever [full_system] has built.
    On the sample the retrieval is asked for the question in both rounds,
    finds the two schema entries, and the model is shown "{system}" both
    times. *)
Theorem model_is_shown_the_placeholder :
  forall (W : Type) (E : Agent.Env W) (messages : list BaseMessage),
    agent_node E messages
    = (system <- full_system E messages ;;
       response <- llm_invoke E (SystemMessage (CStr "{system}") :: messages) ;;
       ret [AIMessage (fst response) (snd response)])
    /\ (forall context, "{system}" <> BASE_SYSTEM ++ context)
    /\ (let q := "which collections exist?" in
        let search :=
          Sample.CallAggregate "schema_metadata"
            (Retrieval.vector_search_pipeline "schema_metadata_vector_index"
               Sample.unit_vector 8) in
        fst (full_system Sample.env_answering [HumanMessage (CStr q)] [])
        = Return (BASE_SYSTEM ++ nl ++ nl
                    ++ join nl
                         [Retrieval.header; EmptyString;
                          "- [users] Collection: users. Fields: _id, name, address, orders";
                          "- [orders] Orders placed by users"])
        /\ snd (run_agent Sample.env_answering q [])
           = [Sample.CallConnect;
              Sample.CallConnect; Sample.CallEmbed [q]; search;
              Sample.CallModel "{system}" 1;
              Sample.CallListNames;
              Sample.CallConnect; Sample.CallEmbed [q]; search;
              Sample.CallModel "{system}" 3]).
Proof.
  intros W E messages. split.
  { unfold agent_node.
    replace (fun system : string =>
               response <- chain_invoke E system messages ;;
               ret [AIMessage (fst response) (snd response)])
      with (fun _ : string =>
              response <- llm_invoke E
                            (SystemMessage (CStr "{system}") :: messages) ;;
              ret [AIMessage (fst response) (snd response)]);
      reflexivity. }
  split.
  { intros context H. discriminate H. }
  split; vm_compute; reflexivity.
Qed.

(** ** C1 *)

(** C1, as the code has it.  The source sets no bound on the rounds and has
    no outcome for a loop that runs away.  With a model that asks for a tool
    on every call the graph goes from [agent] to [tools] and back, and is
    never at its end: after [k] steps it is at [agent] for an even [k] and at
    [tools] for an odd one.  [run_agent] never returns an answer: it ends
    by an exception, which is that of the database handle, that of a step
    met before the budget of the runtime is spent, or the runtime's own
    [GraphRecursionError], raised once as many steps as the budget (which the
    source leaves at the runtime's default) have been taken.  When the
    database handle and the tools do not fail it is the last: all the steps
    of the budget are taken, their calls are made, and the exception is
    raised in the world they leave. *)
Theorem runaway_ends_by_runtime_limit :
  forall (W : Type) (E : Agent.Env W),
    AgentSpec.always_asks E ->
    (forall q w, raises (run_agent E q) w)
    /\ (forall db k q w st w',
          AgentSpec.run_steps E db k agent [HumanMessage (CStr q)] w
          = (Return st, w') ->
          fst st = (if Nat.even k then agent else tools) /\ fst st <> END)
    /\ (forall q w e w',
          run_agent E q w = (Raise e, w') ->
          Retrieval.get_database (rag E) w = (Raise e, w')
          \/ exists db w1,
               Retrieval.get_database (rag E) w = (Return db, w1)
               /\ ((exists k st w2,
                      k < recursion_limit E
                      /\ AgentSpec.run_steps E db k agent
                           [HumanMessage (CStr q)] w1 = (Return st, w2)
                      /\ superstep E db (fst st) (snd st) w2 = (Raise e, w'))
                   \/ (exn_cls e = GraphRecursionError
                       /\ exn_str e = recursion_text E
                       /\ exists st,
                            AgentSpec.run_steps E db (recursion_limit E) agent
                              [HumanMessage (CStr q)] w1 = (Return st, w'))))
    /\ (AgentSpec.connects E -> AgentSpec.tools_answer E ->
        forall q w, exists db w1 st w' e,
          Retrieval.get_database (rag E) w = (Return db, w1)
          /\ AgentSpec.run_steps E db (recursion_limit E) agent
               [HumanMessage (CStr q)] w1 = (Return st, w')
          /\ run_agent E q w = (Raise e, w')
          /\ exn_cls e = GraphRecursionError
          /\ exn_str e = recursion_text E).
Proof.
  intros W E Hask. split.
  { intros q w. apply AgentSpec.run_agent_raises. exact Hask. }
  split.
  { intros db k q w st w' H. split.
    - eapply AgentSpec.run_steps_node; [exact Hask|discriminate|exact H].
    - eapply AgentSpec.run_steps_not_END; [exact Hask| |exact H]. discriminate. }
  split.
  { intros q w e w' H. unfold run_agent, bind in H.
    destruct (Retrieval.get_database (rag E) w) as [[db | e0] w1] eqn:Hdb.
    - right. exists db, w1. split; [reflexivity|].
      destruct (stream E db (recursion_limit E) agent [HumanMessage (CStr q)] w1)
        as [[ms | e1] w2] eqn:Hs; [discriminate H|].
      injection H as <- <-.
      destruct (AgentSpec.stream_raise_inv E db _ _ _ _ Hs)
        as [Hstep | (-> & st & Hr)].
      + left. exact Hstep.
      + right. split; [reflexivity|]. split; [reflexivity|]. exists st. exact Hr.
    - left. congruence. }
  intros Hc Ht q w.
  destruct (AgentSpec.run_agent_out_of_steps q w Hask Hc Ht)
    as (db & w1 & st & w' & Hdb & Hr & Hrun).
  exists db, w1, st, w', (recursion_error E).
  split; [exact Hdb|]. split; [exact Hr|]. split; [exact Hrun|].
  split; reflexivity.
Qed.

Lemma runaway_always_asks : AgentSpec.always_asks Sample.env_runaway.
Proof.
  intros prompt w.
  exists (CStr EmptyString), [Sample.list_call],
    (w ++ [Sample.shown prompt])%list.
  split; [reflexivity|discriminate].
Defined.

Lemma runaway_ends_by_runtime_limit_witness :
  AgentSpec.always_asks Sample.env_runaway
  /\ raises (run_agent Sample.env_runaway "which collections exist?") []
  /\ (exists e,
        run_agent Sample.env_runaway "which collections exist?" []
        = (Raise e,
           (Sample.CallConnect :: Sample.rounds_log 12 1
              ++ [Sample.CallConnect; Sample.CallModel "{system}" 25])%list)
        /\ exn_cls e = GraphRecursionError).
Proof.
  split; [exact runaway_always_asks|]. split.
  - exact (proj1 (runaway_ends_by_runtime_limit runaway_always_asks)
             "which collections exist?" []).
  - eexists. split; [vm_compute; reflexivity|reflexivity].
Defined.

(** C1 as stated fails: with the model that always asks for
    [list_collections] the loop is still at the agent node after ten full
    rounds, with a transcript of twenty-one messages, and goes on; the run
    does not return: after twenty-five steps, thirteen calls of the model,
    it is cut off by the exception of the runtime. *)
Lemma round_cap_counterexample :
  AgentSpec.always_asks Sample.env_runaway
  /\ (exists st w,
        AgentSpec.run_steps Sample.env_runaway Sample.db 20 agent
          [HumanMessage (CStr "q")] [] = (Return st, w)
        /\ fst st = agent /\ length (snd st) = 21
        /\ w = Sample.rounds_log 10 1)
  /\ run_agent Sample.env_runaway "q" []
     = (Raise (recursion_error Sample.env_runaway),
        (Sample.CallConnect :: Sample.rounds_log 12 1
           ++ [Sample.CallConnect; Sample.CallModel "{system}" 25])%list)
  /\ ~ returns (run_agent Sample.env_runaway "q") [].
Proof.
  split; [exact runaway_always_asks|]. split.
  { eexists; eexists. split; [vm_compute; reflexivity|].
    split; [reflexivity|]. split; reflexivity. }
  split; [vm_compute; reflexivity|].
  intros (r & w' & H).
  assert (Hf : fst (run_agent Sample.env_runaway "q" []) = Return r)
    by (rewrite H; reflexivity).
  revert Hf. vm_compute. discriminate.
Qed.

(* ======================================================================== *)
(** * Further properties of the tools, the retrieval and the loop *)

(** ** The pipeline handed to the driver *)

Module PipelineSpec.
Import QueryTools.

Lemma has_limit_app_limit stages n :
  has_limit stages = Return false ->
  has_limit (stages ++ [limit_stage n]) = Return true.
Proof.
  induction stages as [|s rest IH]; simpl; [reflexivity|].
  destruct (stage_get_limit s) as [v|e]; [|discriminate].
  destruct (is_None v); simpl; [exact IH|discriminate].
Qed.

Lemma with_limit_inv stages n p :
  with_limit stages n = Return p ->
  (has_limit stages = Return true /\ p = stages)
  \/ (has_limit stages = Return false /\ n = 0%Z /\ p = stages)
  \/ (has_limit stages = Return false /\ n <> 0%Z
      /\ p = (stages ++ [limit_stage n])%list).
Proof.
  unfold with_limit. destruct (has_limit stages) as [[|]|e]; simpl;
    [| |discriminate].
  - intros H. injection H as <-. now left.
  - destruct (Z.eqb n 0) eqn:Hn; simpl; intros H; injection H as <-; right.
    + left. apply Z.eqb_eq in Hn. auto.
    + right. apply Z.eqb_neq in Hn. auto.
Qed.

(** A stage that is not an object, met before any limit: the scan raises. *)
Lemma has_limit_not_a_dict before s after :
  Forall QueryToolsSpec.no_limit before -> QueryToolsSpec.is_dict s = false ->
  has_limit (before ++ s :: after)
  = Raise (mkExn (OtherException "AttributeError")
             ("'" ++ type_name s ++ "' object has no attribute 'get'")).
Proof.
  intros Hb Hs. induction Hb as [|s0 rest (d0 & -> & Hd0) _ IH]; simpl.
  - destruct s; try reflexivity. discriminate.
  - rewrite Hd0. simpl. exact IH.
Qed.

End PipelineSpec.

(** ** Strings at their edges *)

Module StripSpec.

(** The text is one white-space character. *)
Definition is_space_char (t : string) : bool :=
  match t with
  | String c EmptyString => is_space c
  | String c (String c1 EmptyString) => is_space2 c c1
  | String c (String c1 (String c2 EmptyString)) => is_space3 c c1 c2
  | _ => false
  end.

(** The text starts with a white-space character. *)
Definition space_head (s : string) : bool :=
  match s with
  | String c s1 =>
      is_space c
      || match s1 with
         | String c1 s2 =>
             is_space2 c c1
             || match s2 with
                | String c2 _ => is_space3 c c1 c2
                | EmptyString => false
                end
         | EmptyString => false
         end
  | EmptyString => false
  end.

(** No suffix of the text is one white-space character. *)
Fixpoint no_space_suffix (s : string) : bool :=
  match s with
  | EmptyString => true
  | String _ s' => negb (is_space_char s) && no_space_suffix s'
  end.

(** The last character of a non-empty string is not white space. *)
Definition ends_nonspace (s : string) : bool :=
  match s with
  | EmptyString => false
  | _ => no_space_suffix s
  end.

(** The first character of a non-empty string is not white space. *)
Definition starts_nonspace (s : string) : bool :=
  match s with
  | EmptyString => false
  | _ => negb (space_head s)
  end.

(** A byte of the ASCII range that is not white space. *)
Definition plain_byte (c : ascii) : bool :=
  Nat.ltb (nat_of_ascii c) 128 && negb (is_space c).

Fixpoint ends_plain (s : string) : bool :=
  match s with
  | EmptyString => false
  | String c EmptyString => plain_byte c
  | String _ s' => ends_plain s'
  end.

(** Some byte of the text is in the ASCII range. *)
Fixpoint has_low (s : string) : bool :=
  match s with
  | EmptyString => false
  | String c s' => Nat.ltb (nat_of_ascii c) 128 || has_low s'
  end.

(** Tests on bytes, read as comparisons of numbers. *)
Ltac bytes_in H :=
  repeat first [ rewrite orb_true_iff in H | rewrite andb_true_iff in H
               | rewrite Nat.eqb_eq in H | rewrite Nat.leb_le in H ].

Lemma rstrip_cons c s :
  rstrip (String c s)
  = if is_space_char (String c (rstrip s)) then EmptyString
    else String c (rstrip s).
Proof.
  cbn [rstrip]. destruct (rstrip s) as [|c1 [|c2 [|c3 r]]]; reflexivity.
Qed.

Lemma lstrip_cons c s1 :
  lstrip (String c s1)
  = if is_space c then lstrip s1
    else match s1 with
         | String c1 s2 =>
             if is_space2 c c1 then lstrip s2
             else match s2 with
                  | String c2 s3 =>
                      if is_space3 c c1 c2 then lstrip s3 else String c s1
                  | EmptyString => String c s1
                  end
         | EmptyString => String c s1
         end.
Proof. reflexivity. Qed.

Lemma space_head_cons c s1 :
  space_head (String c s1)
  = is_space c
    || match s1 with
       | String c1 s2 =>
           is_space2 c c1
           || match s2 with
              | String c2 _ => is_space3 c c1 c2
              | EmptyString => false
              end
       | EmptyString => false
       end.
Proof. reflexivity. Qed.

Lemma no_space_suffix_rstrip s : no_space_suffix (rstrip s) = true.
Proof.
  induction s as [|c s IH]; [reflexivity|]. rewrite rstrip_cons.
  destruct (is_space_char (String c (rstrip s))) eqn:Hc; [reflexivity|].
  cbn [no_space_suffix]. rewrite Hc, IH. reflexivity.
Qed.

Lemma rstrip_empty_or_ends s :
  rstrip s = EmptyString \/ ends_nonspace (rstrip s) = true.
Proof.
  generalize (no_space_suffix_rstrip s).
  destruct (rstrip s) as [|c r]; [now left|]. intros H. right. exact H.
Qed.

Lemma space_head_lstrip_bounded n : forall s,
  String.length s <= n -> space_head (lstrip s) = false.
Proof.
  induction n as [|n IH]; intros s Hn.
  - destruct s; [reflexivity|simpl in Hn; lia].
  - destruct s as [|c s1]; [reflexivity|]. rewrite lstrip_cons.
    cbn [String.length] in Hn.
    destruct (is_space c) eqn:H1; [apply IH; lia|].
    destruct s1 as [|c1 s2].
    { rewrite space_head_cons, H1. reflexivity. }
    cbn [String.length] in Hn.
    destruct (is_space2 c c1) eqn:H2; [apply IH; lia|].
    destruct s2 as [|c2 s3].
    { rewrite space_head_cons, H1, H2. reflexivity. }
    cbn [String.length] in Hn.
    destruct (is_space3 c c1 c2) eqn:H3; [apply IH; lia|].
    rewrite space_head_cons, H1, H2, H3. reflexivity.
Qed.

Lemma lstrip_empty_or_starts s :
  lstrip s = EmptyString \/ starts_nonspace (lstrip s) = true.
Proof.
  generalize (@space_head_lstrip_bounded (String.length s) s (Nat.le_refl _)).
  destruct (lstrip s) as [|c r]; [now left|]. intros H. right.
  unfold starts_nonspace. rewrite H. reflexivity.
Qed.

(** [rstrip] keeps a start of the text. *)
Lemma rstrip_prefix s : exists x, s = rstrip s ++ x.
Proof.
  induction s as [|c s (x & IH)]; [now exists EmptyString|].
  rewrite rstrip_cons.
  destruct (is_space_char (String c (rstrip s))).
  - now exists (String c s).
  - exists x. simpl. rewrite <- IH. reflexivity.
Qed.

Lemma space_head_app p x :
  space_head p = true -> space_head (p ++ x) = true.
Proof.
  destruct p as [|c [|c1 [|c2 p]]]; [discriminate| | |];
    cbn [append]; rewrite !space_head_cons; intros H.
  - rewrite orb_false_r in H. rewrite H. reflexivity.
  - rewrite orb_false_r in H. apply orb_true_iff in H.
    destruct H as [-> | ->]; [reflexivity|].
    rewrite orb_true_r. reflexivity.
  - exact H.
Qed.

Lemma space_char_head p x :
  is_space_char p = true -> space_head (p ++ x) = true.
Proof.
  destruct p as [|c [|c1 [|c2 [|c3 p]]]]; try discriminate;
    cbn [append is_space_char]; rewrite !space_head_cons; intros ->;
    rewrite ?orb_true_r; reflexivity.
Qed.

Lemma rstrip_keeps_start s :
  starts_nonspace s = true -> starts_nonspace (rstrip s) = true.
Proof.
  destruct s as [|c s]; [discriminate|]. unfold starts_nonspace at 1.
  intros Hs. apply negb_true_iff in Hs.
  destruct (rstrip_prefix s) as (x & Hx). rewrite rstrip_cons.
  assert (Hw : String c s = String c (rstrip s) ++ x)
    by (simpl; rewrite <- Hx; reflexivity).
  destruct (is_space_char (String c (rstrip s))) eqn:Hc.
  - rewrite Hw, (space_char_head _ x Hc) in Hs. discriminate Hs.
  - unfold starts_nonspace.
    destruct (space_head (String c (rstrip s))) eqn:Hh; [|reflexivity].
    rewrite Hw, (space_head_app _ x Hh) in Hs. discriminate Hs.
Qed.

(** What [strip] gives is empty or has no white space at either end. *)
Lemma strip_edges s :
  strip s = EmptyString
  \/ (starts_nonspace (strip s) = true /\ ends_nonspace (strip s) = true).
Proof.
  unfold strip. destruct (lstrip_empty_or_starts s) as [H|H].
  - rewrite H. now left.
  - right. split; [apply rstrip_keeps_start; exact H|].
    destruct (rstrip_empty_or_ends (lstrip s)) as [He|He]; [|exact He].
    apply rstrip_keeps_start in H. rewrite He in H. discriminate.
Qed.

Lemma lstrip_fixed s : starts_nonspace s = true -> lstrip s = s.
Proof.
  destruct s as [|c s1]; [discriminate|]. unfold starts_nonspace.
  rewrite space_head_cons, lstrip_cons. intros H. apply negb_true_iff in H.
  apply orb_false_iff in H. destruct H as [-> H].
  destruct s1 as [|c1 s2]; [reflexivity|].
  apply orb_false_iff in H. destruct H as [-> H].
  destruct s2 as [|c2 s3]; [reflexivity|]. rewrite H. reflexivity.
Qed.

Lemma rstrip_no_space_suffix s : no_space_suffix s = true -> rstrip s = s.
Proof.
  induction s as [|c s IH]; [reflexivity|]. cbn [no_space_suffix].
  intros H. apply andb_true_iff in H. destruct H as [Hc Hs].
  rewrite rstrip_cons, (IH Hs). apply negb_true_iff in Hc. rewrite Hc.
  reflexivity.
Qed.

Lemma rstrip_fixed s : ends_nonspace s = true -> rstrip s = s.
Proof.
  destruct s as [|c s]; [discriminate|]. apply rstrip_no_space_suffix.
Qed.

(** Stripping twice is stripping once. *)
Lemma strip_idempotent s : strip (strip s) = strip s.
Proof.
  destruct (strip_edges s) as [H|[Hs He]].
  - rewrite H. reflexivity.
  - unfold strip at 1. rewrite (lstrip_fixed _ Hs). apply rstrip_fixed, He.
Qed.

(** A byte of the ASCII range starts no white-space character of several
    bytes, and is no later byte of one. *)
Lemma space_char_low c t :
  Nat.ltb (nat_of_ascii c) 128 = true ->
  is_space_char (String c t) = true -> t = EmptyString /\ is_space c = true.
Proof.
  intros Hc. apply Nat.ltb_lt in Hc.
  destruct t as [|c1 [|c2 [|c3 t]]]; cbn [is_space_char];
    [now split| | |discriminate].
  - unfold is_space2. intros H. apply andb_true_iff in H.
    destruct H as [H _]. apply Nat.eqb_eq in H. lia.
  - unfold is_space3. intros H. bytes_in H. lia.
Qed.

Lemma space_char_tail_high c t :
  is_space_char (String c t) = true -> has_low t = false.
Proof.
  destruct t as [|c1 [|c2 [|c3 t]]]; cbn [is_space_char has_low];
    [reflexivity| | |discriminate].
  - unfold is_space2. intros H. bytes_in H.
    rewrite orb_false_r. apply Nat.ltb_ge. lia.
  - unfold is_space3. intros H. bytes_in H.
    rewrite orb_false_r. apply orb_false_iff.
    split; apply Nat.ltb_ge; lia.
Qed.

Lemma ends_plain_has_low s x : ends_plain s = true -> has_low (s ++ x) = true.
Proof.
  induction s as [|c s IH]; [discriminate|].
  destruct s as [|c' s'].
  - cbn [ends_plain append has_low]. unfold plain_byte. intros H.
    apply andb_true_iff in H. destruct H as [-> _]. reflexivity.
  - intros H. change (ends_plain (String c' s') = true) in H.
    change (String c (String c' s') ++ x) with (String c (String c' s' ++ x)).
    cbn [has_low]. rewrite (IH H). apply orb_true_r.
Qed.

(** A text that ends in a plain byte stays whole under [rstrip], whatever
    follows it. *)
Lemma rstrip_app s x :
  ends_plain s = true -> rstrip (s ++ x) = s ++ rstrip x.
Proof.
  induction s as [|c s IH]; [discriminate|].
  destruct s as [|c' s'].
  - cbn [ends_plain append]. unfold plain_byte. intros H.
    apply andb_true_iff in H. destruct H as [Hlow Hsp].
    apply negb_true_iff in Hsp. rewrite rstrip_cons.
    destruct (is_space_char (String c (rstrip x))) eqn:Hc; [|reflexivity].
    destruct (space_char_low _ _ Hlow Hc) as [_ Hs]. congruence.
  - intros H. change (ends_plain (String c' s') = true) in H.
    change (String c (String c' s') ++ x) with (String c (String c' s' ++ x)).
    rewrite rstrip_cons, (IH H).
    destruct (is_space_char (String c (String c' s' ++ rstrip x))) eqn:Hc;
      [|reflexivity].
    apply space_char_tail_high in Hc.
    rewrite (ends_plain_has_low _ (rstrip x) H) in Hc. discriminate Hc.
Qed.

(** A text that starts with a plain byte starts with no white space. *)
Lemma starts_plain_nonspace c s :
  plain_byte c = true -> starts_nonspace (String c s) = true.
Proof.
  unfold plain_byte, starts_nonspace. intros H.
  apply andb_true_iff in H. destruct H as [Hlow Hsp].
  apply negb_true_iff in Hsp. apply negb_true_iff.
  destruct (space_head (String c s)) eqn:Hh; [|reflexivity].
  rewrite space_head_cons, Hsp in Hh. cbn [orb] in Hh.
  apply Nat.ltb_lt in Hlow.
  destruct s as [|c1 s2]; [discriminate Hh|].
  apply orb_true_iff in Hh. destruct Hh as [Hh|Hh].
  - unfold is_space2 in Hh. apply andb_true_iff in Hh.
    destruct Hh as [Hh _]. apply Nat.eqb_eq in Hh. lia.
  - destruct s2 as [|c2 s3]; [discriminate Hh|].
    unfold is_space3 in Hh. bytes_in Hh. lia.
Qed.

End StripSpec.

(** ** The search call and the embedding of one text *)

Module SearchSpec.
Import Retrieval.

Section Search.
Variable W : Type.
Variable E : Env W.


Lemma vector_search_failed (db : Database W) c i q n (w : W) e w' :
  q <> [] ->
  coll_aggregate db c (vector_search_pipeline i q n) w = (Raise e, w') ->
  _vector_search db c i q n w = (Return [], w').
Proof.
  intros Hq He. destruct q as [|x q]; [now elim Hq|].
  unfold _vector_search, try_except. rewrite He. reflexivity.
Qed.

Lemma vector_search_hits (db : Database W) c i q n (w : W) docs w' :
  q <> [] ->
  coll_aggregate db c (vector_search_pipeline i q n) w = (Return docs, w') ->
  _vector_search db c i q n w = (Return docs, w').
Proof.
  intros Hq He. destruct q as [|x q]; [now elim Hq|].
  unfold _vector_search, try_except. rewrite He. reflexivity.
Qed.



(** After the handle, [retrieve_schema_context] follows the search. *)
Lemma retrieve_search_failed q k w db w1 v w2 e w3 :
  get_database E w = (Return db, w1) ->
  Embeddings.get_embedding (voyage E) q w1 = (Return v, w2) -> v <> [] ->
  coll_aggregate db SCHEMA_RAG_COLLECTION
    (vector_search_pipeline SCHEMA_RAG_INDEX_NAME v k) w2 = (Raise e, w3) ->
  retrieve_schema_context E q k w = (Return EmptyString, w3).
Proof.
  intros Hdb Hv Hne He. unfold retrieve_schema_context, bind.
  rewrite Hdb, Hv. destruct v as [|x v]; [now elim Hne|].
  rewrite (vector_search_failed db _ _ k w2 Hne He). reflexivity.
Qed.

Lemma retrieve_hits q k w db w1 v w2 docs w3 :
  get_database E w = (Return db, w1) ->
  Embeddings.get_embedding (voyage E) q w1 = (Return v, w2) -> v <> [] ->
  coll_aggregate db SCHEMA_RAG_COLLECTION
    (vector_search_pipeline SCHEMA_RAG_INDEX_NAME v k) w2 = (Return docs, w3) ->
  retrieve_schema_context E q k w
  = (Return (match docs with [] => EmptyString | _ => format_hits E docs end), w3).
Proof.
  intros Hdb Hv Hne He. unfold retrieve_schema_context, bind.
  rewrite Hdb, Hv. destruct v as [|x v]; [now elim Hne|].
  rewrite (vector_search_hits db _ _ k w2 Hne He). destruct docs; reflexivity.
Qed.

Lemma bullets_length docs :
  length (RetrievalSpec.bullets E docs)
  = length (filter (fun d => truthy (RetrievalSpec.hit_text d)) docs).
Proof.
  induction docs as [|d docs IH]; simpl; [reflexivity|].
  destruct (truthy (RetrievalSpec.hit_text d)); simpl; rewrite IH; reflexivity.
Qed.

Lemma bullets_map docs :
  RetrievalSpec.bullets E docs
  = map (RetrievalSpec.bullet E)
      (filter (fun d => truthy (RetrievalSpec.hit_text d)) docs).
Proof.
  induction docs as [|d docs IH]; simpl; [reflexivity|].
  destruct (truthy (RetrievalSpec.hit_text d)); simpl; rewrite IH; reflexivity.
Qed.
End Search.

Section Embed.
Variable W : Type.
Variable V : Voyage W.

Lemma get_embedding_no_call text w :
  text = EmptyString \/ VOYAGE_API_KEY V = EmptyString ->
  Embeddings.get_embedding V text w = (Return [], w).
Proof.
  intros [-> | Hk]; [reflexivity|].
  apply EmbeddingsSpec.get_embedding_no_key. exact Hk.
Qed.

Lemma get_embedding_first text w r w' :
  text <> EmptyString -> VOYAGE_API_KEY V <> EmptyString ->
  vo_embed V [text] w = (Return r, w') ->
  Embeddings.get_embedding V text w = (Return (hd [] r), w').
Proof.
  intros Ht Hk Hr. unfold Embeddings.get_embedding, str_truthy.
  apply String.eqb_neq in Ht, Hk. rewrite Ht, Hk. simpl.
  unfold bind, try_except, ret. rewrite Hr. destruct r; reflexivity.
Qed.

Lemma get_embedding_failed text w e w' :
  text <> EmptyString -> VOYAGE_API_KEY V <> EmptyString ->
  vo_embed V [text] w = (Raise e, w') ->
  Embeddings.get_embedding V text w = (Return [], w').
Proof.
  intros Ht Hk Hr. unfold Embeddings.get_embedding, str_truthy.
  apply String.eqb_neq in Ht, Hk. rewrite Ht, Hk. simpl.
  unfold bind, try_except, ret. rewrite Hr. reflexivity.
Qed.
End Embed.

End SearchSpec.

(** ** The block of query examples *)

Module RetrievalExamplesSpec.
Import Retrieval RetrievalExamples StripSpec.

(** A hit with neither a question nor a query. *)
Definition blank_example (d : document) : Prop :=
  Forall (fun k => truthy (dict_get d k) = false)
    ["natural_language"; "question"; "query"; "pipeline"; "example_query"].

Lemma join_cons sep x y rest :
  join sep (x :: y :: rest) = x ++ (sep ++ join sep (y :: rest)).
Proof. reflexivity. Qed.

Section Retrieve.
Variable W : Type.
Variable E : Env W.

Definition example_question (d : document) : pyval :=
  py_or (py_or (dict_get d "natural_language") (dict_get d "question"))
    (PStr EmptyString).

Definition example_query (d : document) : pyval :=
  py_or (py_or (py_or (dict_get d "query") (dict_get d "pipeline"))
           (dict_get d "example_query")) (PStr EmptyString).

(** The lines one hit contributes. *)
Definition example_lines (d : document) : list string :=
  if truthy (example_question d) || truthy (example_query d)
  then (("Q: " ++ py_str (container_str E) (example_question d))
          :: (if truthy (example_query d)
              then ["  " ++ arrow ++ " " ++ py_str (container_str E) (example_query d)]
              else [])) ++ [EmptyString]
  else [].

Lemma fold_append_example docs : forall lines,
  fold_left (append_example E) docs lines
  = (lines ++ flat_map example_lines docs)%list.
Proof.
  induction docs as [|d docs IH]; intros lines; simpl.
  - now rewrite app_nil_r.
  - rewrite IH. unfold append_example, example_lines.
    fold (example_question d) (example_query d).
    destruct (truthy (example_question d) || truthy (example_query d)).
    + destruct (truthy (example_query d)); simpl;
        rewrite <- !app_assoc; reflexivity.
    + reflexivity.
Qed.

Lemma blank_example_lines d : blank_example d -> example_lines d = [].
Proof.
  intros H. unfold example_lines, example_question, example_query, py_or.
  inversion H as [|? ? H1 H']; subst. inversion H' as [|? ? H2 H'']; subst.
  inversion H'' as [|? ? H3 H3']; subst. inversion H3' as [|? ? H4 H4']; subst.
  inversion H4' as [|? ? H5 _]; subst.
  rewrite H1, H2, H3, H4, H5. reflexivity.
Qed.

Lemma format_examples_lines docs :
  format_examples E docs
  = match flat_map example_lines docs with
    | [] => EmptyString
    | ls => strip (join nl (examples_header :: EmptyString :: ls))
    end.
Proof.
  unfold format_examples. rewrite fold_append_example.
  cbn [app length]. destruct (flat_map example_lines docs); reflexivity.
Qed.

Lemma format_examples_blank docs :
  Forall blank_example docs -> format_examples E docs = EmptyString.
Proof.
  intros H. rewrite format_examples_lines.
  assert (Hl : flat_map example_lines docs = []).
  { induction H as [|d docs Hd _ IH]; simpl; [reflexivity|].
    rewrite (blank_example_lines Hd). exact IH. }
  rewrite Hl. reflexivity.
Qed.

(** A block that is not empty starts with the header and ends in a
    character that is not white space. *)
Lemma format_examples_edges docs :
  format_examples E docs = EmptyString
  \/ ((exists rest, format_examples E docs = examples_header ++ rest)
      /\ ends_nonspace (format_examples E docs) = true).
Proof.
  rewrite format_examples_lines.
  destruct (flat_map example_lines docs) as [|l ls]; [now left|right].
  rewrite (join_cons nl examples_header EmptyString (l :: ls)).
  set (tail := nl ++ join nl (EmptyString :: l :: ls)).
  assert (Hs : strip (examples_header ++ tail)
               = examples_header ++ rstrip tail).
  { unfold strip. rewrite lstrip_fixed.
    - apply rstrip_app. reflexivity.
    - apply starts_plain_nonspace. reflexivity. }
  rewrite Hs. split; [now exists (rstrip tail)|].
  rewrite <- Hs. destruct (strip_edges (examples_header ++ tail)) as [He|[_ He]].
  - rewrite Hs in He. discriminate He.
  - exact He.
Qed.

Lemma retrieve_examples_no_vector q k w db w1 w2 :
  get_database E w = (Return db, w1) ->
  Embeddings.get_embedding (voyage E) q w1 = (Return [], w2) ->
  retrieve_query_examples_context E q k w = (Return EmptyString, w2).
Proof.
  intros Hdb Hq. unfold retrieve_query_examples_context, bind.
  rewrite Hdb, Hq. reflexivity.
Qed.

Lemma retrieve_examples_returns q k w db w1 :
  get_database E w = (Return db, w1) ->
  returns (retrieve_query_examples_context E q k) w.
Proof.
  intros Hdb. unfold retrieve_query_examples_context, returns, bind.
  rewrite Hdb.
  destruct (EmbeddingsSpec.get_embedding_returns (voyage E) q w1)
    as (v & w2 & Hv).
  rewrite Hv. destruct v as [|x v]; [now eexists; eexists|].
  destruct (RetrievalSpec.vector_search_returns db QUERY_EXAMPLES_COLLECTION
              QUERY_EXAMPLES_INDEX_NAME (x :: v) k w2) as (docs & w3 & Hs).
  rewrite Hs. destruct docs; now eexists; eexists.
Qed.

Lemma retrieve_examples_connect_raises q k w e w1 :
  get_database E w = (Raise e, w1) ->
  retrieve_query_examples_context E q k w = (Raise e, w1).
Proof.
  intros Hdb. unfold retrieve_query_examples_context, bind.
  rewrite Hdb. reflexivity.
Qed.

Lemma retrieve_examples_inv q k w r w' :
  retrieve_query_examples_context E q k w = (Return r, w') ->
  r = EmptyString \/ exists docs, r = format_examples E docs.
Proof.
  unfold retrieve_query_examples_context, bind, ret. intros H.
  destruct (get_database E w) as [[db|e] w1]; [|discriminate].
  destruct (Embeddings.get_embedding (voyage E) q w1) as [[v|e] w2];
    [|discriminate].
  destruct v as [|x v]; [injection H as <- _; now left|].
  destruct (_vector_search db QUERY_EXAMPLES_COLLECTION
              QUERY_EXAMPLES_INDEX_NAME (x :: v) k w2) as [[docs|e] w3];
    [|discriminate].
  destruct docs as [|d docs]; injection H as <- _; [now left|right].
  now exists (d :: docs).
Qed.
End Retrieve.

End RetrievalExamplesSpec.

(** ** Slices and lookups *)

Module SliceSpec.

Lemma length_append s t :
  String.length (s ++ t) = String.length s + String.length t.
Proof. induction s as [|c s IH]; simpl; [reflexivity|]. now rewrite IH. Qed.

Lemma str_take_length n : forall s,
  String.length (str_take n s) = Nat.min n (String.length s).
Proof.
  unfold str_take. induction n as [|n IH]; intros [|c s]; simpl;
    try reflexivity.
  now rewrite IH.
Qed.

Lemma str_take_prefix n : forall s, exists rest, s = str_take n s ++ rest.
Proof.
  unfold str_take. induction n as [|n IH]; intros [|c s]; simpl.
  - now exists EmptyString.
  - now exists (String c s).
  - now exists EmptyString.
  - destruct (IH s) as (rest & Hr). exists rest. now rewrite <- Hr.
Qed.

Lemma str_take_all n : forall s, String.length s <= n -> str_take n s = s.
Proof.
  unfold str_take. induction n as [|n IH]; intros [|c s]; simpl; intros H;
    try reflexivity.
  - lia.
  - rewrite IH by lia. reflexivity.
Qed.

(** Characters, counted as [len] and cut as a slice do. *)
Lemma str_len_append s t : str_len (s ++ t) = str_len s + str_len t.
Proof.
  induction s as [|c s IH]; simpl; [reflexivity|].
  destruct (is_continuation c); rewrite IH; reflexivity.
Qed.

Lemma str_slice_len s : forall n,
  str_len (str_slice n s) = Nat.min n (str_len s).
Proof.
  induction s as [|c s IH]; intros n; simpl.
  - now rewrite Nat.min_0_r.
  - destruct (is_continuation c) eqn:Hc.
    + simpl. rewrite Hc. apply IH.
    + destruct n as [|n]; [reflexivity|]. simpl. rewrite Hc, IH. reflexivity.
Qed.

Lemma str_slice_prefix s : forall n, exists rest, s = str_slice n s ++ rest.
Proof.
  induction s as [|c s IH]; intros n; simpl; [now exists EmptyString|].
  destruct (is_continuation c).
  - destruct (IH n) as (rest & Hr). exists rest. simpl. now rewrite <- Hr.
  - destruct n as [|n]; [now exists (String c s)|].
    destruct (IH n) as (rest & Hr). exists rest. simpl. now rewrite <- Hr.
Qed.

Lemma str_slice_all s : forall n, str_len s <= n -> str_slice n s = s.
Proof.
  induction s as [|c s IH]; intros n; simpl; [reflexivity|].
  destruct (is_continuation c); intros H.
  - rewrite IH by exact H. reflexivity.
  - destruct n as [|n]; [lia|]. rewrite IH by lia. reflexivity.
Qed.

(** The text is empty or starts with the first byte of a character. *)
Definition starts_char (t : string) : bool :=
  match t with
  | EmptyString => true
  | String c _ => negb (is_continuation c)
  end.

(** Cutting at the number of characters of [p] gives [p] back, whatever
    characters follow. *)
Lemma str_slice_app p t :
  starts_char t = true -> str_slice (str_len p) (p ++ t) = p.
Proof.
  intros Ht. induction p as [|c p IH]; simpl.
  - destruct t as [|c t]; [reflexivity|]. simpl in *.
    apply negb_true_iff in Ht. rewrite Ht. reflexivity.
  - destruct (is_continuation c); rewrite IH; reflexivity.
Qed.

Lemma existsb_eqb_In k l : existsb (String.eqb k) l = true <-> In k l.
Proof.
  rewrite existsb_exists. split.
  - intros (x & Hx & He). apply String.eqb_eq in He. now subst.
  - intros H. exists k. split; [exact H|apply String.eqb_refl].
Qed.

Lemma existsb_eqb_notin k l : existsb (String.eqb k) l = false <-> ~ In k l.
Proof.
  rewrite <- existsb_eqb_In. destruct (existsb (String.eqb k) l); split;
    congruence.
Qed.

(** [dict_get] on an association list put together from two. *)
Lemma dict_get_app d1 d2 k :
  dict_get (d1 ++ d2)%list k
  = if existsb (String.eqb k) (dict_keys d1) then dict_get d1 k
    else dict_get d2 k.
Proof.
  induction d1 as [|[k' v] d1 IH]; simpl; [reflexivity|].
  rewrite (String.eqb_sym k k'). destruct (String.eqb k' k); simpl; auto.
Qed.

Lemma dict_get_missing d k : ~ In k (dict_keys d) -> dict_get d k = PNone.
Proof.
  induction d as [|[k' v] d IH]; simpl; intros H; [reflexivity|].
  destruct (String.eqb k' k) eqn:He.
  - apply String.eqb_eq in He. elim H. now left.
  - apply IH. intros Hin. apply H. now right.
Qed.

(** [dict_set] then [dict_get]. *)
Lemma dict_get_set d k v k' :
  dict_get (Json.dict_set d k v) k'
  = if String.eqb k k' then v else dict_get d k'.
Proof.
  induction d as [|[k0 v0] d IH]; simpl.
  - destruct (String.eqb k k'); reflexivity.
  - destruct (String.eqb k0 k) eqn:H0; simpl.
    + apply String.eqb_eq in H0. subst k0.
      destruct (String.eqb k k'); reflexivity.
    + destruct (String.eqb k0 k') eqn:H1.
      * apply String.eqb_eq in H1. subst k0.
        rewrite String.eqb_sym in H0. rewrite H0. reflexivity.
      * exact IH.
Qed.

Lemma dict_set_keys d k v :
  dict_keys (Json.dict_set d k v)
  = if existsb (String.eqb k) (dict_keys d) then dict_keys d
    else (dict_keys d ++ [k])%list.
Proof.
  induction d as [|[k0 v0] d IH]; simpl; [reflexivity|].
  rewrite (String.eqb_sym k k0). destruct (String.eqb k0 k); simpl.
  - reflexivity.
  - rewrite IH. destruct (existsb (String.eqb k) (dict_keys d)); reflexivity.
Qed.

End SliceSpec.

(** ** The schema texts of the index *)

Module SchemaIndexSpec.
Import SchemaIndex SliceSpec.

(** The fields in the order met, each name once: a field whose name is in
    [seen], or was met before, is left out. *)
Fixpoint dedup_from (seen : list string) (l : document) : document :=
  match l with
  | [] => []
  | kv :: rest =>
      if existsb (String.eqb (fst kv)) seen
      then dedup_from seen rest
      else kv :: dedup_from (fst kv :: seen) rest
  end.

Definition distinct_fields (docs : list document) : document :=
  dedup_from [] (concat docs).

Definition field_line (kv : string * pyval) : string :=
  "  " ++ fst kv ++ ": " ++ schema_label (snd kv).

Lemma fold_infer_field l : forall parts seen,
  fold_left infer_field l (parts, seen)
  = ((parts ++ map field_line (dedup_from seen l))%list,
     (rev (map fst (dedup_from seen l)) ++ seen)%list).
Proof.
  induction l as [|kv l IH]; intros parts seen; simpl.
  - now rewrite app_nil_r.
  - unfold infer_field at 2. simpl.
    destruct (existsb (String.eqb (fst kv)) seen).
    + apply IH.
    + rewrite IH. simpl. rewrite <- !app_assoc. reflexivity.
Qed.

Lemma fold_infer_doc docs : forall st,
  fold_left infer_doc docs st = fold_left infer_field (concat docs) st.
Proof.
  induction docs as [|d docs IH]; intros st; simpl; [reflexivity|].
  rewrite fold_left_app. apply IH.
Qed.

Lemma dedup_keys_sound l : forall seen k,
  In k (map fst (dedup_from seen l)) -> In k (map fst l) /\ ~ In k seen.
Proof.
  induction l as [|kv l IH]; intros seen k; simpl; [tauto|].
  destruct (existsb (String.eqb (fst kv)) seen) eqn:He.
  - intros H. destruct (IH _ _ H). tauto.
  - apply existsb_eqb_notin in He. simpl. intros [<- | H]; [tauto|].
    destruct (IH _ _ H) as [H1 H2]. split; [tauto|].
    intros Hs. apply H2. now right.
Qed.

Lemma dedup_keys_complete l : forall seen k,
  In k (map fst l) -> ~ In k seen -> In k (map fst (dedup_from seen l)).
Proof.
  induction l as [|kv l IH]; intros seen k; simpl; [tauto|].
  intros Hin Hs. destruct (existsb (String.eqb (fst kv)) seen) eqn:He.
  - apply existsb_eqb_In in He. destruct Hin as [<- | Hin]; [tauto|].
    now apply IH.
  - simpl. destruct (String.eqb (fst kv) k) eqn:Hk.
    + apply String.eqb_eq in Hk. now left.
    + apply String.eqb_neq in Hk. destruct Hin as [Hin | Hin]; [tauto|].
      right. apply IH; [exact Hin|]. intros [H | H]; tauto.
Qed.

Lemma dedup_NoDup l : forall seen, NoDup (map fst (dedup_from seen l)).
Proof.
  induction l as [|kv l IH]; intros seen; simpl; [constructor|].
  destruct (existsb (String.eqb (fst kv)) seen); [apply IH|].
  simpl. constructor; [|apply IH].
  intros H. apply dedup_keys_sound in H. destruct H as [_ H]. apply H. now left.
Qed.

(** The value kept for a name is the first one met. *)
Lemma dedup_get l : forall seen k,
  ~ In k seen -> dict_get (dedup_from seen l) k = dict_get l k.
Proof.
  induction l as [|[k0 v0] l IH]; intros seen k Hs; simpl; [reflexivity|].
  destruct (existsb (String.eqb k0) seen) eqn:He.
  - apply existsb_eqb_In in He. destruct (String.eqb k0 k) eqn:Hk.
    + apply String.eqb_eq in Hk. subst. tauto.
    + now apply IH.
  - simpl. destruct (String.eqb k0 k) eqn:Hk; [reflexivity|].
    apply IH. apply String.eqb_neq in Hk. intros [H | H]; [congruence|tauto].
Qed.

Lemma distinct_fields_first before doc after k :
  (forall d, In d before -> ~ In k (dict_keys d)) -> In k (dict_keys doc) ->
  dict_get (distinct_fields (before ++ doc :: after)%list) k = dict_get doc k.
Proof.
  intros Hb Hd. unfold distinct_fields. rewrite dedup_get by (intros []).
  rewrite concat_app. simpl. rewrite dict_get_app.
  assert (Hn : existsb (String.eqb k) (dict_keys (concat before)) = false).
  { apply existsb_eqb_notin. unfold dict_keys. rewrite concat_map.
    intros Hin. apply in_concat in Hin. destruct Hin as (ks & Hks & Hk).
    apply in_map_iff in Hks. destruct Hks as (d & <- & Hdin).
    exact (Hb d Hdin Hk). }
  rewrite Hn, dict_get_app.
  apply existsb_eqb_In in Hd. rewrite Hd. reflexivity.
Qed.

Lemma distinct_fields_keys docs k :
  In k (map fst (distinct_fields docs))
  <-> exists doc, In doc docs /\ In k (dict_keys doc).
Proof.
  unfold distinct_fields. split.
  - intros H. apply dedup_keys_sound in H. destruct H as [H _].
    unfold dict_keys. rewrite concat_map in H. apply in_concat in H.
    destruct H as (ks & Hks & Hk). apply in_map_iff in Hks.
    destruct Hks as (d & <- & Hd). now exists d.
  - intros (doc & Hd & Hk). apply dedup_keys_complete; [|intros []].
    rewrite concat_map. apply in_concat. exists (map fst doc).
    split; [apply in_map; exact Hd|exact Hk].
Qed.

Section Build.
Variable W : Type.
Variable E : IndexEnv W.

Lemma infer_schema_text_sampled (db : Database W) c n (w : W) docs w' :
  coll_find db c None None n w = (Return docs, w') -> docs <> [] ->
  _infer_schema_text db c n w
  = (Return (join nl (("Collection: " ++ c ++ ". Fields:")
                        :: map field_line (distinct_fields docs))), w').
Proof.
  intros Hd Hne. unfold _infer_schema_text, bind, ret. rewrite Hd.
  destruct docs as [|d docs]; [now elim Hne|].
  rewrite fold_infer_doc, fold_infer_field. reflexivity.
Qed.

Lemma infer_schema_text_empty (db : Database W) c n (w : W) w' :
  coll_find db c None None n w = (Return [], w') ->
  _infer_schema_text db c n w
  = (Return ("Collection " ++ c ++ " (empty)"), w').
Proof.
  intros Hd. unfold _infer_schema_text, bind, ret. rewrite Hd. reflexivity.
Qed.

Lemma infer_schema_text_raises (db : Database W) c n (w : W) e w' :
  coll_find db c None None n w = (Raise e, w') ->
  _infer_schema_text db c n w = (Raise e, w').
Proof.
  intros Hd. unfold _infer_schema_text, bind. rewrite Hd. reflexivity.
Qed.

(** The rows whose vector is not empty. *)
Definition with_vector {A} (rows : list (A * list float)) : list (A * list float) :=
  filter (fun r => match snd r with [] => false | _ => true end) rows.

Lemma write_schema_docs_bounds (db : Database W) rows : forall written w n w',
  write_schema_docs E db rows written w = (Return n, w') ->
  written <= n <= written + length (with_vector rows).
Proof.
  induction rows as [|[[name text] emb] rows IH]; intros written w n w' H;
    simpl in H.
  - injection H as <- _. simpl. lia.
  - destruct emb as [|x emb].
    + apply IH in H. simpl. lia.
    + unfold bind in H.
      destruct (update_one E db Retrieval.SCHEMA_RAG_COLLECTION
                  [("collection_name", PStr name)]
                  (schema_doc name text (x :: emb)) w) as [[u|e] w1];
        [|discriminate].
      apply IH in H. simpl. lia.
Qed.

Lemma write_schema_docs_count (db : Database W) rows : forall written w,
  (forall c f d w0, returns (update_one E db c f d) w0) ->
  exists w', write_schema_docs E db rows written w
             = (Return (written + length (with_vector rows)), w').
Proof.
  induction rows as [|[[name text] emb] rows IH]; intros written w Hu; simpl.
  - exists w. rewrite Nat.add_0_r. reflexivity.
  - destruct emb as [|x emb].
    + apply IH. exact Hu.
    + unfold bind.
      destruct (Hu Retrieval.SCHEMA_RAG_COLLECTION
                  [("collection_name", PStr name)]
                  (schema_doc name text (x :: emb)) w) as (u & w1 & H1).
      rewrite H1. destruct (IH (S written) w1 Hu) as (w' & H').
      exists w'. rewrite H'. simpl. f_equal. f_equal. lia.
Qed.

(** Rows without a vector: nothing is written and the world is left alone. *)
Lemma write_schema_docs_skips (db : Database W) rows : forall written w,
  with_vector rows = [] ->
  write_schema_docs E db rows written w = (Return written, w).
Proof.
  induction rows as [|[[name text] emb] rows IH]; intros written w H; simpl.
  - reflexivity.
  - destruct emb as [|x emb]; [|discriminate]. apply IH. exact H.
Qed.

Lemma with_vector_empty_vectors {A} (xs : list A) n :
  with_vector (combine xs (repeat [] n)) = [].
Proof.
  revert n. induction xs as [|x xs IH]; intros [|n]; simpl; auto.
Qed.

Lemma with_vector_length {A} (rows : list (A * list float)) :
  length (with_vector rows) <= length rows.
Proof. apply filter_length_le. Qed.

Lemma map_M_length {A B} (f : A -> M W B) xs : forall w ys w',
  map_M f xs w = (Return ys, w') -> length ys = length xs.
Proof.
  induction xs as [|x xs IH]; intros w ys w' H; simpl in H.
  - injection H as <- _. reflexivity.
  - unfold bind in H. destruct (f x w) as [[y|e] w1]; [|discriminate].
    destruct (map_M f xs w1) as [[ys'|e] w2] eqn:Hm; [|discriminate].
    injection H as <- _. simpl. f_equal. eapply IH. exact Hm.
Qed.

Lemma indexable_spec c :
  indexable c = true
  <-> c <> Retrieval.SCHEMA_RAG_COLLECTION /\ c <> "query_examples"
      /\ String.prefix "system." c = false.
Proof.
  unfold indexable, skip. simpl. rewrite andb_true_iff, !negb_true_iff.
  rewrite !orb_false_iff, !String.eqb_neq. split.
  - intros [(H1 & H2 & H3 & _) H4]. auto.
  - intros (H1 & H2 & H3). repeat split; auto.
    intros ->. discriminate H3.
Qed.

Lemma build_schema_index_nothing n w db w1 names w2 :
  Retrieval.get_database (ix_rag E) w = (Return db, w1) ->
  list_collection_names db w1 = (Return names, w2) ->
  filter indexable names = [] ->
  build_schema_index E n w = (Return 0, w2).
Proof.
  intros Hdb Hn Hf. unfold build_schema_index, bind.
  rewrite Hdb, Hn, Hf. reflexivity.
Qed.
End Build.

End SchemaIndexSpec.

(** ** The documents of the examples index *)

Module QueryExamplesIndexSpec.
Import QueryExamplesIndex SliceSpec.

Lemma dict_get_fold_set kvs : forall d k,
  NoDup (map fst kvs) ->
  dict_get (fold_left (fun d kv => Json.dict_set d (fst kv) (snd kv)) kvs d) k
  = if existsb (String.eqb k) (map fst kvs) then dict_get kvs k
    else dict_get d k.
Proof.
  induction kvs as [|[k0 v0] kvs IH]; intros d k Hnd; simpl; [reflexivity|].
  inversion Hnd as [|? ? Hnotin Hnd']; subst.
  rewrite IH by exact Hnd'. rewrite dict_get_set. simpl.
  rewrite (String.eqb_sym k k0). destruct (String.eqb k0 k) eqn:Hk; simpl.
  - apply String.eqb_eq in Hk. subst k0.
    apply existsb_eqb_notin in Hnotin. rewrite Hnotin. reflexivity.
  - reflexivity.
Qed.

Definition not_embedding (kv : string * pyval) : bool :=
  negb (String.eqb (fst kv) "embedding").

Lemma filter_keys_NoDup (d : document) :
  NoDup (dict_keys d) -> NoDup (map fst (filter not_embedding d)).
Proof.
  unfold dict_keys. induction d as [|kv d IH]; simpl; intros H; [constructor|].
  inversion H as [|? ? Hn Hd]; subst.
  destruct (not_embedding kv); simpl; [|auto].
  constructor; [|auto]. intros Hin. apply Hn.
  apply in_map_iff in Hin. destruct Hin as (x & Hx & Hf).
  apply filter_In in Hf. apply in_map_iff. exists x. tauto.
Qed.

Lemma filter_get (d : document) k :
  k <> "embedding" -> dict_get (filter not_embedding d) k = dict_get d k.
Proof.
  intros Hk. induction d as [|[k0 v0] d IH]; simpl; [reflexivity|].
  unfold not_embedding at 1. simpl.
  destruct (String.eqb k0 "embedding") eqn:He; simpl.
  - apply String.eqb_eq in He. subst k0.
    destruct (String.eqb "embedding" k) eqn:Hk'; [|exact IH].
    apply String.eqb_eq in Hk'. congruence.
  - destruct (String.eqb k0 k); [reflexivity|exact IH].
Qed.

Lemma filter_mem (d : document) k :
  k <> "embedding" ->
  existsb (String.eqb k) (map fst (filter not_embedding d))
  = existsb (String.eqb k) (dict_keys d).
Proof.
  intros Hk. induction d as [|[k0 v0] d IH]; simpl; [reflexivity|].
  unfold not_embedding at 1. simpl.
  destruct (String.eqb k0 "embedding") eqn:He; simpl.
  - apply String.eqb_eq in He. subst k0.
    apply String.eqb_neq in Hk. rewrite Hk. exact IH.
  - rewrite IH. reflexivity.
Qed.

(** The stored vector is always the new one. *)
Lemma example_doc_embedding sid fields emb :
  dict_get (example_doc sid fields emb) "embedding" = PList (map PFloat emb).
Proof. unfold example_doc. rewrite dict_get_set. reflexivity. Qed.

(** Every other field of the example is stored as it is; the id computed
    for the example is stored only when the example has no ["_rag_id"] of
    its own. *)
Lemma example_doc_field sid fields emb k :
  NoDup (dict_keys fields) -> k <> "embedding" ->
  dict_get (example_doc sid fields emb) k
  = if existsb (String.eqb k) (dict_keys fields) then dict_get fields k
    else if String.eqb k "_rag_id" then PStr sid else PNone.
Proof.
  intros Hnd Hk. unfold example_doc. rewrite dict_get_set.
  assert (He : String.eqb "embedding" k = false)
    by (apply String.eqb_neq; congruence).
  rewrite He. fold not_embedding.
  rewrite dict_get_fold_set by (apply filter_keys_NoDup; exact Hnd).
  rewrite filter_mem, filter_get by exact Hk.
  destruct (existsb (String.eqb k) (dict_keys fields)); [reflexivity|].
  change (dict_get [("_rag_id", PStr sid)] k)
    with (if String.eqb "_rag_id" k then PStr sid else PNone).
  rewrite (String.eqb_sym "_rag_id" k). reflexivity.
Qed.

Section Build.
Variable W : Type.
Variable E : IndexEnv W.

Lemma first_of_dict d keys : exists v, first_of (PDict d) keys = Return v.
Proof.
  induction keys as [|k keys IH]; simpl; [now eexists|].
  destruct (truthy (dict_get d k)); [now eexists|exact IH].
Qed.

(** The id of an example whose question is a str: the first 80 characters
    of the question, an underscore, the first 50 characters of the text of
    the query, which is looked up under ["query"] and ["example_query"]. *)
Lemma rag_id_str ex s q :
  first_of ex ["natural_language"; "question"] = Return (PStr s) ->
  first_of ex ["query"; "example_query"] = Return q ->
  rag_id E ex = Return (str_slice 80 s ++ "_" ++ str_slice 50 (str_of E q)).
Proof. intros Hn Hq. unfold rag_id. rewrite Hn, Hq. reflexivity. Qed.

Lemma rag_id_len s t : str_len (str_slice 80 s ++ "_" ++ str_slice 50 t) <= 131.
Proof.
  rewrite !str_len_append, !str_slice_len.
  change (str_len "_") with 1. lia.
Qed.

(** A query kept under ["pipeline"] does not enter the id. *)
Lemma rag_id_without_query d s :
  first_of (PDict d) ["natural_language"; "question"] = Return (PStr s) ->
  truthy (dict_get d "query") = false ->
  truthy (dict_get d "example_query") = false ->
  rag_id E (PDict d) = Return (str_slice 80 s ++ "_").
Proof.
  intros Hn Hq He. unfold rag_id. rewrite Hn. simpl. rewrite Hq, He.
  reflexivity.
Qed.

Definition with_vector := @SchemaIndexSpec.with_vector pyval.

Lemma write_examples_bounds (db : Database W) rows : forall written w n w',
  write_examples E db rows written w = (Return n, w') ->
  written <= n <= written + length (with_vector rows).
Proof.
  induction rows as [|[ex emb] rows IH]; intros written w n w' H; simpl in H.
  - injection H as <- _. simpl. lia.
  - destruct emb as [|x emb].
    + apply IH in H. simpl. lia.
    + unfold bind, lift in H.
      destruct (rag_id E ex) as [sid|e]; [|discriminate].
      destruct (ex_items ex) as [fields|e]; [|discriminate].
      destruct (update_one E db QUERY_EXAMPLES_COLLECTION
                  [("_rag_id", PStr sid)]
                  (example_doc sid fields (x :: emb)) w) as [[u|e] w1];
        [|discriminate].
      apply IH in H. simpl. lia.
Qed.

Lemma write_examples_skips (db : Database W) rows : forall written w,
  with_vector rows = [] ->
  write_examples E db rows written w = (Return written, w).
Proof.
  induction rows as [|[ex emb] rows IH]; intros written w H; simpl.
  - reflexivity.
  - destruct emb as [|x emb]; [|discriminate]. apply IH. exact H.
Qed.

Lemma build_no_examples w :
  build_query_examples_index E (Some []) None w = (Return 0, w).
Proof. reflexivity. Qed.
End Build.

End QueryExamplesIndexSpec.

(** ** The end of a run *)

Module RunSpec.
Import Agent AgentSpec.

Lemma answer_of_truthy c : content_truthy (answer_of c) = true.
Proof.
  unfold answer_of. destruct (content_truthy c) eqn:Hc; [exact Hc|reflexivity].
Qed.

(** The answer is never empty. *)
Lemma final_text_truthy messages : content_truthy (final_text messages) = true.
Proof.
  destruct (last_terminal_split messages)
    as [H | (before & c & after & -> & H)].
  - rewrite (final_text_none H). reflexivity.
  - rewrite (final_text_found before c H). apply answer_of_truthy.
Qed.

Section Graph.
Variable W : Type.
Variable E : Env W.

Lemma superstep_agent_inv db messages w st w' :
  superstep E db agent messages w = (Return st, w') ->
  exists c calls,
    snd st = (messages ++ [AIMessage c calls])%list
    /\ fst st = match calls with [] => END | _ => tools end.
Proof.
  intros H. unfold superstep, agent_node, bind, lift, ret in H.
  destruct (full_system E messages w) as [[sys | e] w1];
    cbv beta iota in H; [|discriminate H].
  destruct (chain_invoke E sys messages w1) as [[[c calls] | e] w2];
    cbv beta iota in H; [|discriminate H].
  cbn [fst snd] in H. unfold route_after_agent, add_messages in H.
  rewrite rev_app_distr in H. cbn [rev app] in H.
  exists c, calls. destruct calls; injection H as <- _; split; reflexivity.
Qed.

(** A stream that returns has stopped on a model message without requests. *)
Lemma stream_final_terminal db budget : forall n messages w final w',
  stream E db budget n messages w = (Return final, w') -> n <> END ->
  exists before c, final = (before ++ [AIMessage c []])%list.
Proof.
  induction budget as [|budget IH]; intros n messages w final w' H Hn.
  - rewrite stream_out_of_budget in H by exact Hn. discriminate H.
  - rewrite stream_step in H by exact Hn. unfold bind in H.
    destruct (superstep E db n messages w) as [[st | e] w1] eqn:Hs;
      [|discriminate H].
    destruct n; [| |now elim Hn].
    + destruct (superstep_agent_inv _ _ _ Hs) as (c & calls & Hm & Hnext).
      destruct calls as [|tc calls].
      * rewrite Hnext, stream_END in H. injection H as <- _.
        rewrite Hm. now exists messages, c.
      * eapply IH; [exact H|]. rewrite Hnext. discriminate.
    + eapply IH; [exact H|].
      rewrite (superstep_tools_next _ _ _ _ Hs). discriminate.
Qed.

(** What a run that returns gives back: the question first, a model message
    without requests last, and the answer taken from that message. *)
Lemma run_agent_final q w answer messages w' :
  run_agent E q w = (Return (answer, messages), w') ->
  exists middle c,
    messages = (HumanMessage (CStr q) :: middle ++ [AIMessage c []])%list
    /\ Forall (fun m => is_human m = false) middle
    /\ answer = answer_of c.
Proof.
  intros H. destruct (run_agent_inv E q w H) as (Ha & db & w1 & _ & Hs).
  destruct (stream_final_terminal _ _ _ _ Hs) as (before & c & Hf);
    [discriminate|].
  assert (Hseed : seeded q messages).
  { apply stream_reaches in Hs.
    apply (reaches_seeded (q := q) Hs). apply seeded_initial. }
  destruct Hseed as (rest & Hm & Hrest).
  destruct before as [|b before].
  - rewrite Hf in Hm. discriminate Hm.
  - rewrite Hf in Hm. injection Hm as -> <-.
    exists before, c. split; [exact Hf|]. split.
    + apply Forall_app in Hrest. tauto.
    + rewrite Ha, Hf.
      change (HumanMessage (CStr q) :: before ++ [AIMessage c []])%list
        with ((HumanMessage (CStr q) :: before) ++ AIMessage c [] :: [])%list.
      apply final_text_found. constructor.
Qed.
End Graph.

End RunSpec.

(** ** The page *)

Module AppSpec.
Import Agent App SliceSpec.

Lemma shown_short content :
  str_len content <= 2000 -> shown_tool_content content = content.
Proof.
  intros H. unfold shown_tool_content.
  destruct (Nat.ltb 2000 (str_len content)) eqn:Hl; [|reflexivity].
  apply Nat.ltb_lt in Hl. lia.
Qed.

Lemma shown_long content :
  2000 < str_len content ->
  shown_tool_content content
  = str_slice 2000 content ++ nl ++ "... (truncated)"
  /\ str_len (shown_tool_content content) = 2016.
Proof.
  intros H. unfold shown_tool_content.
  assert (Hl : Nat.ltb 2000 (str_len content) = true)
    by (apply Nat.ltb_lt; exact H).
  rewrite Hl. split; [reflexivity|].
  rewrite str_len_append, str_slice_len.
  change (str_len (nl ++ "... (truncated)")) with 16. lia.
Qed.

Lemma shown_length content :
  str_len (shown_tool_content content) <= 2016
  /\ str_len (shown_tool_content content) <= str_len content + 15.
Proof.
  destruct (Nat.le_gt_cases (str_len content) 2000) as [H|H].
  - rewrite (shown_short _ H). lia.
  - destruct (shown_long _ H) as [_ Hl]. rewrite Hl. lia.
Qed.

Lemma shown_keeps_start content :
  str_slice 2000 (shown_tool_content content) = str_slice 2000 content.
Proof.
  destruct (Nat.le_gt_cases (str_len content) 2000) as [H|H].
  - rewrite (shown_short _ H). reflexivity.
  - destruct (shown_long _ H) as [-> _].
    assert (Hl : str_len (str_slice 2000 content) = 2000)
      by (rewrite str_slice_len; lia).
    rewrite <- Hl at 1. apply str_slice_app. reflexivity.
Qed.

Section Page.
Variable W : Type.
Variable E : Agent.Env W.

Lemma on_run_returns run prompt w : returns (on_run E run prompt) w.
Proof.
  unfold on_run. destruct (run && str_truthy (strip prompt)).
  - apply try_except_returns. intros e w'. apply ret_returns.
  - destruct (run && negb (str_truthy (strip prompt))); apply ret_returns.
Qed.

Lemma on_run_idle prompt w : on_run E false prompt w = (Return Idle, w).
Proof. reflexivity. Qed.

Lemma on_run_blank prompt w :
  strip prompt = EmptyString ->
  on_run E true prompt w = (Return (Warning "Please enter a question."), w).
Proof. intros H. unfold on_run. rewrite H. reflexivity. Qed.

Lemma on_run_failed prompt w e w' :
  strip prompt <> EmptyString ->
  run_agent E (strip prompt) w = (Raise e, w') ->
  on_run E true prompt w = (Return (Failure (exn_str e)), w').
Proof.
  intros Hp Hr. unfold on_run, str_truthy.
  apply String.eqb_neq in Hp. rewrite Hp. simpl.
  unfold try_except, bind. rewrite Hr. reflexivity.
Qed.

Lemma on_run_answered prompt w answer messages w' :
  strip prompt <> EmptyString ->
  run_agent E (strip prompt) w = (Return (answer, messages), w') ->
  on_run E true prompt w = (Return (Result (Some answer) messages), w').
Proof.
  intros Hp Hr. unfold on_run, str_truthy.
  apply String.eqb_neq in Hp. rewrite Hp. simpl.
  unfold try_except, bind, ret. rewrite Hr. cbn [fst snd].
  destruct (AgentSpec.run_agent_inv E _ _ Hr) as (-> & _).
  rewrite RunSpec.final_text_truthy. reflexivity.
Qed.
End Page.

End AppSpec.

(* ======================================================================== *)
(** * Further properties, stated *)

(** ** The query tools *)

(** X1.  Whatever pipeline [execute_aggregation] hands to the driver with a
    [limit_results] other than zero holds a stage whose ["$limit"] is not
    null; it is the decoded pipeline with at most one stage after it, and
    running the limiting step on it again changes nothing. *)
Theorem executed_pipeline_is_limited :
  forall (W : Type) (B : Builtins) (db : Database W)
         (collection_name pipeline_json : string) (limit_results : Z) (w : W)
         (stages pipeline : list pyval),
    json_loads B pipeline_json = Return (PList stages) ->
    QueryTools.with_limit stages limit_results = Return pipeline ->
    QueryTools.execute_aggregation B db collection_name pipeline_json
      limit_results w
    = try_except (QueryTools.aggregate_and_dump B db collection_name pipeline)
        (QueryTools.aggregation_handler (W := W)) w
    /\ (limit_results <> 0%Z -> QueryTools.has_limit pipeline = Return true)
    /\ QueryTools.with_limit pipeline limit_results = Return pipeline
    /\ exists extra, pipeline = (stages ++ extra)%list /\ length extra <= 1.
Proof.
  intros W B db c pj n w stages p Hj Hl.
  split; [eapply QueryToolsSpec.execute_aggregation_runs; eassumption|].
  destruct (PipelineSpec.with_limit_inv _ _ Hl)
    as [(Hh & ->) | [(Hh & -> & ->) | (Hh & Hn & ->)]].
  - split; [auto|]. split.
    + unfold QueryTools.with_limit. rewrite Hh. reflexivity.
    + exists []. rewrite app_nil_r. split; [reflexivity|simpl; lia].
  - split; [intros H; now elim H|]. split.
    + unfold QueryTools.with_limit. rewrite Hh. reflexivity.
    + exists []. rewrite app_nil_r. split; [reflexivity|simpl; lia].
  - pose proof (PipelineSpec.has_limit_app_limit stages n Hh) as Ha.
    split; [auto|]. split.
    + unfold QueryTools.with_limit. rewrite Ha. reflexivity.
    + exists [QueryTools.limit_stage n]. split; [reflexivity|simpl; lia].
Qed.

Lemma executed_pipeline_is_limited_witness :
  QueryTools.has_limit
    [PDict [("$match", PDict [])]; QueryTools.limit_stage 7]
  = Return true
  /\ QueryTools.with_limit
       [PDict [("$match", PDict [])]; QueryTools.limit_stage 7] 7
     = Return [PDict [("$match", PDict [])]; QueryTools.limit_stage 7].
Proof.
  destruct (executed_pipeline_is_limited Sample.builtins Sample.db "users"
              Sample.match_pipeline 7 []
              (stages := [PDict [("$match", PDict [])]])
              (pipeline := [PDict [("$match", PDict [])];
                            QueryTools.limit_stage 7])
              eq_refl eq_refl) as (_ & Hlim & Hidem & _).
  split; [apply Hlim; discriminate|exact Hidem].
Defined.

(** X2.  [execute_aggregation] turns a pipeline away before the driver is
    called, leaving the world as it was, when the text does not decode (the
    text of the decoder's error is returned; a blank text is decoded like
    any other) and when a stage that is not an object is met before any
    stage with a limit (the text of the attribute error is returned). *)
Theorem aggregation_rejects_before_driver :
  forall (W : Type) (B : Builtins) (db : Database W)
         (collection_name pipeline_json : string) (limit_results : Z) (w : W),
    (forall e, json_loads B pipeline_json = Raise e ->
       QueryTools.execute_aggregation B db collection_name pipeline_json
         limit_results w
       = (Return ((if is_JSONDecodeError e
                   then "Invalid JSON pipeline: "
                   else "Error executing aggregation: ") ++ exn_str e), w))
    /\ (forall before s after,
          json_loads B pipeline_json = Return (PList (before ++ s :: after)) ->
          Forall QueryToolsSpec.no_limit before ->
          QueryToolsSpec.is_dict s = false ->
          QueryTools.execute_aggregation B db collection_name pipeline_json
            limit_results w
          = (Return ("Error executing aggregation: '" ++ type_name s
                       ++ "' object has no attribute 'get'"), w)).
Proof.
  intros W B db c pj n w. split.
  - intros e He. unfold QueryTools.execute_aggregation, try_except, bind, lift.
    rewrite He. unfold QueryTools.aggregation_handler.
    destruct (is_JSONDecodeError e); reflexivity.
  - intros before s after Hj Hb Hs.
    unfold QueryTools.execute_aggregation, try_except, bind, lift.
    rewrite Hj. unfold QueryTools.with_limit.
    rewrite PipelineSpec.has_limit_not_a_dict by assumption. reflexivity.
Qed.

Lemma aggregation_rejects_before_driver_witness :
  QueryTools.execute_aggregation Sample.builtins Sample.db "users"
    EmptyString 100 []
  = (Return "Invalid JSON pipeline: Expecting value: line 1 column 1 (char 0)",
     [])
  /\ QueryTools.execute_aggregation Sample.builtins Sample.db "users"
       "[{}, 7]" 100 []
     = (Return "Error executing aggregation: 'int' object has no attribute 'get'",
        []).
Proof.
  destruct (aggregation_rejects_before_driver Sample.builtins Sample.db
              "users" EmptyString 100 []) as (Hbad & _).
  destruct (aggregation_rejects_before_driver Sample.builtins Sample.db
              "users" "[{}, 7]" 100 []) as (_ & Hstage).
  split.
  - exact (Hbad _ eq_refl).
  - refine (Hstage [PDict []] (PInt 7) [] eq_refl _ eq_refl).
    constructor; [|constructor]. exists []. split; reflexivity.
Defined.

(** X3.  [execute_find] does not decode a blank text: with a blank filter
    and a blank projection it behaves as with the texts [{}] and [{}] (when
    the decoder reads [{}] as the empty dict), that is, it asks the driver
    for all documents without a projection, up to [limit]. *)
Theorem find_blank_arguments :
  forall (W : Type) (B : Builtins) (db : Database W)
         (collection_name filter_json projection_json : string) (limit : Z)
         (w : W),
    strip filter_json = EmptyString -> strip projection_json = EmptyString ->
    QueryTools.execute_find B db collection_name filter_json projection_json
      limit w
    = try_except
        (docs <- coll_find db collection_name (Some (PDict [])) None limit ;;
         lift (QueryTools.dump_docs B docs))
        (QueryTools.find_handler (W := W)) w
    /\ (json_loads B "{}" = Return (PDict []) ->
        QueryTools.execute_find B db collection_name filter_json
          projection_json limit w
        = QueryTools.execute_find B db collection_name "{}" "{}" limit w).
Proof.
  intros W B db c f p n w Hf Hp.
  assert (H : QueryTools.execute_find B db c f p n w
              = try_except
                  (docs <- coll_find db c (Some (PDict [])) None n ;;
                   lift (QueryTools.dump_docs B docs))
                  (QueryTools.find_handler (W := W)) w).
  { unfold QueryTools.execute_find, QueryTools.loads_or_empty.
    rewrite Hf, Hp. reflexivity. }
  split; [exact H|]. intros Hj. rewrite H.
  unfold QueryTools.execute_find, QueryTools.loads_or_empty.
  change (str_truthy (strip "{}")) with true. cbv iota.
  unfold try_except, bind, lift. rewrite Hj. reflexivity.
Qed.

Lemma find_blank_arguments_witness :
  QueryTools.execute_find Sample.builtins Sample.db "users" "  " EmptyString 1 []
  = QueryTools.execute_find Sample.builtins Sample.db "users" "{}" "{}" 1 []
  /\ snd (QueryTools.execute_find Sample.builtins Sample.db "users" "  "
            EmptyString 1 [])
     = [Sample.CallFind "users" (Some (PDict [])) None 1].
Proof.
  split; [|reflexivity].
  exact (proj2 (find_blank_arguments Sample.builtins Sample.db "users" "  "
                  EmptyString 1 [] eq_refl eq_refl) eq_refl).
Defined.

(** ** The search and the embedding *)



(** X5.  [get_embedding] asks the service only for a text that is not empty
    and with a key that is set: otherwise it gives the empty list and
    leaves the world as it was.  When the service answers, the result is
    the first vector of the answer (the empty list when the answer holds
    none); when the service raises, the result is the empty list. *)
Theorem get_embedding_cases :
  forall (W : Type) (V : Voyage W) (text : string) (w : W),
    (text = EmptyString \/ VOYAGE_API_KEY V = EmptyString ->
     Embeddings.get_embedding V text w = (Return [], w))
    /\ (text <> EmptyString -> VOYAGE_API_KEY V <> EmptyString ->
        (forall r w', vo_embed V [text] w = (Return r, w') ->
                      Embeddings.get_embedding V text w = (Return (hd [] r), w'))
        /\ (forall e w', vo_embed V [text] w = (Raise e, w') ->
                         Embeddings.get_embedding V text w = (Return [], w'))).
Proof.
  intros W V text w. split; [apply SearchSpec.get_embedding_no_call|].
  intros Ht Hk. split.
  - intros r w' Hr. apply SearchSpec.get_embedding_first; assumption.
  - intros e w' He. eapply SearchSpec.get_embedding_failed; eassumption.
Qed.

Lemma get_embedding_cases_witness :
  Embeddings.get_embedding Sample.voyage_no_key "users" [] = (Return [], [])
  /\ Embeddings.get_embedding Sample.voyage "users" []
     = (Return Sample.unit_vector, [Sample.CallEmbed ["users"]])
  /\ Embeddings.get_embedding Sample.voyage_failing "users" []
     = (Return [], [Sample.CallEmbed ["users"]]).
Proof.
  destruct (get_embedding_cases Sample.voyage_no_key "users" []) as (Hno & _).
  destruct (get_embedding_cases Sample.voyage "users" []) as (_ & Hyes).
  destruct (get_embedding_cases Sample.voyage_failing "users" []) as (_ & Hfail).
  split; [apply Hno; now right|]. split.
  - refine (proj1 (Hyes _ _) [Sample.unit_vector] _ eq_refl); discriminate.
  - refine (proj2 (Hfail _ _) _ _ eq_refl); discriminate.
Defined.

(** X6.  [retrieve_schema_context] raises exactly when its first call,
    [get_database()], raises, and then with that exception.  Once the
    handle is there it returns: the empty string when the search raises and
    when the search finds nothing, the block of the hits otherwise. *)
Theorem retrieval_raises_only_at_connect :
  forall (W : Type) (E : Retrieval.Env W) (q : string) (k : Z) (w : W),
    (forall e w1, Retrieval.get_database E w = (Raise e, w1) ->
                  Retrieval.retrieve_schema_context E q k w = (Raise e, w1))
    /\ (forall db w1,
          Retrieval.get_database E w = (Return db, w1) ->
          returns (Retrieval.retrieve_schema_context E q k) w
          /\ forall v w2,
               Embeddings.get_embedding (Retrieval.voyage E) q w1
               = (Return v, w2) -> v <> [] ->
               (forall e w3,
                   coll_aggregate db Retrieval.SCHEMA_RAG_COLLECTION
                     (Retrieval.vector_search_pipeline
                        Retrieval.SCHEMA_RAG_INDEX_NAME v k) w2 = (Raise e, w3) ->
                   Retrieval.retrieve_schema_context E q k w
                   = (Return EmptyString, w3))
               /\ (forall docs w3,
                     coll_aggregate db Retrieval.SCHEMA_RAG_COLLECTION
                       (Retrieval.vector_search_pipeline
                          Retrieval.SCHEMA_RAG_INDEX_NAME v k) w2
                     = (Return docs, w3) ->
                     Retrieval.retrieve_schema_context E q k w
                     = (Return (match docs with
                                | [] => EmptyString
                                | _ => Retrieval.format_hits E docs
                                end), w3))).
Proof.
  intros W E q k w. split.
  - intros e w1. apply RetrievalSpec.retrieve_connect_raises.
  - intros db w1 Hdb. split.
    + eapply RetrievalSpec.retrieve_returns_connected. exact Hdb.
    + intros v w2 Hv Hne. split.
      * intros e w3 He. eapply SearchSpec.retrieve_search_failed; eassumption.
      * intros docs w3 He. eapply SearchSpec.retrieve_hits; eassumption.
Qed.

Lemma retrieval_raises_only_at_connect_witness :
  Retrieval.retrieve_schema_context
    (Retrieval.mkEnv (Sample.logged Sample.CallConnect (Return Sample.db_down))
       Sample.voyage Sample.sample_str) "users" 8 []
  = (Return EmptyString,
     [Sample.CallConnect; Sample.CallEmbed ["users"];
      Sample.CallAggregate "schema_metadata"
        (Retrieval.vector_search_pipeline "schema_metadata_vector_index"
           Sample.unit_vector 8)])
  /\ Retrieval.retrieve_schema_context Sample.rag_env_unset "users" 8 []
     = (Raise Sample.config_error, [Sample.CallConnect]).
Proof.
  split.
  - destruct (retrieval_raises_only_at_connect
                (Retrieval.mkEnv
                   (Sample.logged Sample.CallConnect (Return Sample.db_down))
                   Sample.voyage Sample.sample_str) "users" 8 [])
      as (_ & Hok).
    destruct (Hok Sample.db_down [Sample.CallConnect] eq_refl) as (_ & Hrun).
    refine (proj1 (Hrun Sample.unit_vector
                     [Sample.CallConnect; Sample.CallEmbed ["users"]]
                     eq_refl _) Sample.timeout _ eq_refl).
    discriminate.
  - exact (proj1 (retrieval_raises_only_at_connect Sample.rag_env_unset
                    "users" 8 []) _ _ eq_refl).
Defined.

(** X7.  The block [retrieve_schema_context] builds from the hits is the
    header, an empty line and one bullet ["- [collection] text"] for every
    hit whose text or description counts as true, in the order of the hits;
    hits without one are left out, and the block is the empty string when
    none is left. *)
Theorem schema_block_bullets :
  forall (W : Type) (E : Retrieval.Env W) (docs : list document),
    let shown := filter (fun d => truthy (RetrievalSpec.hit_text d)) docs in
    Retrieval.format_hits E docs
    = match shown with
      | [] => EmptyString
      | _ => join nl (Retrieval.header :: EmptyString
                        :: map (RetrievalSpec.bullet E) shown)
      end
    /\ length shown <= length docs
    /\ (forall d, In d shown <-> In d docs /\ ~ RetrievalSpec.blank d).
Proof.
  intros W E docs shown. split; [|split].
  - rewrite RetrievalSpec.format_hits_bullets, SearchSpec.bullets_map.
    fold shown. destruct shown; reflexivity.
  - apply filter_length_le.
  - intros d. unfold shown. rewrite filter_In. split.
    + intros [Hin Ht]. split; [exact Hin|]. intros Hb.
      rewrite (RetrievalSpec.blank_hit_text Hb) in Ht. discriminate.
    + intros [Hin Hnb]. split; [exact Hin|].
      destruct (truthy (RetrievalSpec.hit_text d)) eqn:Ht; [reflexivity|].
      elim Hnb. apply RetrievalSpec.hit_text_blank. exact Ht.
Qed.

(** X8.  [retrieve_query_examples_context] raises exactly when
    [get_database()] raises; with the handle it returns, and what it returns
    is the empty string (always so when the embedding is empty) or a block
    that starts with the header of the examples and does not end in white
    space.  Hits with neither a question nor a query give no block. *)
Theorem query_examples_block :
  forall (W : Type) (E : Retrieval.Env W) (q : string) (k : Z) (w : W),
    (forall e w1, Retrieval.get_database E w = (Raise e, w1) ->
       RetrievalExamples.retrieve_query_examples_context E q k w = (Raise e, w1))
    /\ (forall db w1,
          Retrieval.get_database E w = (Return db, w1) ->
          returns (RetrievalExamples.retrieve_query_examples_context E q k) w
          /\ forall w2,
               Embeddings.get_embedding (Retrieval.voyage E) q w1
               = (Return [], w2) ->
               RetrievalExamples.retrieve_query_examples_context E q k w
               = (Return EmptyString, w2))
    /\ (forall r w',
          RetrievalExamples.retrieve_query_examples_context E q k w
          = (Return r, w') ->
          r = EmptyString
          \/ ((exists rest, r = RetrievalExamples.examples_header ++ rest)
              /\ StripSpec.ends_nonspace r = true))
    /\ (forall docs, Forall RetrievalExamplesSpec.blank_example docs ->
                     RetrievalExamples.format_examples E docs = EmptyString).
Proof.
  intros W E q k w. split.
  { intros e w1. apply RetrievalExamplesSpec.retrieve_examples_connect_raises. }
  split.
  { intros db w1 Hdb. split.
    - eapply RetrievalExamplesSpec.retrieve_examples_returns. exact Hdb.
    - intros w2 Hv.
      eapply RetrievalExamplesSpec.retrieve_examples_no_vector; eassumption. }
  split.
  { intros r w' H.
    destruct (RetrievalExamplesSpec.retrieve_examples_inv _ _ _ _ H)
      as [-> | (docs & ->)]; [now left|].
    apply RetrievalExamplesSpec.format_examples_edges. }
  apply RetrievalExamplesSpec.format_examples_blank.
Qed.

Lemma query_examples_block_witness :
  RetrievalExamples.retrieve_query_examples_context
    (SampleIndex.rag SampleIndex.db_examples SampleIndex.voyage) "users" 3 []
  = (Return
       (join nl
          [RetrievalExamples.examples_header; EmptyString;
           "Q: List all users";
           "  " ++ RetrievalExamples.arrow ++ " execute_find";
           EmptyString;
           "Q: What collections exist?"]),
     [SampleIndex.Connect; SampleIndex.Embed ["users"];
      SampleIndex.Aggregate "query_examples"])
  /\ RetrievalExamples.retrieve_query_examples_context
       (SampleIndex.rag SampleIndex.db_examples SampleIndex.voyage_no_key)
       "users" 3 []
     = (Return EmptyString, [SampleIndex.Connect]).
Proof.
  split; [reflexivity|].
  destruct (query_examples_block
              (SampleIndex.rag SampleIndex.db_examples SampleIndex.voyage_no_key)
              "users" 3 []) as (_ & Hok & _).
  exact (proj2 (Hok SampleIndex.db_examples [SampleIndex.Connect] eq_refl)
           [SampleIndex.Connect] eq_refl).
Defined.

Lemma schema_block_bullets_witness :
  Retrieval.format_hits Sample.rag_env Sample.schema_metadata
  = join nl
      [Retrieval.header; EmptyString;
       "- [users] Collection: users. Fields: _id, name, address, orders";
       "- [orders] Orders placed by users"]
  /\ length (filter (fun d => truthy (RetrievalSpec.hit_text d))
               Sample.schema_metadata) = 2.
Proof.
  split; [|reflexivity].
  exact (proj1 (schema_block_bullets Sample.rag_env Sample.schema_metadata)).
Defined.

(** ** The index builders *)

Module IndexBuildSpec.
Import SchemaIndex SchemaIndexSpec.

Section Build.
Variable W : Type.
Variable E : IndexEnv W.

Lemma build_schema_index_bound n w db w1 names w2 written w' :
  Retrieval.get_database (ix_rag E) w = (Return db, w1) ->
  list_collection_names db w1 = (Return names, w2) ->
  build_schema_index E n w = (Return written, w') ->
  written <= length (filter indexable names).
Proof.
  intros Hdb Hn. unfold build_schema_index, bind. rewrite Hdb, Hn.
  destruct (filter indexable names) as [|c cs] eqn:Hf.
  - intros H. injection H as <- _. lia.
  - destruct (map_M (fun c0 => _infer_schema_text db c0 n) (c :: cs) w2)
      as [[texts|e] w3]; [|discriminate].
    destruct (Embeddings.get_embeddings (Retrieval.voyage (ix_rag E)) texts w3)
      as [[embs|e] w4]; [|discriminate].
    intros H. apply write_schema_docs_bounds in H.
    pose proof (with_vector_length
                  (combine (combine (c :: cs) texts) embs)) as Hl.
    rewrite !length_combine in Hl. lia.
Qed.

Lemma build_schema_index_no_key n w db w1 names w2 texts w3 :
  VOYAGE_API_KEY (Retrieval.voyage (ix_rag E)) = EmptyString ->
  Retrieval.get_database (ix_rag E) w = (Return db, w1) ->
  list_collection_names db w1 = (Return names, w2) ->
  map_M (fun c => _infer_schema_text db c n) (filter indexable names) w2
  = (Return texts, w3) ->
  build_schema_index E n w = (Return 0, w3).
Proof.
  intros Hk Hdb Hn Hm. unfold build_schema_index, bind. rewrite Hdb, Hn.
  destruct (filter indexable names) as [|c cs].
  - simpl in Hm. injection Hm as _ <-. reflexivity.
  - rewrite Hm.
    rewrite (EmbeddingsSpec.get_embeddings_no_key _ texts w3 Hk).
    apply write_schema_docs_skips. apply with_vector_empty_vectors.
Qed.

Lemma build_schema_index_count n w db w1 names w2 texts w3 embs w4 :
  (forall c f d w0, returns (update_one E db c f d) w0) ->
  Retrieval.get_database (ix_rag E) w = (Return db, w1) ->
  list_collection_names db w1 = (Return names, w2) ->
  map_M (fun c => _infer_schema_text db c n) (filter indexable names) w2
  = (Return texts, w3) ->
  Embeddings.get_embeddings (Retrieval.voyage (ix_rag E)) texts w3
  = (Return embs, w4) ->
  exists w',
    build_schema_index E n w
    = (Return (length (with_vector
                         (combine (combine (filter indexable names) texts)
                            embs))), w').
Proof.
  intros Hu Hdb Hn Hm He. unfold build_schema_index, bind. rewrite Hdb, Hn.
  destruct (filter indexable names) as [|c cs].
  - simpl in Hm. injection Hm as <- _. now eexists.
  - rewrite Hm, He.
    destruct (write_schema_docs_count E db
                (combine (combine (c :: cs) texts) embs) 0 w4 Hu) as (w' & H).
    exists w'. exact H.
Qed.
End Build.

Section Examples.
Import QueryExamplesIndex QueryExamplesIndexSpec.
Variable W : Type.
Variable E : IndexEnv W.

Lemma build_examples_bound exs w written w' :
  build_query_examples_index E (Some exs) None w = (Return written, w') ->
  written <= length exs.
Proof.
  unfold build_query_examples_index, bind, ret, lift.
  destruct exs as [|ex exs]; [intros H; injection H as <- _; lia|].
  destruct (example_texts E (ex :: exs)) as [texts|e]; [|discriminate].
  destruct (Embeddings.get_embeddings (Retrieval.voyage (ix_rag E)) texts w)
    as [[embs|e] w1]; [|discriminate].
  destruct (Retrieval.get_database (ix_rag E) w1) as [[db|e] w2];
    [|discriminate].
  intros H. apply write_examples_bounds in H.
  pose proof (with_vector_length (combine (ex :: exs) embs)) as Hl.
  unfold QueryExamplesIndexSpec.with_vector in H.
  rewrite length_combine in Hl. lia.
Qed.

Lemma build_examples_no_key exs texts w db w1 :
  exs <> [] ->
  VOYAGE_API_KEY (Retrieval.voyage (ix_rag E)) = EmptyString ->
  example_texts E exs = Return texts ->
  Retrieval.get_database (ix_rag E) w = (Return db, w1) ->
  build_query_examples_index E (Some exs) None w = (Return 0, w1).
Proof.
  intros Hne Hk Ht Hdb. unfold build_query_examples_index, bind, ret, lift.
  destruct exs as [|ex exs]; [now elim Hne|].
  rewrite Ht.
  rewrite (EmbeddingsSpec.get_embeddings_no_key _ texts w Hk).
  rewrite Hdb. apply write_examples_skips.
  apply with_vector_empty_vectors.
Qed.
End Examples.

End IndexBuildSpec.

(** X9.  [_infer_schema_text] lists every field name of the sampled
    documents exactly once, in the order of first appearance, with the type
    label of the first document that has the field; an empty sample gives
    the text ["Collection <name> (empty)"].  The call is not guarded: an
    exception of the driver comes out of it. *)
Theorem infer_schema_text_lists_fields_once :
  forall (W : Type) (db : Database W) (collection_name : string)
         (sample_size : Z) (w : W),
    (forall docs w',
        coll_find db collection_name None None sample_size w
        = (Return docs, w') ->
        SchemaIndex._infer_schema_text db collection_name sample_size w
        = (Return
             (match docs with
              | [] => "Collection " ++ collection_name ++ " (empty)"
              | _ => join nl
                       (("Collection: " ++ collection_name ++ ". Fields:")
                          :: map SchemaIndexSpec.field_line
                               (SchemaIndexSpec.distinct_fields docs))
              end), w')
        /\ NoDup (map fst (SchemaIndexSpec.distinct_fields docs))
        /\ (forall k, In k (map fst (SchemaIndexSpec.distinct_fields docs))
                      <-> exists doc, In doc docs /\ In k (dict_keys doc))
        /\ (forall before doc after k,
              docs = (before ++ doc :: after)%list ->
              (forall d, In d before -> ~ In k (dict_keys d)) ->
              In k (dict_keys doc) ->
              dict_get (SchemaIndexSpec.distinct_fields docs) k
              = dict_get doc k))
    /\ (forall e w',
          coll_find db collection_name None None sample_size w = (Raise e, w') ->
          SchemaIndex._infer_schema_text db collection_name sample_size w
          = (Raise e, w')).
Proof.
  intros W db c n w. split.
  - intros docs w' Hd. split.
    + destruct docs as [|d docs].
      * apply SchemaIndexSpec.infer_schema_text_empty. exact Hd.
      * apply SchemaIndexSpec.infer_schema_text_sampled; [exact Hd|discriminate].
    + split; [apply SchemaIndexSpec.dedup_NoDup|].
      split; [apply SchemaIndexSpec.distinct_fields_keys|].
      intros before doc after k ->.
      apply SchemaIndexSpec.distinct_fields_first.
  - intros e w'. apply SchemaIndexSpec.infer_schema_text_raises.
Qed.

Lemma infer_schema_text_lists_fields_once_witness :
  SchemaIndex._infer_schema_text SampleIndex.db "orders" 3 []
  = (Return
       (join nl
          ["Collection: orders. Fields:";
           "  _id: ObjectId";
           "  total: int";
           "  customer: dict (keys: name, city)";
           "  items: list (list of objects)"]),
     [SampleIndex.Find "orders" 3])
  /\ dict_get (SchemaIndexSpec.distinct_fields SampleIndex.orders) "total"
     = PInt 12.
Proof.
  destruct (infer_schema_text_lists_fields_once SampleIndex.db "orders" 3 [])
    as (Hok & _).
  destruct (Hok SampleIndex.orders [SampleIndex.Find "orders" 3] eq_refl)
    as (Htext & _ & _ & Hfirst).
  split; [exact Htext|].
  refine (Hfirst [] _ _ "total" eq_refl _ _).
  - intros d [].
  - right. left. reflexivity.
Defined.

(** X10.  [build_schema_index] samples and writes only collections that are
    neither [schema_metadata], [query_examples] nor named [system.*]; when
    none is left it returns 0 right after listing the names.  The number it
    returns is at most the number of those collections and, when the writes
    go through, it is the number of rows of
    [zip(to_index, texts, embeddings)] whose vector is not empty. *)
Theorem build_schema_index_counts :
  forall (W : Type) (E : IndexEnv W) (sample_size : Z) (w : W)
         (db : Database W) (w1 : W) (names : list string) (w2 : W),
    Retrieval.get_database (ix_rag E) w = (Return db, w1) ->
    list_collection_names db w1 = (Return names, w2) ->
    (forall c, In c (filter SchemaIndex.indexable names)
               <-> In c names /\ c <> "schema_metadata"
                   /\ c <> "query_examples"
                   /\ String.prefix "system." c = false)
    /\ (filter SchemaIndex.indexable names = [] ->
        SchemaIndex.build_schema_index E sample_size w = (Return 0, w2))
    /\ (forall written w',
          SchemaIndex.build_schema_index E sample_size w = (Return written, w') ->
          written <= length (filter SchemaIndex.indexable names))
    /\ (forall texts w3 embs w4,
          (forall c f d w0, returns (update_one E db c f d) w0) ->
          map_M (fun c => SchemaIndex._infer_schema_text db c sample_size)
            (filter SchemaIndex.indexable names) w2 = (Return texts, w3) ->
          Embeddings.get_embeddings (Retrieval.voyage (ix_rag E)) texts w3
          = (Return embs, w4) ->
          exists w',
            SchemaIndex.build_schema_index E sample_size w
            = (Return
                 (length
                    (SchemaIndexSpec.with_vector
                       (combine
                          (combine (filter SchemaIndex.indexable names) texts)
                          embs))), w')).
Proof.
  intros W E n w db w1 names w2 Hdb Hn. split.
  { intros c. rewrite filter_In, SchemaIndexSpec.indexable_spec. tauto. }
  split.
  { intros Hf. eapply SchemaIndexSpec.build_schema_index_nothing; eassumption. }
  split.
  { intros written w' H.
    eapply IndexBuildSpec.build_schema_index_bound; eassumption. }
  intros texts w3 embs w4 Hu Hm He.
  eapply IndexBuildSpec.build_schema_index_count; eassumption.
Qed.

Lemma build_schema_index_counts_witness :
  SchemaIndex.build_schema_index SampleIndex.env_own 3 []
  = (Return 0, [SampleIndex.Connect; SampleIndex.ListNames])
  /\ filter SchemaIndex.indexable (map fst SampleIndex.collections)
     = ["orders"; "audit"]
  /\ fst (SchemaIndex.build_schema_index SampleIndex.env 3 []) = Return 2.
Proof.
  destruct (build_schema_index_counts SampleIndex.env_own 3 []
              (db := SampleIndex.db_own) (w1 := [SampleIndex.Connect])
              (names := ["schema_metadata"; "query_examples"; "system.indexes";
                         "system.views"])
              (w2 := [SampleIndex.Connect; SampleIndex.ListNames])
              eq_refl eq_refl) as (_ & Hnone & _).
  split; [exact (Hnone eq_refl)|]. split; reflexivity.
Defined.

(** X11.  Without an API key [build_schema_index] still samples every
    collection it would index, but writes nothing and returns 0: the world
    is left as the sampling left it. *)
Theorem build_schema_index_without_key :
  forall (W : Type) (E : IndexEnv W) (sample_size : Z) (w : W)
         (db : Database W) (w1 : W) (names : list string) (w2 : W)
         (texts : list string) (w3 : W),
    VOYAGE_API_KEY (Retrieval.voyage (ix_rag E)) = EmptyString ->
    Retrieval.get_database (ix_rag E) w = (Return db, w1) ->
    list_collection_names db w1 = (Return names, w2) ->
    map_M (fun c => SchemaIndex._infer_schema_text db c sample_size)
      (filter SchemaIndex.indexable names) w2 = (Return texts, w3) ->
    SchemaIndex.build_schema_index E sample_size w = (Return 0, w3).
Proof.
  intros W E n w db w1 names w2 texts w3.
  apply IndexBuildSpec.build_schema_index_no_key.
Qed.

Lemma build_schema_index_without_key_witness :
  SchemaIndex.build_schema_index SampleIndex.env_no_key 3 []
  = (Return 0,
     [SampleIndex.Connect; SampleIndex.ListNames;
      SampleIndex.Find "orders" 3; SampleIndex.Find "audit" 3]).
Proof.
  eapply (build_schema_index_without_key SampleIndex.env_no_key 3 []
            (db := SampleIndex.db) (w1 := [SampleIndex.Connect])
            (names := map fst SampleIndex.collections)
            (w2 := [SampleIndex.Connect; SampleIndex.ListNames])).
  - reflexivity.
  - reflexivity.
  - reflexivity.
  - reflexivity.
Defined.

Module ExampleTextSpec.
Import QueryExamplesIndex.

Definition question (d : document) : pyval :=
  py_or (py_or (dict_get d "natural_language") (dict_get d "question"))
    (PStr EmptyString).

(** The query as [_example_to_text] looks for it. *)
Definition query (d : document) : pyval :=
  py_or (py_or (py_or (dict_get d "query") (dict_get d "pipeline"))
           (dict_get d "example_query")) (PStr EmptyString).

(** The query as the id of line 98 looks for it. *)
Definition id_query (d : document) : pyval :=
  py_or (py_or (dict_get d "query") (dict_get d "example_query"))
    (PStr EmptyString).

Definition is_container (v : pyval) : bool :=
  match v with PList _ | PDict _ => true | _ => false end.

Lemma first_of_question d :
  first_of (PDict d) ["natural_language"; "question"] = Return (question d).
Proof.
  unfold question, py_or. cbn [first_of ex_get].
  destruct (truthy (dict_get d "natural_language")) eqn:H1;
    [rewrite ?H1; reflexivity|].
  destruct (truthy (dict_get d "question")) eqn:H2; rewrite ?H2; reflexivity.
Qed.

Lemma first_of_query d :
  first_of (PDict d) ["query"; "pipeline"; "example_query"] = Return (query d).
Proof.
  unfold query, py_or. cbn [first_of ex_get].
  destruct (truthy (dict_get d "query")) eqn:H1;
    [rewrite ?H1; reflexivity|].
  destruct (truthy (dict_get d "pipeline")) eqn:H2;
    [rewrite ?H2; reflexivity|].
  destruct (truthy (dict_get d "example_query")) eqn:H3;
    rewrite ?H3; reflexivity.
Qed.

Lemma first_of_id_query d :
  first_of (PDict d) ["query"; "example_query"] = Return (id_query d).
Proof.
  unfold id_query, py_or. cbn [first_of ex_get].
  destruct (truthy (dict_get d "query")) eqn:H1;
    [rewrite ?H1; reflexivity|].
  destruct (truthy (dict_get d "example_query")) eqn:H2;
    rewrite ?H2; reflexivity.
Qed.

End ExampleTextSpec.

(** X12.  The text [_example_to_text] gives for an example is
    ["Question: <question>. Query: <query>"].  A query that is a list or a
    dict enters it as its JSON text cut to 500 characters (and an exception
    of the printer comes out of the call); any other query enters it whole.
    An example that is not a dict raises the attribute error. *)
Theorem example_text_shape :
  forall (W : Type) (E : IndexEnv W) (d : document),
    let question := ExampleTextSpec.question d in
    let query := ExampleTextSpec.query d in
    (ExampleTextSpec.is_container query = true ->
     (forall s, dumps_compact E query = Return s ->
        QueryExamplesIndex._example_to_text E (PDict d)
        = Return ("Question: " ++ QueryExamplesIndex.str_of E question
                    ++ ". Query: " ++ str_take 500 s)
        /\ String.length (str_take 500 s) <= 500)
     /\ (forall e, dumps_compact E query = Raise e ->
           QueryExamplesIndex._example_to_text E (PDict d) = Raise e))
    /\ (ExampleTextSpec.is_container query = false ->
        QueryExamplesIndex._example_to_text E (PDict d)
        = Return ("Question: " ++ QueryExamplesIndex.str_of E question
                    ++ ". Query: " ++ QueryExamplesIndex.str_of E query))
    /\ (forall ex, QueryToolsSpec.is_dict ex = false ->
          QueryExamplesIndex._example_to_text E ex
          = Raise (mkExn (OtherException "AttributeError")
                     ("'" ++ type_name ex ++ "' object has no attribute 'get'"))).
Proof.
  intros W E d question query. split; [|split].
  - intros Hc. split.
    + intros s Hs. split.
      * unfold QueryExamplesIndex._example_to_text.
        rewrite ExampleTextSpec.first_of_question,
          ExampleTextSpec.first_of_query.
        fold query question. destruct query; try discriminate Hc;
          rewrite Hs; reflexivity.
      * rewrite SliceSpec.str_take_length. apply Nat.le_min_l.
    + intros e He. unfold QueryExamplesIndex._example_to_text.
      rewrite ExampleTextSpec.first_of_question,
        ExampleTextSpec.first_of_query.
      fold query. destruct query; try discriminate Hc; rewrite He; reflexivity.
  - intros Hc. unfold QueryExamplesIndex._example_to_text.
    rewrite ExampleTextSpec.first_of_question, ExampleTextSpec.first_of_query.
    fold query question. destruct query; try discriminate Hc; reflexivity.
  - intros ex Hex. destruct ex; try reflexivity. discriminate Hex.
Qed.

Lemma example_text_shape_witness :
  QueryExamplesIndex._example_to_text SampleIndex.env SampleIndex.count_orders
  = Return ("Question: Count the orders. Query: [{" ++ dq ++ "$count" ++ dq
              ++ ": " ++ dq ++ "n" ++ dq ++ "}]")
  /\ QueryExamplesIndex._example_to_text SampleIndex.env
       (PDict SampleIndex.carried)
     = Return "Question: List all users. Query: execute_find".
Proof.
  split.
  - refine (proj1 (proj1 (proj1 (example_text_shape SampleIndex.env
              [("natural_language", PStr "Count the orders");
               ("pipeline", PList [PDict [("$count", PStr "n")]])]) eq_refl)
              _ eq_refl)).
  - exact (proj1 (proj2 (example_text_shape SampleIndex.env SampleIndex.carried))
             eq_refl).
Defined.

(** X13.  The id under which [build_query_examples_index] stores an example
    whose question is a str is the first 80 characters of the question, an
    underscore and the first 50 characters of the text of its query, 131
    characters at most.  The query is the value of ["query"], or else of
    ["example_query"]: a ["pipeline"] does not enter the id, so that for an
    example that has neither of the two the id is the start of the
    question and the underscore, and two examples that agree on the start
    of the question and of that query get the same id. *)
Theorem rag_id_shape :
  forall (W : Type) (E : IndexEnv W) (d : document) (s : string),
    ExampleTextSpec.question d = PStr s ->
    let q := QueryExamplesIndex.str_of E (ExampleTextSpec.id_query d) in
    QueryExamplesIndex.rag_id E (PDict d)
    = Return (str_slice 80 s ++ "_" ++ str_slice 50 q)
    /\ str_len (str_slice 80 s ++ "_" ++ str_slice 50 q) <= 131
    /\ str_len (str_slice 80 s) = Nat.min 80 (str_len s)
    /\ str_len (str_slice 50 q) = Nat.min 50 (str_len q)
    /\ (exists rest, s = str_slice 80 s ++ rest)
    /\ (exists rest, q = str_slice 50 q ++ rest)
    /\ (truthy (dict_get d "query") = false ->
        truthy (dict_get d "example_query") = false ->
        QueryExamplesIndex.rag_id E (PDict d) = Return (str_slice 80 s ++ "_"))
    /\ (forall (d' : document) (s' : string),
          ExampleTextSpec.question d' = PStr s' ->
          str_slice 80 s' = str_slice 80 s ->
          str_slice 50
            (QueryExamplesIndex.str_of E (ExampleTextSpec.id_query d'))
          = str_slice 50 q ->
          QueryExamplesIndex.rag_id E (PDict d')
          = QueryExamplesIndex.rag_id E (PDict d)).
Proof.
  intros W E d s Hq q.
  assert (Hid : forall d0 s0,
             ExampleTextSpec.question d0 = PStr s0 ->
             QueryExamplesIndex.rag_id E (PDict d0)
             = Return (str_slice 80 s0 ++ "_"
                         ++ str_slice 50
                              (QueryExamplesIndex.str_of E
                                 (ExampleTextSpec.id_query d0)))).
  { intros d0 s0 H0. apply QueryExamplesIndexSpec.rag_id_str.
    - rewrite ExampleTextSpec.first_of_question. congruence.
    - apply ExampleTextSpec.first_of_id_query. }
  split; [apply Hid; exact Hq|].
  split; [apply QueryExamplesIndexSpec.rag_id_len|].
  split; [apply SliceSpec.str_slice_len|].
  split; [apply SliceSpec.str_slice_len|].
  split; [apply SliceSpec.str_slice_prefix|].
  split; [apply SliceSpec.str_slice_prefix|].
  split.
  - apply QueryExamplesIndexSpec.rag_id_without_query.
    rewrite ExampleTextSpec.first_of_question. congruence.
  - intros d' s' Hq' Hs Hquery.
    rewrite (Hid d' s' Hq'), (Hid d s Hq), Hs, Hquery. reflexivity.
Qed.

Lemma rag_id_shape_witness :
  QueryExamplesIndex.rag_id SampleIndex.env (PDict SampleIndex.long_example)
  = Return (str_repeat SampleIndex.e_acute 80 ++ "_"
              ++ "execute_find(collection_name='users', filter_json=")
  /\ str_len (str_repeat SampleIndex.e_acute 80 ++ "_"
                ++ "execute_find(collection_name='users', filter_json=") = 131
  /\ String.length (str_repeat SampleIndex.e_acute 80 ++ "_"
                      ++ "execute_find(collection_name='users', filter_json=")
     = 211
  /\ QueryExamplesIndex.rag_id SampleIndex.env SampleIndex.count_orders
     = Return "Count the orders_"
  /\ QueryExamplesIndex.rag_id SampleIndex.env SampleIndex.count_orders_by_day
     = Return "Count the orders_".
Proof.
  split.
  { rewrite (proj1 (rag_id_shape SampleIndex.env SampleIndex.long_example
                      (s := str_repeat SampleIndex.e_acute 81) eq_refl)).
    vm_compute. reflexivity. }
  split; [vm_compute; reflexivity|]. split; [vm_compute; reflexivity|]. split.
  - exact (proj1 (proj2 (proj2 (proj2 (proj2 (proj2 (proj2
             (rag_id_shape SampleIndex.env
                [("natural_language", PStr "Count the orders");
                 ("pipeline", PList [PDict [("$count", PStr "n")]])]
                (s := "Count the orders") eq_refl)))))))
             eq_refl eq_refl).
  - exact (proj1 (proj2 (proj2 (proj2 (proj2 (proj2 (proj2
             (rag_id_shape SampleIndex.env
                [("natural_language", PStr "Count the orders");
                 ("pipeline",
                  PList [PDict [("$group", PDict [("_id", PStr "$day")])]])]
                (s := "Count the orders") eq_refl)))))))
             eq_refl eq_refl).
Defined.

(** X14.  In the document [build_query_examples_index] stores for an
    example, ["embedding"] is always the new vector, whatever the example
    held under that key; every other field of the example is stored as it
    is; and ["_rag_id"] is the computed id only when the example has no
    ["_rag_id"] of its own, whose value is stored otherwise (the filter of
    the upsert still uses the computed id). *)
Theorem example_doc_fields :
  forall (sid : string) (fields : document) (emb : list float),
    NoDup (dict_keys fields) ->
    dict_get (QueryExamplesIndex.example_doc sid fields emb) "embedding"
    = PList (map PFloat emb)
    /\ (forall k, k <> "embedding" -> In k (dict_keys fields) ->
          dict_get (QueryExamplesIndex.example_doc sid fields emb) k
          = dict_get fields k)
    /\ (~ In "_rag_id" (dict_keys fields) ->
        dict_get (QueryExamplesIndex.example_doc sid fields emb) "_rag_id"
        = PStr sid)
    /\ (forall k, k <> "embedding" -> k <> "_rag_id" ->
          ~ In k (dict_keys fields) ->
          dict_get (QueryExamplesIndex.example_doc sid fields emb) k = PNone).
Proof.
  intros sid fields emb Hnd.
  split; [apply QueryExamplesIndexSpec.example_doc_embedding|].
  split.
  { intros k Hk Hin.
    rewrite QueryExamplesIndexSpec.example_doc_field by assumption.
    apply SliceSpec.existsb_eqb_In in Hin. rewrite Hin. reflexivity. }
  split.
  { intros Hnot.
    rewrite QueryExamplesIndexSpec.example_doc_field
      by (assumption || discriminate).
    apply SliceSpec.existsb_eqb_notin in Hnot. rewrite Hnot. reflexivity. }
  intros k Hk Hr Hnot.
  rewrite QueryExamplesIndexSpec.example_doc_field by assumption.
  apply SliceSpec.existsb_eqb_notin in Hnot. rewrite Hnot.
  apply String.eqb_neq in Hr. rewrite Hr. reflexivity.
Qed.

Lemma carried_keys_NoDup : NoDup (dict_keys SampleIndex.carried).
Proof.
  repeat constructor; simpl; intuition discriminate.
Defined.

Lemma example_doc_fields_witness :
  QueryExamplesIndex.example_doc "List all users_execute_find"
    SampleIndex.carried Sample.unit_vector
  = [("_rag_id", PStr "mine");
     ("natural_language", PStr "List all users");
     ("query", PStr "execute_find");
     ("embedding", PList (map PFloat Sample.unit_vector))]
  /\ dict_get (QueryExamplesIndex.example_doc "List all users_execute_find"
                 SampleIndex.carried Sample.unit_vector) "embedding"
     = PList (map PFloat Sample.unit_vector).
Proof.
  split; [reflexivity|].
  exact (proj1 (@example_doc_fields "List all users_execute_find"
                  SampleIndex.carried Sample.unit_vector carried_keys_NoDup)).
Defined.

(** X15.  [build_query_examples_index], given examples and no file, returns
    0 at once for an empty list; the number it returns is never more than
    the number of examples; and without an API key it writes nothing and
    returns 0 (the database handle is still asked for). *)
Theorem build_query_examples_index_counts :
  forall (W : Type) (E : IndexEnv W) (examples : list pyval) (w : W),
    (examples = [] ->
     QueryExamplesIndex.build_query_examples_index E (Some examples) None w
     = (Return 0, w))
    /\ (forall written w',
          QueryExamplesIndex.build_query_examples_index E (Some examples) None w
          = (Return written, w') -> written <= length examples)
    /\ (forall texts db w1,
          examples <> [] ->
          VOYAGE_API_KEY (Retrieval.voyage (ix_rag E)) = EmptyString ->
          QueryExamplesIndex.example_texts E examples = Return texts ->
          Retrieval.get_database (ix_rag E) w = (Return db, w1) ->
          QueryExamplesIndex.build_query_examples_index E (Some examples) None w
          = (Return 0, w1)).
Proof.
  intros W E examples w. split; [intros ->; reflexivity|]. split.
  - intros written w'. apply IndexBuildSpec.build_examples_bound.
  - intros texts db w1. apply IndexBuildSpec.build_examples_no_key.
Qed.

Lemma build_query_examples_index_counts_witness :
  QueryExamplesIndex.build_query_examples_index SampleIndex.env_no_key
    (Some [SampleIndex.count_orders; PDict SampleIndex.carried]) None []
  = (Return 0, [SampleIndex.Connect])
  /\ fst (QueryExamplesIndex.build_query_examples_index SampleIndex.env
            (Some [SampleIndex.count_orders; SampleIndex.count_orders_by_day])
            None []) = Return 2.
Proof.
  split; [|reflexivity].
  refine (proj2 (proj2 (build_query_examples_index_counts SampleIndex.env_no_key
            [SampleIndex.count_orders; PDict SampleIndex.carried] []))
            _ SampleIndex.db [SampleIndex.Connect] _ eq_refl eq_refl eq_refl).
  discriminate.
Defined.

(** ** The run and the page *)

(** X16.  The answer computed from any list of messages counts as true (it
    is never the empty text).  Whenever [run_agent] returns, the transcript
    starts with the user's question, holds no other user message, and ends
    with a model message without tool requests; the answer is the content
    of that last message, or the fixed text when that content is empty. *)
Theorem returned_run_ends_with_answer :
  forall (W : Type) (E : Agent.Env W) (q : string) (w : W),
    (forall messages, content_truthy (final_text messages) = true)
    /\ (forall answer messages w',
          run_agent E q w = (Return (answer, messages), w') ->
          exists middle c,
            messages
            = (HumanMessage (CStr q) :: middle ++ [AIMessage c []])%list
            /\ Forall (fun m => AgentSpec.is_human m = false) middle
            /\ answer = (if content_truthy c then c
                         else CStr "No response generated.")).
Proof.
  intros W E q w. split; [apply RunSpec.final_text_truthy|].
  intros answer messages w' H.
  destruct (RunSpec.run_agent_final E q w H) as (middle & c & Hm & Hf & Ha).
  now exists middle, c.
Qed.

Lemma returned_run_ends_with_answer_witness :
  exists middle c,
    snd (match fst (run_agent Sample.env_answering "which collections exist?" [])
         with
         | Return r => r
         | Raise _ => (CStr EmptyString, [])
         end)
    = (HumanMessage (CStr "which collections exist?")
         :: middle ++ [AIMessage c []])%list
    /\ c = CStr "The database has the collections users and orders.".
Proof.
  destruct (run_agent Sample.env_answering "which collections exist?" [])
    as [[[answer messages] | e] w'] eqn:Hrun.
  - destruct (proj2 (returned_run_ends_with_answer Sample.env_answering
                       "which collections exist?" []) answer messages w' Hrun)
      as (middle & c & Hm & _ & _).
    exists middle, c. split; [exact Hm|].
    assert (Hl : last messages (HumanMessage (CStr EmptyString))
                 = AIMessage c []).
    { rewrite Hm.
      change (HumanMessage (CStr "which collections exist?")
                :: middle ++ [AIMessage c []])%list
        with ((HumanMessage (CStr "which collections exist?") :: middle)
                ++ [AIMessage c []])%list.
      apply last_last. }
    assert (Hc : fst (run_agent Sample.env_answering
                        "which collections exist?" [])
                 = Return (answer, messages)) by (rewrite Hrun; reflexivity).
    vm_compute in Hc. injection Hc as _ <-. vm_compute in Hl.
    injection Hl as <-. reflexivity.
  - assert (Hc : fst (run_agent Sample.env_answering
                        "which collections exist?" []) = Raise e)
      by (rewrite Hrun; reflexivity).
    vm_compute in Hc. discriminate Hc.
Defined.

(** X17.  The trace shows a tool result of at most 2000 characters as it
    is, and a longer one as its first 2000 characters followed by a line
    break and ["... (truncated)"], 2016 characters in all: what is shown is
    never longer than 2016 characters, keeps the first 2000 characters of
    the result, and can be up to 15 characters longer than the result.
    Characters are counted as [len] counts them, not bytes. *)
Theorem shown_tool_content_bounds :
  forall content : string,
    (str_len content <= 2000 -> App.shown_tool_content content = content)
    /\ (2000 < str_len content ->
        App.shown_tool_content content
        = str_slice 2000 content ++ nl ++ "... (truncated)"
        /\ str_len (App.shown_tool_content content) = 2016
        /\ str_len (str_slice 2000 content) = 2000
        /\ exists rest, content = str_slice 2000 content ++ rest)
    /\ str_len (App.shown_tool_content content) <= 2016
    /\ str_len (App.shown_tool_content content) <= str_len content + 15
    /\ str_slice 2000 (App.shown_tool_content content)
       = str_slice 2000 content.
Proof.
  intros content.
  split; [apply AppSpec.shown_short|].
  split.
  { intros H. destruct (AppSpec.shown_long _ H) as [Hs Hl].
    split; [exact Hs|]. split; [exact Hl|]. split.
    - rewrite SliceSpec.str_slice_len. lia.
    - apply SliceSpec.str_slice_prefix. }
  split; [apply AppSpec.shown_length|].
  split; [apply AppSpec.shown_length|].
  apply AppSpec.shown_keeps_start.
Qed.

Lemma shown_tool_content_bounds_witness :
  App.shown_tool_content (str_repeat SampleIndex.e_acute 2001)
  = str_repeat SampleIndex.e_acute 2000 ++ nl ++ "... (truncated)"
  /\ App.shown_tool_content (str_repeat SampleIndex.e_acute 1001)
     = str_repeat SampleIndex.e_acute 1001
  /\ App.shown_tool_content "Collections in database 'inferyx': users"
     = "Collections in database 'inferyx': users".
Proof.
  split.
  { destruct (proj1 (proj2 (shown_tool_content_bounds
                              (str_repeat SampleIndex.e_acute 2001))))
      as (Hs & _).
    - apply Nat.ltb_lt. vm_compute. reflexivity.
    - rewrite Hs. vm_compute. reflexivity. }
  split.
  - apply (proj1 (shown_tool_content_bounds _)). apply Nat.leb_le.
    vm_compute. reflexivity.
  - apply (proj1 (shown_tool_content_bounds _)). apply Nat.leb_le. reflexivity.
Defined.

(** X18.  One run of the page never raises.  Without a press of the button
    nothing happens; with the button and a blank question (white space
    alone, of any kind [str.strip] removes) the warning is shown and the
    agent is not run (the world is left as it was); otherwise the agent is
    run on the stripped question, which has no white space at either end.
    An exception of [run_agent] ends as its text on the page; a run that
    returns always has its answer shown. *)
Theorem page_run_outcomes :
  forall (W : Type) (E : Agent.Env W) (prompt : string) (w : W),
    (forall run, returns (App.on_run E run prompt) w)
    /\ App.on_run E false prompt w = (Return App.Idle, w)
    /\ (strip prompt = EmptyString ->
        App.on_run E true prompt w
        = (Return (App.Warning "Please enter a question."), w))
    /\ (strip prompt <> EmptyString ->
        StripSpec.starts_nonspace (strip prompt) = true
        /\ StripSpec.ends_nonspace (strip prompt) = true
        /\ (forall e w',
              run_agent E (strip prompt) w = (Raise e, w') ->
              App.on_run E true prompt w
              = (Return (App.Failure (exn_str e)), w'))
        /\ (forall answer messages w',
              run_agent E (strip prompt) w = (Return (answer, messages), w') ->
              App.on_run E true prompt w
              = (Return (App.Result (Some answer) messages), w'))).
Proof.
  intros W E prompt w.
  split; [intros run; apply AppSpec.on_run_returns|].
  split; [reflexivity|].
  split; [apply AppSpec.on_run_blank|].
  intros Hp. destruct (StripSpec.strip_edges prompt) as [H|[Hs He]];
    [now elim Hp|].
  split; [exact Hs|]. split; [exact He|]. split.
  - intros e w'. apply AppSpec.on_run_failed. exact Hp.
  - intros answer messages w'. apply AppSpec.on_run_answered. exact Hp.
Qed.

Lemma page_run_outcomes_witness :
  App.on_run Sample.env_runaway true "   " []
  = (Return (App.Warning "Please enter a question."), [])
  /\ App.on_run Sample.env_runaway true (" " ++ Sample.nbsp_filter ++ nl) []
     = (Return (App.Warning "Please enter a question."), [])
  /\ fst (App.on_run Sample.env_runaway true "  which collections exist? " [])
     = Return (App.Failure (recursion_text Sample.env_runaway))
  /\ fst (App.on_run Sample.env_answering true
            (Sample.nbsp_filter ++ "which collections exist? ") [])
     = Return (App.Result
                 (Some (CStr "The database has the collections users and orders."))
                 [HumanMessage (CStr "which collections exist?");
                  AIMessage (CStr EmptyString) [Sample.list_call];
                  ToolMessage
                    (CStr "Collections in database 'inferyx': users, orders, schema_metadata")
                    "toolu_01" "list_collections";
                  AIMessage
                    (CStr "The database has the collections users and orders.")
                    []]).
Proof.
  destruct (page_run_outcomes Sample.env_runaway "   " []) as (_ & _ & Hblank & _).
  split; [exact (Hblank eq_refl)|].
  destruct (page_run_outcomes Sample.env_runaway
              (" " ++ Sample.nbsp_filter ++ nl) []) as (_ & _ & Hnbsp & _).
  split; [exact (Hnbsp eq_refl)|].
  split.
  { destruct (page_run_outcomes Sample.env_runaway
                "  which collections exist? " []) as (_ & _ & _ & Hrun).
    destruct Hrun as (_ & _ & Hfail & _); [discriminate|].
    destruct (run_agent Sample.env_runaway
                (strip "  which collections exist? ") [])
      as [[r | e] w'] eqn:Hr.
    - assert (Hc : fst (run_agent Sample.env_runaway
                          (strip "  which collections exist? ") []) = Return r)
        by (rewrite Hr; reflexivity).
      vm_compute in Hc. discriminate Hc.
    - rewrite (Hfail e w' eq_refl).
      assert (Hc : fst (run_agent Sample.env_runaway
                          (strip "  which collections exist? ") []) = Raise e)
        by (rewrite Hr; reflexivity).
      vm_compute in Hc. injection Hc as <-. reflexivity. }
  destruct (page_run_outcomes Sample.env_answering
              (Sample.nbsp_filter ++ "which collections exist? ") [])
    as (_ & _ & _ & Hrun).
  destruct Hrun as (_ & _ & _ & Hok); [vm_compute; discriminate|].
  destruct (run_agent Sample.env_answering
              (strip (Sample.nbsp_filter ++ "which collections exist? ")) [])
    as [[[answer messages] | e] w'] eqn:Hr.
  - rewrite (Hok answer messages w' eq_refl).
    assert (Hc : fst (run_agent Sample.env_answering
                        (strip (Sample.nbsp_filter
                                  ++ "which collections exist? ")) [])
                 = Return (answer, messages))
      by (rewrite Hr; reflexivity).
    vm_compute in Hc. injection Hc as <- <-. reflexivity.
  - assert (Hc : fst (run_agent Sample.env_answering
                        (strip (Sample.nbsp_filter
                                  ++ "which collections exist? ")) [])
                 = Raise e)
      by (rewrite Hr; reflexivity).
    vm_compute in Hc. discriminate Hc.
Defined.

(** ** The user text and the prompt *)

Module PromptSpec.
Import Agent AgentSpec.

(** A user message whose content counts as true. *)
Definition speaks (m : BaseMessage) : bool :=
  match m with HumanMessage c => content_truthy c | _ => false end.

Lemma first_user_text_skip_silent str_blocks l r :
  Forall (fun m => speaks m = false) l ->
  first_user_text str_blocks (l ++ r) = first_user_text str_blocks r.
Proof.
  induction 1 as [|m l Hm _ IH]; simpl; [reflexivity|].
  destruct m as [c| | |]; try exact IH.
  simpl in Hm. rewrite Hm. exact IH.
Qed.

Lemma silent_split messages :
  Forall (fun m => speaks m = false) messages
  \/ exists before c after,
       messages = (before ++ HumanMessage c :: after)%list
       /\ content_truthy c = true
       /\ Forall (fun m => speaks m = false) after.
Proof.
  induction messages as [|m messages IH]; [left; constructor|].
  destruct IH as [IH | (before & c & after & -> & Hc & Hafter)].
  - destruct (speaks m) eqn:Hm.
    + right. destruct m as [c| | |]; try discriminate.
      exists [], c, messages. auto.
    + left. constructor; assumption.
  - right. exists (m :: before), c, after. auto.
Qed.

Section Graph.
Variable W : Type.
Variable E : Env W.

Definition text_of (c : content) : string :=
  match c with
  | CStr s => s
  | CBlocks l => Retrieval.container_str (rag E) (PList l)
  end.

Lemma last_user_text_found before c after :
  content_truthy c = true ->
  Forall (fun m => speaks m = false) after ->
  _get_last_user_text E (before ++ HumanMessage c :: after) = text_of c.
Proof.
  intros Hc Ha. unfold _get_last_user_text. rewrite rev_app_distr. simpl.
  rewrite <- app_assoc, first_user_text_skip_silent
    by (apply Forall_rev; exact Ha).
  simpl. rewrite Hc. destruct c; reflexivity.
Qed.

Lemma last_user_text_none messages :
  Forall (fun m => speaks m = false) messages ->
  _get_last_user_text E messages = EmptyString.
Proof.
  intros H. unfold _get_last_user_text.
  rewrite <- (app_nil_r (rev messages)), first_user_text_skip_silent
    by (apply Forall_rev; exact H).
  reflexivity.
Qed.

Lemma full_system_no_text messages w :
  _get_last_user_text E messages = EmptyString ->
  full_system E messages w = (Return BASE_SYSTEM, w).
Proof. intros H. unfold full_system. rewrite H. reflexivity. Qed.

Lemma full_system_inv messages w system w' :
  full_system E messages w = (Return system, w') ->
  system = BASE_SYSTEM
  \/ exists context, context <> EmptyString
                     /\ system = BASE_SYSTEM ++ nl ++ nl ++ context.
Proof.
  unfold full_system, bind, ret. intros H.
  destruct ((if str_truthy (_get_last_user_text E messages)
             then Retrieval.retrieve_schema_context (rag E)
                    (_get_last_user_text E messages) 8
             else fun w0 => (Return EmptyString, w0)) w)
    as [[ctx | e] w1]; [|discriminate H].
  injection H as <- _. unfold str_truthy.
  destruct (String.eqb ctx EmptyString) eqn:Hc; simpl; [now left|right].
  apply String.eqb_neq in Hc. now exists ctx.
Qed.

Lemma full_system_raises messages w e w' :
  full_system E messages w = (Raise e, w') ->
  _get_last_user_text E messages <> EmptyString
  /\ Retrieval.get_database (rag E) w = (Raise e, w').
Proof.
  unfold full_system, bind, ret, str_truthy. intros H.
  destruct (String.eqb (_get_last_user_text E messages) EmptyString) eqn:Ht;
    simpl in H; [discriminate H|].
  apply String.eqb_neq in Ht. split; [exact Ht|].
  destruct (Retrieval.get_database (rag E) w) as [[db | e0] w1] eqn:Hdb.
  - destruct (RetrievalSpec.retrieve_returns_connected (rag E)
                (_get_last_user_text E messages) 8 w Hdb) as (r & w2 & Hr).
    rewrite Hr in H. discriminate H.
  - rewrite (RetrievalSpec.retrieve_connect_raises (rag E) _ 8 w Hdb) in H.
    injection H as <- <-. reflexivity.
Qed.
End Graph.

End PromptSpec.

(** X19.  [_get_last_user_text] gives the text of the most recent user
    message whose content is not empty, passing over user messages with an
    empty content as well as model and tool messages, and the empty string
    when there is no such message.  Either case holds of every transcript. *)
Theorem last_user_text_law :
  forall (W : Type) (E : Agent.Env W) (messages : list BaseMessage),
    (forall before c after,
        messages = (before ++ HumanMessage c :: after)%list ->
        content_truthy c = true ->
        Forall (fun m => PromptSpec.speaks m = false) after ->
        _get_last_user_text E messages
        = match c with
          | CStr s => s
          | CBlocks l => Retrieval.container_str (rag E) (PList l)
          end)
    /\ (Forall (fun m => PromptSpec.speaks m = false) messages ->
        _get_last_user_text E messages = EmptyString)
    /\ (Forall (fun m => PromptSpec.speaks m = false) messages
        \/ exists before c after,
             messages = (before ++ HumanMessage c :: after)%list
             /\ content_truthy c = true
             /\ Forall (fun m => PromptSpec.speaks m = false) after).
Proof.
  intros W E messages. split.
  - intros before c after -> Hc Ha.
    apply PromptSpec.last_user_text_found; assumption.
  - split; [apply PromptSpec.last_user_text_none|apply PromptSpec.silent_split].
Qed.

Lemma last_user_text_law_witness :
  _get_last_user_text Sample.env_answering
    [HumanMessage (CStr "list the users");
     AIMessage (CStr "Which database?") [];
     HumanMessage (CStr EmptyString);
     ToolMessage (CStr "users") "toolu_01" "list_collections"]
  = "list the users".
Proof.
  refine (proj1 (last_user_text_law Sample.env_answering _) []
            (CStr "list the users") _ eq_refl eq_refl _).
  repeat constructor.
Defined.

(** X20.  The prompt [agent_node] builds always starts with the base
    instructions: it is [BASE_SYSTEM] itself, or [BASE_SYSTEM], two line
    breaks and a context that is not empty.  When the transcript has no
    user text the retrieval is not called and the world is left as it was.
    Building the prompt raises only when there is a user text and
    [get_database()] raises, with that exception. *)
Theorem prompt_starts_with_base :
  forall (W : Type) (E : Agent.Env W) (messages : list BaseMessage) (w : W),
    (forall system w',
        full_system E messages w = (Return system, w') ->
        system = BASE_SYSTEM
        \/ exists context,
             context <> EmptyString
             /\ system = BASE_SYSTEM ++ nl ++ nl ++ context)
    /\ (_get_last_user_text E messages = EmptyString ->
        full_system E messages w = (Return BASE_SYSTEM, w))
    /\ (forall e w',
          full_system E messages w = (Raise e, w') ->
          _get_last_user_text E messages <> EmptyString
          /\ Retrieval.get_database (rag E) w = (Raise e, w')).
Proof.
  intros W E messages w. split; [|split].
  - intros system w'. apply PromptSpec.full_system_inv.
  - apply PromptSpec.full_system_no_text.
  - intros e w'. apply PromptSpec.full_system_raises.
Qed.

Lemma prompt_starts_with_base_witness :
  full_system Sample.env_answering
    [AIMessage (CStr "Which database?") []] []
  = (Return BASE_SYSTEM, [])
  /\ exists w,
       full_system Sample.env_answering [HumanMessage (CStr "users")] []
       = (Return
            (BASE_SYSTEM ++ nl ++ nl
               ++ join nl
                    [Retrieval.header; EmptyString;
                     "- [users] Collection: users. Fields: _id, name, address, orders";
                     "- [orders] Orders placed by users"]), w).
Proof.
  split.
  - exact (proj1 (proj2 (prompt_starts_with_base Sample.env_answering
                           [AIMessage (CStr "Which database?") []] []))
             eq_refl).
  - eexists. reflexivity.
Defined.
